(** * dead-chat: a WebSocket chat relay (server.js)

    A shallow embedding of the protocol engine of [server.js]: the RFC 6455
    frame codec, the handshake token, nickname resolution, the bounded
    history, the per-connection rate limiter, the keepalive loop and the
    connection lifecycle, followed by the properties proved about them. *)

From Stdlib Require Import List NArith ZArith Bool Lia.
From Stdlib.Strings Require Import String Ascii Byte.
From Stdlib Require Import DecimalString DecimalN DecimalFacts.
From stdpp Require Import base option list gmap fin_maps.
Import ListNotations.

Set Warnings "-register-all".
Local Open Scope N_scope.

(* ====================================================================== *)
(** * JavaScript values the server manipulates *)
(* ====================================================================== *)

(** A JavaScript string is a sequence of UTF-16 code units. *)
Definition jsstring := list N.

(** [js "Bob"] is the JavaScript string literal ['Bob']. *)
Definition js (s : string) : jsstring :=
  List.map N_of_ascii (list_ascii_of_string s).

(** [`${n}`] for a non-negative integer [n]: its decimal digits. *)
Definition numToString (n : N) : jsstring :=
  js (NilEmpty.string_of_uint (N.to_uint n)).

(** The code units [String.prototype.trim] strips: ECMAScript WhiteSpace
    and LineTerminator. *)
Definition isWhiteSpace (c : N) : bool :=
  ((9 <=? c) && (c <=? 13)) || (c =? 0x20) || (c =? 0xA0) || (c =? 0x1680)
  || ((0x2000 <=? c) && (c <=? 0x200A)) || (c =? 0x2028) || (c =? 0x2029)
  || (c =? 0x202F) || (c =? 0x205F) || (c =? 0x3000) || (c =? 0xFEFF).

Fixpoint trimStart (s : jsstring) : jsstring :=
  match s with
  | c :: r => if isWhiteSpace c then trimStart r else s
  | [] => []
  end.

Definition trimEnd (s : jsstring) : jsstring := rev (trimStart (rev s)).

(** [s.trim()] *)
Definition trim (s : jsstring) : jsstring := trimEnd (trimStart s).

(** [s.slice(0, n)] *)
Definition slice0 {A} (n : nat) (s : list A) : list A := firstn n s.

(** [\w] without the unicode or ignore-case flags: [[A-Za-z0-9_]]. *)
Definition isWordChar (c : N) : bool :=
  ((0x41 <=? c) && (c <=? 0x5A)) || ((0x61 <=? c) && (c <=? 0x7A))
  || ((0x30 <=? c) && (c <=? 0x39)) || (c =? 0x5F).

(** A code unit matched by the class [[^\w\-. ]]. *)
Definition outOfPolicy (c : N) : bool :=
  negb (isWordChar c || (c =? 0x2D) || (c =? 0x2E) || (c =? 0x20)).

(** [!s] for a string: only the empty string is falsy. *)
Definition falsy (s : jsstring) : bool :=
  match s with [] => true | _ => false end.

(* ====================================================================== *)
(** * Buffers *)
(* ====================================================================== *)

(** A Node [Buffer] is a sequence of octets. *)
Definition Buffer := list byte.

(** Storing a number in a buffer cell keeps its low eight bits. *)
Definition b8 (n : N) : byte :=
  match Byte.of_N (n mod 256) with Some b => b | None => x00 end.

(** [buf[i]], read inside the buffer (every read below is guarded by a
    length test). *)
Definition at_ (buf : Buffer) (i : nat) : N := Byte.to_N (nth i buf x00).

Definition readUInt16BE (buf : Buffer) (off : nat) : N :=
  at_ buf off * 256 + at_ buf (off + 1).

Definition readUInt32BE (buf : Buffer) (off : nat) : N :=
  at_ buf off * 16777216 + at_ buf (off + 1) * 65536
  + at_ buf (off + 2) * 256 + at_ buf (off + 3).

(** The two bytes [writeUInt16BE(v, _)] stores. *)
Definition writeUInt16BE (v : N) : Buffer :=
  [b8 (N.shiftr v 8); b8 v].

(** The four bytes [writeUInt32BE(v, _)] stores; Node raises a RangeError
    for a value outside [0, 2^32 - 1]. *)
Definition writeUInt32BE (v : N) : option Buffer :=
  if v <? 4294967296
  then Some [b8 (N.shiftr v 24); b8 (N.shiftr v 16); b8 (N.shiftr v 8); b8 v]
  else None.

(** [buf.slice(a, b)] for [a <= b]; the end is clamped to the length. *)
Definition slice (buf : Buffer) (a b : nat) : Buffer :=
  firstn (b - a) (skipn a buf).

(** [buf.slice(a)] *)
Definition sliceFrom (buf : Buffer) (a : nat) : Buffer := skipn a buf.

Definition isHighSurrogate (c : N) : bool := (0xD800 <=? c) && (c <=? 0xDBFF).
Definition isLowSurrogate (c : N) : bool := (0xDC00 <=? c) && (c <=? 0xDFFF).

(** The replacement character U+FFFD in UTF-8. *)
Definition replacement : Buffer := [xef; xbf; xbd].

(** [Buffer.from(text, 'utf8')]: the UTF-8 encoding of a string; a
    surrogate without its partner is encoded as U+FFFD. *)
Fixpoint utf8 (s : jsstring) : Buffer :=
  match s with
  | [] => []
  | c :: r =>
    if c <? 0x80 then b8 c :: utf8 r
    else if c <? 0x800 then
      b8 (N.lor 0xC0 (N.shiftr c 6)) :: b8 (N.lor 0x80 (N.land c 0x3F)) :: utf8 r
    else if isHighSurrogate c then
      match r with
      | d :: r' =>
        if isLowSurrogate d then
          let cp := 0x10000 + (c - 0xD800) * 0x400 + (d - 0xDC00) in
          b8 (N.lor 0xF0 (N.shiftr cp 18))
          :: b8 (N.lor 0x80 (N.land (N.shiftr cp 12) 0x3F))
          :: b8 (N.lor 0x80 (N.land (N.shiftr cp 6) 0x3F))
          :: b8 (N.lor 0x80 (N.land cp 0x3F)) :: utf8 r'
        else replacement ++ utf8 r
      | [] => replacement
      end
    else if isLowSurrogate c then replacement ++ utf8 r
    else
      b8 (N.lor 0xE0 (N.shiftr c 12))
      :: b8 (N.lor 0x80 (N.land (N.shiftr c 6) 0x3F))
      :: b8 (N.lor 0x80 (N.land c 0x3F)) :: utf8 r
  end.

(* ====================================================================== *)
(** * Configuration *)
(* ====================================================================== *)

Definition MAX_HISTORY : nat := 50.
Definition MAX_NICK_LEN : nat := 24.
Definition MAX_MSG_LEN : nat := 1000.
Definition PING_INTERVAL_MS : Z := 30000.
Definition MAX_CLIENTS : nat := 100.
Definition RATE_LIMIT_MSG : nat := 5.
Definition RATE_LIMIT_WIN : Z := 1000.
Definition WS_MAGIC : jsstring := js "258EAFA5-E914-47DA-95CA-C5AB0DC85B11".

(* ====================================================================== *)
(** * WebSocket frames *)
(* ====================================================================== *)

(** The object [parseFrame] returns. *)
Record Frame := mkFrame {
  opcode : N;
  payload : Buffer;
  totalLength : nat
}.

Definition byte_xor (a b : byte) : byte :=
  b8 (N.lxor (Byte.to_N a) (Byte.to_N b)).

(** The unmasking loop: [payload[i] = buf[offset + i] ^ mask[i % 4]],
    over the [payLen] bytes [data] that start at [offset], from index [i]. *)
Fixpoint unmask (mask : Buffer) (i : nat) (data : Buffer) : Buffer :=
  match data with
  | [] => []
  | b :: r => byte_xor b (nth (i mod 4)%nat mask x00) :: unmask mask (S i) r
  end.

(** [parseFrame(buf)]: [None] is the [null] the code returns when the
    buffer does not hold a whole frame yet. *)
Definition parseFrame (buf : Buffer) : option Frame :=
  if (length buf <? 2)%nat then None else
  let opcode := N.land (at_ buf 0) 0x0F in
  let masked := negb (N.land (at_ buf 1) 0x80 =? 0) in
  let payLen := N.land (at_ buf 1) 0x7F in
  let hdr : option (N * nat) :=
    if payLen =? 126 then
      if (length buf <? 4)%nat then None else Some (readUInt16BE buf 2, 4%nat)
    else if payLen =? 127 then
      if (length buf <? 10)%nat then None else Some (readUInt32BE buf 6, 10%nat)
    else Some (payLen, 2%nat) in
  match hdr with
  | None => None
  | Some (payLen, offset) =>
    if masked then
      if N.of_nat (length buf) <? N.of_nat offset + 4 + payLen then None else
      let mask := slice buf offset (offset + 4) in
      let offset := (offset + 4)%nat in
      let n := N.to_nat payLen in
      Some (mkFrame opcode (unmask mask 0 (slice buf offset (offset + n)))
                    (offset + n))
    else
      if N.of_nat (length buf) <? N.of_nat offset + payLen then None else
      let n := N.to_nat payLen in
      Some (mkFrame opcode (slice buf offset (offset + n)) (offset + n))
  end.

(** [buildFrame(text)]: [None] when [writeUInt32BE] raises. *)
Definition buildFrame (text : jsstring) : option Buffer :=
  let payload := utf8 text in
  let len := N.of_nat (length payload) in
  if len <? 126 then Some ([b8 0x81; b8 len] ++ payload)
  else if len <? 65536 then
    Some ([b8 0x81; b8 126] ++ writeUInt16BE len ++ payload)
  else
    match writeUInt32BE 0, writeUInt32BE len with
    | Some hi, Some lo => Some ([b8 0x81; b8 127] ++ hi ++ lo ++ payload)
    | _, _ => None
    end.

(** [buildPing()], [buildClose()], and the pong frame the data handler
    builds in place. *)
Definition buildPing : Buffer := [b8 0x89; b8 0].
Definition buildClose : Buffer := [b8 0x88; b8 0].
Definition buildPong : Buffer := [b8 0x8A; b8 0].

(* ====================================================================== *)
(** * The handshake token: SHA-1 and base64 of Node's [crypto] *)
(* ====================================================================== *)

Module Sha1.

(** 32-bit words are numbers taken modulo 2^32. *)
Definition w32 (x : N) : N := x mod 4294967296.
Definition add32 (x y : N) : N := w32 (x + y).
Definition not32 (x : N) : N := N.lxor (w32 x) 0xFFFFFFFF.
Definition rotl (n x : N) : N :=
  w32 (N.lor (N.shiftl x n) (N.shiftr x (32 - n))).

(** Big-endian grouping of octets into words. *)
Fixpoint words (bs : Buffer) : list N :=
  match bs with
  | a :: b :: c :: d :: r =>
    (Byte.to_N a * 16777216 + Byte.to_N b * 65536
     + Byte.to_N c * 256 + Byte.to_N d) :: words r
  | _ => []
  end.

Definition word_bytes (w : N) : Buffer :=
  [b8 (N.shiftr w 24); b8 (N.shiftr w 16); b8 (N.shiftr w 8); b8 w].

(** Padding: a one bit, zeros up to 56 modulo 64, then the bit length
    on eight octets. *)
Definition pad (msg : Buffer) : Buffer :=
  let l := length msg in
  let z := ((64 - (l + 9) mod 64) mod 64)%nat in
  let bits := N.of_nat l * 8 in
  msg ++ [x80] ++ repeat x00 z
      ++ word_bytes (N.shiftr bits 32) ++ word_bytes bits.

(** The message schedule, extended [k] times; the latest word first. *)
Fixpoint schedule (k : nat) (rw : list N) : list N :=
  match k with
  | O => rw
  | S k' =>
    let w := N.lxor (N.lxor (nth 2 rw 0) (nth 7 rw 0))
                    (N.lxor (nth 13 rw 0) (nth 15 rw 0)) in
    schedule k' (rotl 1 w :: rw)
  end.

Record state := mkState { ha : N; hb : N; hc : N; hd : N; he : N }.

Definition f (t : nat) (b c d : N) : N :=
  if (t <? 20)%nat then N.lor (N.land b c) (N.land (not32 b) d)
  else if (t <? 40)%nat then N.lxor (N.lxor b c) d
  else if (t <? 60)%nat then
    N.lor (N.lor (N.land b c) (N.land b d)) (N.land c d)
  else N.lxor (N.lxor b c) d.

Definition k (t : nat) : N :=
  if (t <? 20)%nat then 0x5A827999
  else if (t <? 40)%nat then 0x6ED9EBA1
  else if (t <? 60)%nat then 0x8F1BBCDC
  else 0xCA62C1D6.

Definition round (t : nat) (w : N) (s : state) : state :=
  let tmp := add32 (add32 (add32 (add32 (rotl 5 (ha s)) (f t (hb s) (hc s) (hd s)))
                                 (he s)) (k t)) w in
  mkState tmp (ha s) (rotl 30 (hb s)) (hc s) (hd s).

Fixpoint rounds (t : nat) (ws : list N) (s : state) : state :=
  match ws with
  | [] => s
  | w :: r => rounds (S t) r (round t w s)
  end.

(** One 512-bit block, given as sixteen words. *)
Definition compress (h : state) (block : list N) : state :=
  let s := rounds 0 (rev (schedule 64 (rev block))) h in
  mkState (add32 (ha h) (ha s)) (add32 (hb h) (hb s)) (add32 (hc h) (hc s))
          (add32 (hd h) (hd s)) (add32 (he h) (he s)).

Fixpoint blocks (n : nat) (ws : list N) (h : state) : state :=
  match n with
  | O => h
  | S n' => blocks n' (skipn 16 ws) (compress h (firstn 16 ws))
  end.

Definition init : state :=
  mkState 0x67452301 0xEFCDAB89 0x98BADCFE 0x10325476 0xC3D2E1F0.

(** [crypto.createHash('sha1').update(msg).digest()] *)
Definition sha1 (msg : Buffer) : Buffer :=
  let p := pad msg in
  let h := blocks (length p / 64) (words p) init in
  word_bytes (ha h) ++ word_bytes (hb h) ++ word_bytes (hc h)
    ++ word_bytes (hd h) ++ word_bytes (he h).

End Sha1.

Module Base64.

(** The character for a six-bit value. *)
Definition digit (v : N) : N :=
  if v <? 26 then 0x41 + v
  else if v <? 52 then 0x61 + (v - 26)
  else if v <? 62 then 0x30 + (v - 52)
  else if v =? 62 then 0x2B else 0x2F.

Definition pad_char : N := 0x3D.

(** [buf.toString('base64')] *)
Fixpoint encode (bs : Buffer) : jsstring :=
  match bs with
  | [] => []
  | [a] =>
    let x := Byte.to_N a in
    [digit (N.shiftr x 2); digit (N.shiftl (N.land x 3) 4); pad_char; pad_char]
  | [a; b] =>
    let x := Byte.to_N a in
    let y := Byte.to_N b in
    [digit (N.shiftr x 2);
     digit (N.lor (N.shiftl (N.land x 3) 4) (N.shiftr y 4));
     digit (N.shiftl (N.land y 15) 2); pad_char]
  | a :: b :: c :: r =>
    let x := Byte.to_N a in
    let y := Byte.to_N b in
    let z := Byte.to_N c in
    digit (N.shiftr x 2)
    :: digit (N.lor (N.shiftl (N.land x 3) 4) (N.shiftr y 4))
    :: digit (N.lor (N.shiftl (N.land y 15) 2) (N.shiftr z 6))
    :: digit (N.land z 63) :: encode r
  end.

End Base64.

(** [computeAccept(key)]: a string given to [update] is hashed in UTF-8. *)
Definition computeAccept (key : jsstring) : jsstring :=
  Base64.encode (Sha1.sha1 (utf8 (key ++ WS_MAGIC))).

(* ====================================================================== *)
(** * Messages, connections, sockets *)
(* ====================================================================== *)

(** The objects the server serialises with [JSON.stringify]. *)
Inductive Message :=
| Chat (nick text : jsstring) (ts : Z)
    (** [{ type: 'message', nick, text, ts }] *)
| System (text : jsstring) (ts : Z) (count : option nat)
    (** [{ type: 'system', text, ts, count }]; the rate-limit warning has
        no [count] *)
| HistoryMsg (messages : list Message)
    (** [{ type: 'history', messages }] *)
| Identity (nick : jsstring).
    (** [{ type: 'identity', nick }] *)

(** What [JSON.parse] returns. *)
Inductive json :=
| JNull
| JBool (b : bool)
| JNum (n : Z)  (** a number; its value is never inspected *)
| JStr (s : jsstring)
| JArr (l : list json)
| JObj (fields : list (jsstring * json)).  (** own properties, one per key *)

(** [v.k] for a [v] that is not [null]: [None] is [undefined]. Only
    objects carry the properties the server reads. *)
Definition getProp (v : json) (k : jsstring) : option json :=
  match v with
  | JObj fields =>
    snd <$> List.find (fun e => bool_decide (fst e = k)) fields
  | _ => None
  end.

(** One entry of the [clients] map. *)
Module Client.
Record t := mk {
  id : N;
  nick : jsstring;
  alive : bool;
  buf : Buffer;
  rateCount : nat;
  rateStart : Z
}.
Definition set_alive (b : bool) (c : t) : t :=
  mk (id c) (nick c) b (buf c) (rateCount c) (rateStart c).
Definition set_buf (b : Buffer) (c : t) : t :=
  mk (id c) (nick c) (alive c) b (rateCount c) (rateStart c).
Definition set_rate (n : nat) (start : Z) (c : t) : t :=
  mk (id c) (nick c) (alive c) (buf c) n start.
End Client.

(** What has been handed to [socket.write]. *)
Inductive Written :=
| WHttp (text : jsstring)  (** the text of an HTTP response *)
| WRaw (frame : Buffer)    (** a control frame *)
| WJson (obj : Message).   (** [buildFrame(JSON.stringify(obj))] *)

(** A socket as the server sees it. [onData], [onceClose] and [onceError]
    say which listeners [handleUpgrade] attached and that have not been
    removed; a [once] listener is removed when it fires. *)
Record Socket := mkSocket {
  destroyed : bool;
  written : list Written;
  onData : bool;
  onceClose : bool;
  onceError : bool
}.

Definition freshSocket : Socket := mkSocket false [] false false false.

(** [socket.destroy()]; Node emits ['close'] for it later. *)
Definition destroy (k : Socket) : Socket :=
  mkSocket true (written k) (onData k) (onceClose k) (onceError k).

(** [socket.write(x)]: nothing leaves a destroyed socket. *)
Definition write (x : Written) (k : Socket) : Socket :=
  if destroyed k then k
  else mkSocket false (written k ++ [x]) (onData k) (onceClose k) (onceError k).

(** The three listeners of [handleUpgrade] are attached. *)
Definition attach (k : Socket) : Socket :=
  mkSocket (destroyed k) (written k) true true true.

(** A socket that can still emit ['data'] to the server: Node delivers
    none once the socket is destroyed. *)
Definition listening (k : Socket) : bool := onData k && negb (destroyed k).

(** Sockets are told apart by a number. *)
Abbreviation SockId := nat (only parsing).

(** The module-level state of [server.js], and the sockets. *)
Record World := mkWorld {
  clients : gmap nat Client.t;
  nextId : N;
  history : list Message;
  sockets : gmap nat Socket
}.

Definition set_clients (c : gmap nat Client.t) (w : World) : World :=
  mkWorld c (nextId w) (history w) (sockets w).
Definition set_history (h : list Message) (w : World) : World :=
  mkWorld (clients w) (nextId w) h (sockets w).
Definition set_sockets (k : gmap nat Socket) (w : World) : World :=
  mkWorld (clients w) (nextId w) (history w) k.

Definition initial : World := mkWorld ∅ 1 [] ∅.

(** The socket object [s]; one never touched is fresh. *)
Definition sock (w : World) (s : SockId) : Socket :=
  default freshSocket (sockets w !! s).

Definition onSocket (f : Socket -> Socket) (s : SockId) (w : World) : World :=
  set_sockets (<[s := f (sock w s)]> (sockets w)) w.

(** A mutation of the [client] object of socket [s]. *)
Definition onClient (f : Client.t -> Client.t) (s : SockId) (w : World) : World :=
  set_clients (alter f s (clients w)) w.

(* ====================================================================== *)
(** * History and broadcast *)
(* ====================================================================== *)

(** [addToHistory(msg)]: [push], then [shift] when over [MAX_HISTORY]. *)
Definition addToHistory (msg : Message) (h : list Message) : list Message :=
  let h' := h ++ [msg] in
  if (MAX_HISTORY <? length h')%nat then tl h' else h'.

(** [send(socket, obj)] *)
Definition send (s : SockId) (obj : Message) (w : World) : World :=
  if destroyed (sock w s) then w else onSocket (write (WJson obj)) s w.

(** [broadcast(obj, excludeSocket)]: the loop over the keys of [clients]. *)
Definition broadcast (obj : Message) (excludeSocket : option SockId) (w : World)
  : World :=
  foldl (fun w s =>
           if bool_decide (Some s = excludeSocket) || destroyed (sock w s)
           then w else onSocket (write (WJson obj)) s w)
        w (map_to_list (clients w)).*1.

(* ====================================================================== *)
(** * Nicknames *)
(* ====================================================================== *)

(** [sanitizeNick(raw)] for a string [raw] (for which [raw || ''] is
    [raw]). *)
Definition sanitizeNick (raw : jsstring) : jsstring :=
  let trimmed :=
    slice0 MAX_NICK_LEN (List.filter (fun c => negb (outOfPolicy c)) (trim raw)) in
  if falsy trimmed then js "Anonymous" else trimmed.

(** [taken.has(x)], the set [taken] given as a list. *)
Definition has (taken : list jsstring) (x : jsstring) : bool :=
  bool_decide (x ∈ taken).

(** The loop [while (taken.has(`${desired}${n}`)) n++], run for at most
    [fuel] tests; it yields the final [n]. *)
Fixpoint uniqueNick_loop (fuel : nat) (taken : list jsstring)
         (desired : jsstring) (n : N) : N :=
  match fuel with
  | O => n
  | S fuel' =>
    if has taken (desired ++ numToString n)
    then uniqueNick_loop fuel' taken desired (n + 1)
    else n
  end.

(** [uniqueNick(desired)], given the nicknames of [clients.values()]. The
    loop leaves before [S (length taken)] tests (see [uniqueNick_loop_free]
    and [uniqueNick_loop_fuel]). *)
Definition uniqueNick (taken : list jsstring) (desired : jsstring) : jsstring :=
  if has taken desired then
    desired ++ numToString (uniqueNick_loop (S (length taken)) taken desired 2)
  else desired.

(** [[...clients.values()].map(c => c.nick)] *)
Definition takenNicks (w : World) : list jsstring :=
  Client.nick <$> (map_to_list (clients w)).*2.

(* ====================================================================== *)
(** * Connection lifecycle *)
(* ====================================================================== *)

(** The part of the upgrade request the server reads. [nickParam] is
    [url.parse(req.url, true).query.nick] when it is a string (a repeated
    parameter, which Node parses to an array, is not modelled). *)
Record Request := mkRequest {
  secWebSocketKey : option jsstring;
  origin : option jsstring;
  nickParam : option jsstring
}.

Definition CRLF : jsstring := [13; 10].

Definition response101 (accept : jsstring) : jsstring :=
  js "HTTP/1.1 101 Switching Protocols" ++ CRLF
  ++ js "Upgrade: websocket" ++ CRLF
  ++ js "Connection: Upgrade" ++ CRLF
  ++ js "Sec-WebSocket-Accept: " ++ accept ++ CRLF
  ++ CRLF.

Definition response503 : jsstring :=
  js "HTTP/1.1 503 Service Unavailable" ++ CRLF
  ++ js "Content-Length: 0" ++ CRLF ++ CRLF.

(** [doHandshake(socket, req)]: the returned flag and the socket after. *)
Definition doHandshake (k : Socket) (req : Request) : bool * Socket :=
  match secWebSocketKey req with
  | None => (false, destroy k)
  | Some key =>
    if falsy key then (false, destroy k)
    else (true, write (WHttp (response101 (computeAccept key))) k)
  end.

(** The nickname a request asks for: [parsed.query.nick || 'Anonymous']. *)
Definition rawNickOf (req : Request) : jsstring :=
  match nickParam req with
  | Some n => if falsy n then js "Anonymous" else n
  | None => js "Anonymous"
  end.

(** The second half of [handleUpgrade], from [const id = nextId++] on:
    the connection is stored, greeted and announced, and the listeners
    are attached. *)
Definition enroll (s : SockId) (nick : jsstring) (now : Z) (w : World) : World :=
  let id := nextId w in
  let client := Client.mk id nick true [] 0 now in
  let w := mkWorld (<[s := client]> (clients w)) (id + 1) (history w) (sockets w) in
  let w := match history w with
           | [] => w
           | _ => send s (HistoryMsg (history w)) w
           end in
  let w := send s (Identity nick) w in
  let joinMsg := System (nick ++ js " joined") now (Some (size (clients w))) in
  let w := set_history (addToHistory joinMsg (history w)) w in
  let w := broadcast joinMsg None w in
  onSocket attach s w.

(** [handleUpgrade(req, socket)], with [now] the value of [Date.now()]. *)
Definition handleUpgrade (s : SockId) (req : Request) (now : Z) (w : World)
  : World :=
  if (MAX_CLIENTS <=? size (clients w))%nat then
    onSocket (fun k => destroy (write (WHttp response503) k)) s w
  else
    let (ok, k) := doHandshake (sock w s) req in
    let w := onSocket (fun _ => k) s w in
    if negb ok then w else
    let nick := uniqueNick (takenNicks w) (sanitizeNick (rawNickOf req)) in
    enroll s nick now w.

(** [onClose], the listener of ['close'] (and the tail of the ['error']
    listener) of socket [s]. *)
Definition onClose (s : SockId) (now : Z) (w : World) : World :=
  match clients w !! s with
  | None => w
  | Some c =>
    let w := set_clients (delete s (clients w)) w in
    let leaveMsg :=
      System (Client.nick c ++ js " left") now (Some (size (clients w))) in
    let w := set_history (addToHistory leaveMsg (history w)) w in
    broadcast leaveMsg None w
  end.

(** One turn of the keepalive loop, for the entry [(s, c)] of [clients]. *)
Definition keepaliveEntry (w : World) (e : SockId * Client.t) : World :=
  let (s, c) := e in
  if destroyed (sock w s) then set_clients (delete s (clients w)) w
  else if negb (Client.alive c) then
    set_clients (delete s (clients w)) (onSocket destroy s w)
  else
    onSocket (write (WRaw buildPing)) s (onClient (Client.set_alive false) s w).

(** The callback of [setInterval(..., PING_INTERVAL_MS)]. *)
Definition keepalive (w : World) : World :=
  foldl keepaliveEntry w (map_to_list (clients w)).

(** How the body of the frame loop leaves: [continue] (or falling out of
    the body), [return], or an exception nobody catches. *)
Inductive Outcome :=
| Continue (w : World)
| Return (w : World)
| Throw.

(** [v === s] for a property value [v] and a string literal [s]. *)
Definition isStr (v : option json) (s : jsstring) : bool :=
  match v with
  | Some (JStr t) => bool_decide (t = s)
  | _ => false
  end.

(** The rate limiter: the window and count after the test of the window,
    then [rateCount++]. *)
Definition rateStep (now : Z) (c : Client.t) : Client.t :=
  let c := if (RATE_LIMIT_WIN <? now - Client.rateStart c)%Z
           then Client.set_rate 0 now c else c in
  Client.set_rate (S (Client.rateCount c)) (Client.rateStart c) c.

(** The text branch of the data handler once [JSON.parse] has returned
    [parsed]. Reading a property of [null] raises a TypeError. After the
    chat branch has broadcast, the test [parsed.type === 'ping'] that
    follows is false, so the two tests are written as alternatives. The
    [client] of the handler is the entry of [clients] (see [run_covers]). *)
Definition onParsed (s : SockId) (parsed : json) (now : Z) (w : World)
  : Outcome :=
  match parsed, clients w !! s with
  | JNull, _ => Throw
  | _, None => Continue w
  | _, Some client =>
    match isStr (getProp parsed (js "type")) (js "message"),
          getProp parsed (js "text") with
    | true, Some (JStr text) =>
      let client := rateStep now client in
      let w := set_clients (<[s := client]> (clients w)) w in
      if (RATE_LIMIT_MSG <? Client.rateCount client)%nat then
        let warning :=
          System (js "Rate limit exceeded. Disconnecting.") now None in
        Return (onSocket destroy s (send s warning w))
      else
        let text := slice0 MAX_MSG_LEN (trim text) in
        if falsy text then Continue w
        else
          let msg := Chat (Client.nick client) text now in
          Continue (broadcast msg None
                      (set_history (addToHistory msg (history w)) w))
    | _, _ =>
      if isStr (getProp parsed (js "type")) (js "ping")
      then Continue (onClient (Client.set_alive true) s w)
      else Continue w
    end
  end.

Section DataHandler.

(** [JSON.parse(payload.toString('utf8'))] of the platform; [None] when
    it raises (the handler catches that). *)
Variable JSON_parse : Buffer -> option json.

(** The loop [while (client.buf.length >= 2)] of the data handler, for
    at most [fuel] turns. *)
Fixpoint frames (fuel : nat) (s : SockId) (now : Z) (w : World) : Outcome :=
  match fuel, clients w !! s with
  | O, _ | _, None => Continue w
  | S fuel', Some client =>
    if (length (Client.buf client) <? 2)%nat then Continue w else
    match parseFrame (Client.buf client) with
    | None => Continue w
    | Some frame =>
      let rest := sliceFrom (Client.buf client) (totalLength frame) in
      let w := onClient (Client.set_buf rest) s w in
      if opcode frame =? 0x8 then
        Return (onSocket (fun k => destroy (write (WRaw buildClose) k)) s w)
      else if opcode frame =? 0x9 then
        frames fuel' s now (onSocket (write (WRaw buildPong)) s w)
      else if opcode frame =? 0xA then
        frames fuel' s now (onClient (Client.set_alive true) s w)
      else if (opcode frame =? 0x1) || (opcode frame =? 0x0) then
        match JSON_parse (payload frame) with
        | None => frames fuel' s now w
        | Some parsed =>
          match onParsed s parsed now w with
          | Continue w => frames fuel' s now w
          | out => out
          end
        end
      else frames fuel' s now w
    end
  end.

(** The ['data'] listener of socket [s]; its [client] is the entry of
    [clients] as long as the socket can emit ['data'] (see [run_covers]).
    Every turn of the loop but the last removes a frame of two bytes or
    more from the buffer, so the fuel given is never used up (see
    [frames_fuel]). *)
Definition onDataChunk (s : SockId) (chunk : Buffer) (now : Z) (w : World)
  : Outcome :=
  match clients w !! s with
  | None => Continue w
  | Some client =>
    let b := Client.buf client ++ chunk in
    frames (S (length b)) s now (onClient (Client.set_buf b) s w)
  end.

(** What the event loop delivers to the server. *)
Inductive Event :=
| Upgrade (s : SockId) (req : Request)  (** an upgrade on the chat path *)
| Data (s : SockId) (chunk : Buffer)
| SockError (s : SockId)
| Close (s : SockId)
| Tick.                                 (** the keepalive timer *)

Definition detachClose (k : Socket) : Socket :=
  mkSocket (destroyed k) (written k) (onData k) false (onceError k).
Definition detachError (k : Socket) : Socket :=
  mkSocket (destroyed k) (written k) (onData k) (onceClose k) false.

(** One event, handled at time [now], the value every [Date.now()] of
    the handler returns; [None] when the handler raises, which ends the
    process. A socket that emits ['error'] or ['close'] is destroyed by
    then. *)
Definition step (now : Z) (e : Event) (w : World) : option World :=
  match e with
  | Upgrade s req => Some (handleUpgrade s req now w)
  | Data s chunk =>
    if listening (sock w s) then
      match onDataChunk s chunk now w with
      | Continue w | Return w => Some w
      | Throw => None
      end
    else Some w
  | SockError s =>
    let w := onSocket destroy s w in
    if onceError (sock w s)
    then Some (onClose s now (onSocket detachError s w))
    else Some w
  | Close s =>
    let w := onSocket destroy s w in
    if onceClose (sock w s)
    then Some (onClose s now (onSocket detachClose s w))
    else Some w
  | Tick => Some (keepalive w)
  end.

(** A run of timed events. *)
Fixpoint run (es : list (Z * Event)) (w : World) : option World :=
  match es with
  | [] => Some w
  | (now, e) :: es' =>
    match step now e w with
    | Some w => run es' w
    | None => None
    end
  end.

End DataHandler.

(* ====================================================================== *)
(** * HTTP and upgrade routing *)
(* ====================================================================== *)

(** The code unit of [/]. *)
Definition slash : N := 0x2F.

Fixpoint dropSlashes (s : jsstring) : jsstring :=
  match s with
  | c :: r => if c =? slash then dropSlashes r else s
  | [] => []
  end.

(** [s.replace(/\/+$/, '')]: the first match of the pattern starts where
    the run of slashes that ends the string starts. *)
Definition stripTrailingSlashes (s : jsstring) : jsstring :=
  rev (dropSlashes (rev s)).

(** What the HTTP handler hands to [res]: the status, the headers set by
    [setHeader] and [writeHead], and the body. *)
Record Response := mkResponse {
  status : nat;
  headers : list (jsstring * jsstring);
  body : jsstring
}.

(** The two [res.setHeader] calls that precede every answer. *)
Definition securityHeaders : list (jsstring * jsstring) :=
  [(js "X-Content-Type-Options", js "nosniff");
   (js "X-Frame-Options", js "SAMEORIGIN")].

(** The request listener of [http.createServer], for a request whose
    [url.parse(req.url).pathname] is the string [pathname]; [file] is
    what [fs.readFileSync(HTML_PATH, 'utf8')] returns, [None] when it
    raises. *)
Definition httpHandler (pathname : jsstring) (file : option jsstring)
  : Response :=
  let pathname :=
    let p := stripTrailingSlashes pathname in
    if falsy p then js "/" else p in
  if bool_decide (pathname = js "/chat")
     || bool_decide (pathname = js "/chat/index.html")
     || bool_decide (pathname = js "")
  then
    match file with
    | Some html =>
      mkResponse 200 (securityHeaders
                        ++ [(js "Content-Type", js "text/html; charset=utf-8")])
                 html
    | None => mkResponse 500 securityHeaders
                         (js "Server error: index.html not found")
    end
  else mkResponse 404 securityHeaders (js "Not found").

(** The listener of ['upgrade'], for a request whose
    [url.parse(req.url).pathname] is the string [pathname]. The socket
    options it sets on the chat path have no part in the state. *)
Definition onUpgrade (pathname : jsstring) (s : SockId) (req : Request)
           (now : Z) (w : World) : World :=
  if bool_decide (stripTrailingSlashes pathname = js "/chat/ws")
  then handleUpgrade s req now w
  else onSocket destroy s w.

(* ====================================================================== *)
(** * Definitions used to state the properties *)
(* ====================================================================== *)

(** A sequence of calls [addToHistory(m)], oldest first. *)
Definition pushAll (msgs : list Message) (h : list Message) : list Message :=
  fold_left (fun h m => addToHistory m h) msgs h.

(** [n] numbered chat messages, the first with number [a]. *)
Definition numbered (a n : nat) : list Message :=
  List.map (fun i => Chat (js "Bob") (numToString (N.of_nat i)) (Z.of_nat i))
           (seq a n).

(** The mask bit of the second header byte. *)
Definition maskBit (buf : Buffer) : bool :=
  negb (N.land (at_ buf 1) 0x80 =? 0).

(** The number of bytes the frame at the head of [buf] requires, as far as
    the bytes present tell: the two header bytes; with the marker 126 the
    16-bit length after them, with 127 the eight length bytes (of which
    the low 32 bits count); the four bytes of the mask key when the mask
    bit is set; the payload. *)
Definition frameNeeds (buf : Buffer) : N :=
  if (length buf <? 2)%nat then 2 else
  let field := N.land (at_ buf 1) 0x7F in
  let key := if maskBit buf then 4 else 0 in
  if field =? 126 then
    if (length buf <? 4)%nat then 4 else 4 + key + readUInt16BE buf 2
  else if field =? 127 then
    if (length buf <? 10)%nat then 10 else 10 + key + readUInt32BE buf 6
  else 2 + key + field.

(** The length of the header before the mask key, and the payload length it
    announces. *)
Definition headerLen (buf : Buffer) : nat :=
  let field := N.land (at_ buf 1) 0x7F in
  if field =? 126 then 4 else if field =? 127 then 10 else 2.

Definition payloadLen (buf : Buffer) : N :=
  let field := N.land (at_ buf 1) 0x7F in
  if field =? 126 then readUInt16BE buf 2
  else if field =? 127 then readUInt32BE buf 6
  else field.

(** The payload of the frame at the head of [buf]: the bytes after the
    header, each XOR-ed with [key[i mod 4]] when the mask bit is set, [key]
    being the four bytes after the length. *)
Definition decoded (buf : Buffer) : Buffer :=
  let h := headerLen buf in
  let n := N.to_nat (payloadLen buf) in
  if maskBit buf then
    let key := slice buf h (h + 4) in
    imap (fun i b => byte_xor b (nth (i mod 4)%nat key x00))
         (slice buf (h + 4) (h + 4 + n))
  else slice buf h (h + n).

(** The buffer of the connection of socket [s]. *)
Definition bufOf (w : World) (s : SockId) : option Buffer :=
  Client.buf <$> clients w !! s.

(** A request for the nickname [n], with a handshake key. *)
Definition requestFor (n : string) : Request :=
  mkRequest (Some (js "dGhlIHNhbXBsZSBub25jZQ==")) None (Some (js n)).

(** A [JSON.parse] that rejects everything, for runs without text frames. *)
Definition noJson (_ : Buffer) : option json := None.

(** The world once "Bob" has connected on socket 1 at time 0. *)
Definition oneBob : World :=
  handleUpgrade 1%nat (requestFor "Bob") 0%Z initial.

(** The header of a server frame for a payload of [len] bytes, as the
    format prescribes it: first byte 0x81 (FIN set, opcode text), mask bit
    clear, and the narrowest length encoding: the length itself below 126,
    the marker 126 and a 16-bit length below 65536, else the marker 127
    and a 64-bit length whose high word is zero. *)
Definition minimalHeader (bytes : Buffer) (len : N) : Prop :=
  at_ bytes 0 = 0x81
  /\ maskBit bytes = false
  /\ if len <? 126 then
       N.land (at_ bytes 1) 0x7F = len
       /\ N.of_nat (length bytes) = 2 + len
     else if len <? 65536 then
       N.land (at_ bytes 1) 0x7F = 126
       /\ readUInt16BE bytes 2 = len
       /\ N.of_nat (length bytes) = 4 + len
     else
       N.land (at_ bytes 1) 0x7F = 127
       /\ readUInt32BE bytes 2 = 0
       /\ readUInt32BE bytes 6 = len
       /\ N.of_nat (length bytes) = 10 + len.

(** The nickname of the connection of socket [s]. *)
Definition nickOf (w : World) (s : SockId) : option jsstring :=
  Client.nick <$> clients w !! s.

(** Three upgrades that ask for "Bob", on sockets 1, 2 and 3. *)
Definition threeBobs : option World :=
  run noJson [(0%Z, Upgrade 1%nat (requestFor "Bob"));
              (0%Z, Upgrade 2%nat (requestFor "Bob"));
              (0%Z, Upgrade 3%nat (requestFor "Bob"))] initial.

(** A request with no [Sec-WebSocket-Key] header. *)
Definition keylessRequest : Request := mkRequest None None (Some (js "Bob")).

(** [n] upgrades at time 0 that all ask for "Bob", on sockets [1] to [n]. *)
Definition upgrades (n : nat) : list (Z * Event) :=
  List.map (fun i => (0%Z, Upgrade i (requestFor "Bob"))) (seq 1 n).

(** The world with [MAX_CLIENTS] connections. *)
Definition fullHouse : World :=
  default initial (run noJson (upgrades MAX_CLIENTS) initial).

(** A nickname of [MAX_NICK_LEN] characters. *)
Definition longNick : string := "aaaaaaaaaaaaaaaaaaaaaaaa".

(** Two upgrades that ask for [longNick], on sockets 1 and 2. *)
Definition twoLong : World :=
  handleUpgrade 2%nat (requestFor longNick) 1%Z
    (handleUpgrade 1%nat (requestFor longNick) 0%Z initial).

(** A well-formed chat message, [{ type: 'message', text }], as parsed. *)
Definition chatObj (text : jsstring) : json :=
  JObj [(js "type", JStr (js "message")); (js "text", JStr text)].

(** The text the server relays for a chat message:
    [parsed.text.trim().slice(0, MAX_MSG_LEN)]. *)
Definition chatText (text : jsstring) : jsstring :=
  slice0 MAX_MSG_LEN (trim text).

(** The warning sent before a rate-limit disconnection. *)
Definition rateWarning (now : Z) : Message :=
  System (js "Rate limit exceeded. Disconnecting.") now None.

(** The connection of socket [s] receives well-formed chat messages, each
    with its arrival time, until the handler returns. *)
Fixpoint chats (s : SockId) (msgs : list (Z * jsstring)) (w : World) : Outcome :=
  match msgs with
  | [] => Continue w
  | (now, text) :: rest =>
    match onParsed s (chatObj text) now w with
    | Continue w => chats s rest w
    | out => out
    end
  end.

(** The chat messages that a run of inbound messages of [nick] puts on
    the wire: those whose text is not empty once trimmed. *)
Definition relayed (nick : jsstring) (msgs : list (Z * jsstring)) : list Message :=
  flat_map (fun m => if falsy (chatText (snd m)) then []
                     else [Chat nick (chatText (snd m)) (fst m)]) msgs.

(** A socket after the messages [ms] have been written to it in turn. *)
Definition deliver (ms : list Message) (k : Socket) : Socket :=
  fold_left (fun k m => write (WJson m) k) ms k.

(** All the arrival times lie in the window that started at [start]. *)
Definition withinWindow (start : Z) (msgs : list (Z * jsstring)) : Prop :=
  Forall (fun m => (fst m - start <= RATE_LIMIT_WIN)%Z) msgs.

(** The [client] object of "Bob" in [oneBob]. *)
Definition bobClient : Client.t := Client.mk 1 (js "Bob") true [] 0 0.

(** Five chat messages, 10 ms apart. *)
Definition fiveHi : list (Z * jsstring) :=
  [(10%Z, js "hi"); (20%Z, js "hi"); (30%Z, js "hi"); (40%Z, js "hi");
   (50%Z, js "hi")].

(** Six chat messages of blanks, 10 ms apart. *)
Definition sixBlank : list (Z * jsstring) :=
  [(10%Z, js "  "); (20%Z, js ""); (30%Z, js " "); (40%Z, js "   ");
   (50%Z, js ""); (60%Z, js " ")].

(** What one turn of the keepalive loop does to the entry it visits: the
    entry of [clients] ([None] when deleted) and the socket after it. *)
Definition afterTick (k : Socket) (c : Client.t) : option Client.t * Socket :=
  if destroyed k then (None, k)
  else if Client.alive c
       then (Some (Client.set_alive false c), write (WRaw buildPing) k)
       else (None, destroy k).

(** A masked pong frame without payload, as a client sends it. *)
Definition clientPong : Buffer := [x8a; x80; x01; x02; x03; x04].

(** "Bob" and "Al" connect; the first tick pings both and only "Al"
    answers. *)
Definition bobSilent : World :=
  default initial
    (run noJson [(0%Z, Upgrade 1%nat (requestFor "Bob"));
                 (1%Z, Upgrade 2%nat (requestFor "Al"));
                 (30000%Z, Tick);
                 (30005%Z, Data 2%nat clientPong)] initial).

(** "Bob" and "Al" connect, then the socket of "Bob" closes. *)
Definition bobCloses : World :=
  default initial
    (run noJson [(0%Z, Upgrade 1%nat (requestFor "Bob"));
                 (1%Z, Upgrade 2%nat (requestFor "Al"));
                 (5000%Z, Close 1%nat)] initial).

(** The number of buffered bytes of the connection of socket [s]. *)
Definition bufLen (w : World) (s : SockId) : nat :=
  match clients w !! s with
  | Some c => length (Client.buf c)
  | None => 0
  end.

(** The history is within its capacity. *)
Definition bounded (w : World) : Prop :=
  (length (history w) <= MAX_HISTORY)%nat.

Definition outcomeBounded (o : Outcome) : Prop :=
  match o with
  | Continue w | Return w => bounded w
  | Throw => True
  end.

(** Every socket that can still emit ['data'] is registered: the [client]
    object its listeners hold is the entry of [clients]. *)
Definition registryCovers (w : World) : Prop :=
  forall s, listening (sock w s) = true -> is_Some (clients w !! s).

(** [w'] keeps the entries of [w] and opens no socket for data. *)
Definition extends (w w' : World) : Prop :=
  (forall s, is_Some (clients w !! s) -> is_Some (clients w' !! s))
  /\ (forall s, listening (sock w' s) = true -> listening (sock w s) = true).

Definition outcomeExtends (w : World) (o : Outcome) : Prop :=
  match o with
  | Continue w' | Return w' => extends w w'
  | Throw => True
  end.


(* ---------------------------------------------------------------------- *)
(** ** Further definitions: client frames, invariants of the registry
    and of the history *)

(** A final frame as a client sends it: opcode [op], the mask bit set, the
    four bytes of [key], and the payload XOR-ed with the key. *)
Definition maskedFrame (op : N) (key payload : Buffer) : Buffer :=
  let n := N.of_nat (length payload) in
  (if n <? 126 then [b8 (0x80 + op); b8 (0x80 + n)]
   else [b8 (0x80 + op); b8 0xFE] ++ writeUInt16BE n)
  ++ key ++ unmask key 0 payload.

(** An outcome whose world is related to [w] by [R]. *)
Definition outcomeRel (R : World -> World -> Prop) (w : World) (o : Outcome)
  : Prop :=
  match o with
  | Continue w' | Return w' => R w w'
  | Throw => True
  end.

(** The registry is within its cap, identifiers are below [nextId], and
    no two connections share a nickname or an identifier. *)
Definition registryOk (w : World) : Prop :=
  (size (clients w) <= MAX_CLIENTS)%nat
  /\ (forall s c, clients w !! s = Some c -> Client.id c < nextId w)
  /\ (forall s1 s2 c1 c2,
         s1 <> s2 -> clients w !! s1 = Some c1 -> clients w !! s2 = Some c2 ->
         Client.nick c1 <> Client.nick c2 /\ Client.id c1 <> Client.id c2).

(** [w'] registers no connection that [w] does not, under the same
    identifier and nickname, and hands out no identifier. *)
Definition shrinks (w w' : World) : Prop :=
  nextId w' = nextId w
  /\ forall s c', clients w' !! s = Some c' ->
       exists c, clients w !! s = Some c
                 /\ Client.id c' = Client.id c /\ Client.nick c' = Client.nick c.

(** What the history may hold: chat messages with a text of 1 to
    [MAX_MSG_LEN] characters, and system messages that carry a count. *)
Definition okEntry (m : Message) : Prop :=
  match m with
  | Chat _ text _ => (1 <= length text <= MAX_MSG_LEN)%nat
  | System _ _ (Some _) => True
  | _ => False
  end.

Definition historyOk (w : World) : Prop := Forall okEntry (history w).

Definition keepsHistoryOk (w w' : World) : Prop := historyOk w -> historyOk w'.

(* ---------------------------------------------------------------------- *)
(** ** Further definitions: routing, nicknames, frames the handler
    drops, sample texts *)

(** [p] is [q] followed by any number of slashes. *)
Definition slashed (q p : jsstring) : Prop :=
  exists n, p = q ++ repeat slash n.

(** The paths on which the page is served. *)
Definition pagePath (p : jsstring) : Prop :=
  slashed (js "/chat") p \/ slashed (js "/chat/index.html") p.

(** The code unit of the space. *)
Definition space : N := 0x20.

(** A name [sanitizeNick] has nothing to change in: 1 to [MAX_NICK_LEN]
    code units, all letters, digits, [_], [-], [.] or spaces, with no
    space first or last. *)
Definition cleanNick (raw : jsstring) : Prop :=
  (1 <= length raw <= MAX_NICK_LEN)%nat
  /\ Forall (fun c => outOfPolicy c = false) raw
  /\ hd space raw <> space /\ List.last raw space <> space.


(** The frames the data handler drops: an opcode it does not know, a
    text whose parsing raises, and a parsed value other than [null] that
    is neither a chat message with a string text nor a ping. *)
Definition dropped (JSON_parse : Buffer -> option json) (f : Frame) : Prop :=
  (opcode f <> 8 /\ opcode f <> 9 /\ opcode f <> 10
   /\ opcode f <> 1 /\ opcode f <> 0)
  \/ ((opcode f = 1 \/ opcode f = 0)
      /\ (JSON_parse (payload f) = None
          \/ exists parsed,
               JSON_parse (payload f) = Some parsed
               /\ parsed <> JNull
               /\ isStr (getProp parsed (js "type")) (js "ping") = false
               /\ (isStr (getProp parsed (js "type")) (js "message") = false
                   \/ forall t, getProp parsed (js "text") <> Some (JStr t)))).

(** A [JSON.parse] that knows one text only, and its value. *)
Definition jsonOf (text : jsstring) (v : json) (b : Buffer) : option json :=
  if bool_decide (Byte.to_N <$> b = Byte.to_N <$> utf8 text)
  then Some v else None.

(** The string literal ["s"] in a JSON text. *)
Definition quoted (s : string) : jsstring := [34] ++ js s ++ [34].

(** The JSON text of [{ type: 'ping' }], and its value. *)
Definition pingText : jsstring :=
  js "{" ++ quoted "type" ++ js ":" ++ quoted "ping" ++ js "}".
Definition pingValue : json := JObj [(js "type", JStr (js "ping"))].

(** The JSON text of [{ type: 'message', text: 'hi' }]. *)
Definition hiText : jsstring :=
  js "{" ++ quoted "type" ++ js ":" ++ quoted "message" ++ js ","
  ++ quoted "text" ++ js ":" ++ quoted "hi" ++ js "}".

(** "Bob" and "Al" are connected. *)
Definition bobAndAl : World :=
  handleUpgrade 2%nat (requestFor "Al") 1%Z oneBob.

(* ====================================================================== *)
(** * Properties *)
(* ====================================================================== *)

Example parse_small :
  parseFrame [x81; x82; x01; x02; x03; x04; x49; x6b] =
  Some (mkFrame 1 [x48; x69] 8).
Proof. vm_compute. reflexivity. Qed.

Example sha1_abc :
  Base64.encode (Sha1.sha1 (utf8 (js "abc"))) = js "qZk+NkcGgWq6PiVxeFDCbJzQ2J0=".
Proof. vm_compute. reflexivity. Qed.

Example sha1_empty :
  Base64.encode (Sha1.sha1 []) = js "2jmj7l5rSw0yVb/vlWAYkK/YBwk=".
Proof. vm_compute. reflexivity. Qed.

Example sha1_two_blocks :
  Base64.encode
    (Sha1.sha1 (utf8 (js "abcdbcdecdefdefgefghfghighijhijkijkljklmklmnlmnomnopnopq")))
  = js "hJg+RBw70m66rkqh+VEp5eVGcPE=".
Proof. vm_compute. reflexivity. Qed.

Example sha1_119 :
  Base64.encode (Sha1.sha1 (repeat x61 119)) = js "7pcQZaqgF+BjKoymx3uzv4sd/FY=".
Proof. vm_compute. reflexivity. Qed.

Example sha1_120 :
  Base64.encode (Sha1.sha1 (repeat x61 120)) = js "80wUiDhTRqVXCboFbd0IKA3UxtY=".
Proof. vm_compute. reflexivity. Qed.

Example base64_rfc4648 :
  List.map (fun t => Base64.encode (utf8 (js t)))
           ["f"; "fo"; "foo"; "foob"; "fooba"; "foobar"]%string
  = List.map js ["Zg=="; "Zm8="; "Zm9v"; "Zm9vYg=="; "Zm9vYmE="; "Zm9vYmFy"]%string.
Proof. vm_compute. reflexivity. Qed.

(* ---------------------------------------------------------------------- *)
(** ** The handshake *)

(** C7. The accept token is a function of the key alone: the base64 form
    of the SHA-1 digest of the key followed by the fixed GUID; the key of
    the RFC 6455 example yields the token of that example. *)
Theorem computeAccept_token :
  (forall key : jsstring,
      computeAccept key
      = Base64.encode
          (Sha1.sha1 (utf8 (key ++ js "258EAFA5-E914-47DA-95CA-C5AB0DC85B11"))))
  /\ computeAccept (js "dGhlIHNhbXBsZSBub25jZQ==")
     = js "s3pPLMBiTxaQ9kYGzzhZRbK+xOo=".
Proof.
  split; [intros key; reflexivity | vm_compute; reflexivity].
Qed.

(* ---------------------------------------------------------------------- *)
(** ** The history buffer *)

Lemma pushAll_snoc msgs m h :
  pushAll (msgs ++ [m]) h = addToHistory m (pushAll msgs h).
Proof. unfold pushAll. now rewrite fold_left_app. Qed.

Lemma addToHistory_length m h :
  (length h <= MAX_HISTORY)%nat ->
  (length (addToHistory m h) <= MAX_HISTORY)%nat.
Proof.
  unfold addToHistory. intros Hh.
  destruct (Nat.ltb_spec MAX_HISTORY (length (h ++ [m]))) as [Hlt | Hge];
    [| exact Hge].
  rewrite length_app in Hlt. simpl in Hlt.
  destruct h as [| x h]; simpl in *.
  - unfold MAX_HISTORY in *. lia.
  - rewrite length_app. simpl. lia.
Qed.

Lemma pushAll_last msgs :
  (length (pushAll msgs []) <= MAX_HISTORY)%nat
  /\ pushAll msgs [] = skipn (length msgs - MAX_HISTORY) msgs.
Proof.
  induction msgs as [| m msgs [IHlen IHeq]] using rev_ind.
  - split; [simpl; lia | reflexivity].
  - rewrite pushAll_snoc. split; [now apply addToHistory_length |].
    assert (Hl : length (pushAll msgs []) = (length msgs - (length msgs - MAX_HISTORY))%nat)
      by (rewrite IHeq at 1; apply length_skipn).
    unfold addToHistory.
    rewrite !length_app. simpl length.
    destruct (Nat.ltb_spec MAX_HISTORY (length (pushAll msgs []) + 1)) as [Hlt | Hge].
    + assert (Hfull : (MAX_HISTORY <= length msgs)%nat) by lia.
      rewrite IHeq.
      replace (length msgs + 1 - MAX_HISTORY)%nat
        with ((length msgs - MAX_HISTORY) + 1)%nat by lia.
      rewrite <- (drop_drop (msgs ++ [m])).
      rewrite (drop_app_le msgs [m]) by lia.
      destruct (drop (length msgs - MAX_HISTORY) msgs) eqn:E; [| reflexivity].
      apply (f_equal length) in E. rewrite length_drop in E. simpl in E.
      unfold MAX_HISTORY in *. lia.
    + replace (length msgs + 1 - MAX_HISTORY)%nat with 0%nat by lia.
      replace (length msgs - MAX_HISTORY)%nat with 0%nat in IHeq by lia.
      simpl in *. now rewrite IHeq.
Qed.


(* ---------------------------------------------------------------------- *)
(** ** The frame codec *)

Lemma to_N_b8 n : Byte.to_N (b8 n) = n mod 256.
Proof.
  unfold b8. destruct (Byte.of_N (n mod 256)) eqn:E.
  - now apply Byte.to_of_N.
  - apply Byte.of_N_None_iff in E.
    pose proof (N.mod_lt n 256). lia.
Qed.

Lemma unmask_length mask i data : length (unmask mask i data) = length data.
Proof.
  revert i. induction data as [| b r IH]; intros i; simpl; [| rewrite IH]; reflexivity.
Qed.

(** What a parsed frame holds, in terms of the bytes of the buffer. *)
Lemma parseFrame_Some buf f :
  parseFrame buf = Some f ->
  (totalLength f <= length buf)%nat
  /\ N.of_nat (totalLength f) = frameNeeds buf
  /\ opcode f = N.land (at_ buf 0) 0x0F
  /\ (length (payload f) + (if maskBit buf then 4 else 0) <= totalLength f)%nat.
Proof.
  unfold parseFrame, frameNeeds, maskBit.
  destruct (length buf <? 2)%nat; [discriminate |].
  set (field := N.land (at_ buf 1) 127).
  destruct (negb (N.land (at_ buf 1) 128 =? 0)) eqn:Em;
    destruct (field =? 126);
    [destruct (length buf <? 4)%nat; [discriminate |] | destruct (field =? 127);
       [destruct (length buf <? 10)%nat; [discriminate |] |]
    | destruct (length buf <? 4)%nat; [discriminate |] | destruct (field =? 127);
       [destruct (length buf <? 10)%nat; [discriminate |] |] ];
    match goal with
    | |- context [N.ltb ?a ?b] => destruct (N.ltb_spec a b) as [Hlt | Hge]
    end; try discriminate; intros [= <-]; simpl;
    (split; [lia |]); (split; [lia |]); (split; [reflexivity |]);
    rewrite ?unmask_length; unfold slice; rewrite length_firstn, length_skipn; lia.
Qed.

Lemma unmask_imap mask data : forall i,
  unmask mask i data
  = imap (fun j b => byte_xor b (nth ((i + j) mod 4)%nat mask x00)) data.
Proof.
  induction data as [| b r IH]; intros i; cbn [unmask imap]; [reflexivity |].
  rewrite Nat.add_0_r. f_equal. rewrite IH. apply imap_ext.
  intros j x _. cbn. now rewrite Nat.add_succ_r.
Qed.

Lemma parseFrame_payload buf f :
  parseFrame buf = Some f -> payload f = decoded buf.
Proof.
  unfold parseFrame, decoded, headerLen, payloadLen, maskBit.
  destruct (length buf <? 2)%nat; [discriminate |].
  set (field := N.land (at_ buf 1) 127).
  destruct (negb (N.land (at_ buf 1) 128 =? 0));
    destruct (field =? 126);
    [destruct (length buf <? 4)%nat; [discriminate |] | destruct (field =? 127);
       [destruct (length buf <? 10)%nat; [discriminate |] |]
    | destruct (length buf <? 4)%nat; [discriminate |] | destruct (field =? 127);
       [destruct (length buf <? 10)%nat; [discriminate |] |] ];
    match goal with
    | |- context [N.ltb ?a ?b] => destruct (N.ltb a b)
    end; try discriminate; intros [= <-]; cbn [payload];
    rewrite ?unmask_imap; reflexivity.
Qed.

Lemma parseFrame_None buf :
  parseFrame buf = None <-> N.of_nat (length buf) < frameNeeds buf.
Proof.
  unfold parseFrame, frameNeeds, maskBit.
  destruct (Nat.ltb_spec (length buf) 2); [split; [lia | reflexivity] |].
  set (field := N.land (at_ buf 1) 127).
  destruct (negb (N.land (at_ buf 1) 128 =? 0)) eqn:Em;
    destruct (field =? 126);
    [destruct (Nat.ltb_spec (length buf) 4); [split; [lia | reflexivity] |]
    | destruct (field =? 127);
       [destruct (Nat.ltb_spec (length buf) 10); [split; [lia | reflexivity] |] |]
    | destruct (Nat.ltb_spec (length buf) 4); [split; [lia | reflexivity] |]
    | destruct (field =? 127);
       [destruct (Nat.ltb_spec (length buf) 10); [split; [lia | reflexivity] |] |] ];
    match goal with
    | |- context [N.ltb ?a ?b] => destruct (N.ltb_spec a b) as [Hlt | Hge]
    end; (split; [intros; try discriminate; lia | intros; try reflexivity; lia]).
Qed.

Lemma onDataChunk_incomplete JSON_parse s now w client chunk :
  clients w !! s = Some client ->
  parseFrame (Client.buf client ++ chunk) = None ->
  let buf := Client.buf client ++ chunk in
  onDataChunk JSON_parse s chunk now w = Continue (onClient (Client.set_buf buf) s w)
  /\ bufOf (onClient (Client.set_buf buf) s w) s = Some buf.
Proof.
  intros Hc Hp buf. unfold onDataChunk, bufOf. rewrite Hc.
  assert (Hl : clients (onClient (Client.set_buf buf) s w) !! s
               = Some (Client.set_buf buf client)).
  { unfold onClient. simpl. now rewrite lookup_alter_eq, Hc. }
  split; [| now rewrite Hl].
  fold buf. cbn [frames]. rewrite Hl. cbn [Client.buf Client.set_buf].
  fold buf in Hp. rewrite Hp. now destruct (length buf <? 2)%nat.
Qed.

(** C9. [parseFrame] is a total function that yields a frame or [None]
    (incomplete), never an error. It yields [None] exactly when the buffer
    is shorter than what the frame at its head requires; a frame it yields
    has a consumed length within the buffer and equal to that requirement.
    Its payload is the bytes after the header, unmasked with the key when
    the mask bit is set. When the buffer of a connection with the new
    chunk appended is incomplete, the data handler stops and keeps that
    whole buffer. *)
Theorem parse_total_incomplete :
  forall buf : Buffer,
    (parseFrame buf = None <-> N.of_nat (length buf) < frameNeeds buf)
    /\ (forall f, parseFrame buf = Some f ->
          (totalLength f <= length buf)%nat
          /\ N.of_nat (totalLength f) = frameNeeds buf
          /\ opcode f = N.land (at_ buf 0) 0x0F
          /\ payload f = decoded buf
          /\ (length (payload f) + (if maskBit buf then 4 else 0)
              <= totalLength f)%nat)
    /\ (forall JSON_parse s now w client chunk,
          clients w !! s = Some client ->
          Client.buf client ++ chunk = buf ->
          parseFrame buf = None ->
          onDataChunk JSON_parse s chunk now w
          = Continue (onClient (Client.set_buf buf) s w)
          /\ bufOf (onClient (Client.set_buf buf) s w) s = Some buf).
Proof.
  intros buf. split; [apply parseFrame_None |]. split.
  - intros f Hf. destruct (parseFrame_Some buf f Hf) as (H1 & H2 & H3 & H4).
    pose proof (parseFrame_payload buf f Hf). tauto.
  - intros JSON_parse s now w client chunk Hc <- Hp.
    now apply onDataChunk_incomplete.
Qed.

Lemma parse_total_incomplete_witness :
  parseFrame [x81] = None
  /\ onDataChunk noJson 1%nat [x81] 5%Z oneBob
     = Continue (onClient (Client.set_buf [x81]) 1%nat oneBob)
  /\ bufOf (onClient (Client.set_buf [x81]) 1%nat oneBob) 1%nat = Some [x81].
Proof.
  destruct (parse_total_incomplete [x81]) as (Hnone & _ & Hkeep).
  split.
  - apply Hnone. vm_compute. reflexivity.
  - apply (Hkeep noJson 1%nat 5%Z oneBob
                 (Client.mk 1 (js "Bob") true [] 0%nat 0%Z) [x81]).
    + vm_compute. reflexivity.
    + reflexivity.
    + vm_compute. reflexivity.
Defined.

Lemma land_small x : x < 128 -> N.land x 0x80 = 0 /\ N.land x 0x7F = x.
Proof.
  intros H.
  assert (E : N.land x 0x7F = x).
  { change 0x7F with (N.ones 7). rewrite N.land_ones. now apply N.mod_small. }
  split; [| exact E].
  rewrite <- E, <- N.land_assoc. change (N.land 127 128) with 0.
  apply N.land_0_r.
Qed.

Lemma slice_payload (hdr payload : Buffer) k :
  k = length hdr ->
  slice (hdr ++ payload) k (k + length payload) = payload.
Proof.
  intros ->. unfold slice.
  rewrite skipn_app, skipn_all, Nat.sub_diag. simpl.
  replace (length hdr + length payload - length hdr)%nat
    with (length payload) by lia.
  apply firstn_all.
Qed.

Lemma bytes32 n :
  n < 4294967296 ->
  (n / 16777216) mod 256 * 16777216 + (n / 65536) mod 256 * 65536
  + (n / 256) mod 256 * 256 + n mod 256 = n.
Proof. intros H. zify. Z.to_euclidean_division_equations. lia. Qed.

Lemma read16 (hdr : Buffer) n payload :
  n < 65536 -> length hdr = 2%nat ->
  readUInt16BE (hdr ++ writeUInt16BE n ++ payload) 2 = n.
Proof.
  intros Hn Hh. destruct hdr as [| a [| b [| c r]]]; try discriminate.
  unfold readUInt16BE, at_, writeUInt16BE. cbn [nth app Nat.add].
  rewrite !to_N_b8, N.shiftr_div_pow2. change (2 ^ 8) with 256.
  rewrite (N.mod_small (n / 256)).
  - pose proof (N.div_mod n 256). lia.
  - apply N.Div0.div_lt_upper_bound. lia.
Qed.

Lemma read32 (pre : Buffer) n payload :
  n < 4294967296 ->
  readUInt32BE (pre ++ [b8 (N.shiftr n 24); b8 (N.shiftr n 16);
                        b8 (N.shiftr n 8); b8 n] ++ payload) (length pre) = n.
Proof.
  intros Hn.
  assert (A : forall (l : Buffer) i, at_ (pre ++ l) (length pre + i) = at_ l i)
    by (intros; unfold at_; f_equal; apply app_nth2_plus).
  pose proof (A ([b8 (N.shiftr n 24); b8 (N.shiftr n 16); b8 (N.shiftr n 8); b8 n]
                   ++ payload) 0%nat) as A0.
  rewrite Nat.add_0_r in A0.
  unfold readUInt32BE. rewrite A0, !A. unfold at_.
  cbn [nth app]. rewrite !to_N_b8, !N.shiftr_div_pow2.
  now apply bytes32.
Qed.

Lemma parse_short h0 payload n :
  n = N.of_nat (length payload) ->
  n < 126 ->
  parseFrame ([h0; b8 n] ++ payload)
  = Some (mkFrame (N.land (Byte.to_N h0) 0x0F) payload (2 + length payload)).
Proof.
  intros En Hn. unfold parseFrame.
  destruct (Nat.ltb_spec (length ([h0; b8 n] ++ payload)) 2) as [H | _];
    [simpl in H; lia |].
  unfold at_. cbn [nth app]. rewrite to_N_b8, (N.mod_small n 256) by lia.
  destruct (land_small n) as [-> ->]; [lia |].
  change (negb (0 =? 0)) with false. cbv iota.
  destruct (N.eqb_spec n 126); [lia |]. destruct (N.eqb_spec n 127); [lia |].
  destruct (N.ltb_spec (N.of_nat (length (h0 :: b8 n :: payload)))
                       (N.of_nat 2 + n)) as [H | _];
    [simpl length in H; lia |].
  replace (N.to_nat n) with (length payload) by lia.
  change (h0 :: b8 n :: payload) with ([h0; b8 n] ++ payload).
  now rewrite slice_payload.
Qed.

Lemma parse_16 h0 payload n :
  n = N.of_nat (length payload) ->
  126 <= n < 65536 ->
  parseFrame ([h0; b8 126] ++ writeUInt16BE n ++ payload)
  = Some (mkFrame (N.land (Byte.to_N h0) 0x0F) payload (4 + length payload)).
Proof.
  intros En Hn. unfold parseFrame.
  rewrite read16 by (reflexivity || lia).
  destruct (Nat.ltb_spec (length ([h0; b8 126] ++ writeUInt16BE n ++ payload)) 2)
    as [H | _]; [simpl in H; lia |].
  destruct (Nat.ltb_spec (length ([h0; b8 126] ++ writeUInt16BE n ++ payload)) 4)
    as [H | _]; [simpl in H; lia |].
  unfold at_. cbn [nth app].
  change (Byte.to_N (b8 126)) with 126.
  change (negb (N.land 126 128 =? 0)) with false.
  change (N.land 126 127 =? 126) with true. cbv iota.
  destruct (N.ltb_spec
              (N.of_nat (length (h0 :: b8 126 :: writeUInt16BE n ++ payload)))
              (N.of_nat 4 + n)) as [H | _];
    [simpl length in H; lia |].
  replace (N.to_nat n) with (length payload) by lia.
  change (h0 :: b8 126 :: writeUInt16BE n ++ payload)
    with (([h0; b8 126] ++ writeUInt16BE n) ++ payload).
  now rewrite slice_payload.
Qed.

Lemma parse_32 h0 payload n :
  n = N.of_nat (length payload) ->
  n < 4294967296 ->
  let lo := [b8 (N.shiftr n 24); b8 (N.shiftr n 16); b8 (N.shiftr n 8); b8 n] in
  parseFrame ([h0; b8 127] ++ [x00; x00; x00; x00] ++ lo ++ payload)
  = Some (mkFrame (N.land (Byte.to_N h0) 0x0F) payload (10 + length payload)).
Proof.
  intros En Hn lo. unfold parseFrame.
  change ([h0; b8 127] ++ [x00; x00; x00; x00] ++ lo ++ payload)
    with ([h0; b8 127; x00; x00; x00; x00] ++ lo ++ payload).
  pose proof (read32 [h0; b8 127; x00; x00; x00; x00] n payload Hn) as R.
  change (length [h0; b8 127; x00; x00; x00; x00]) with 6%nat in R.
  fold lo in R. rewrite R. clear R.
  destruct (Nat.ltb_spec (length ([h0; b8 127; x00; x00; x00; x00] ++ lo ++ payload)) 2)
    as [H | _]; [simpl in H; lia |].
  destruct (Nat.ltb_spec (length ([h0; b8 127; x00; x00; x00; x00] ++ lo ++ payload)) 10)
    as [H | _]; [simpl in H; lia |].
  unfold at_. cbn [nth app].
  change (Byte.to_N (b8 127)) with 127.
  change (negb (N.land 127 128 =? 0)) with false.
  change (N.land 127 127 =? 126) with false.
  change (N.land 127 127 =? 127) with true. cbv iota.
  match goal with
  | |- context [N.ltb ?a ?b] => destruct (N.ltb_spec a b) as [H | _]
  end; [simpl length in H; lia |].
  replace (N.to_nat n) with (length payload) by lia.
  change (h0 :: b8 127 :: x00 :: x00 :: x00 :: x00 :: lo ++ payload)
    with (([h0; b8 127; x00; x00; x00; x00] ++ lo) ++ payload).
  now rewrite slice_payload.
Qed.

(** The round trip for every payload [writeUInt32BE] accepts. *)
Lemma buildFrame_parse (text : jsstring) :
  N.of_nat (length (utf8 text)) < 4294967296 ->
  exists bytes : Buffer,
    buildFrame text = Some bytes
    /\ parseFrame bytes = Some (mkFrame 0x1 (utf8 text) (length bytes))
    /\ minimalHeader bytes (N.of_nat (length (utf8 text))).
Proof.
  intros Hlen. unfold buildFrame, minimalHeader.
  set (payload := utf8 text) in *. set (n := N.of_nat (length payload)) in *.
  destruct (N.ltb_spec n 126) as [H1 | H1]; [| destruct (N.ltb_spec n 65536) as [H2 | H2]].
  - eexists. split; [reflexivity |].
    split; [rewrite (parse_short (b8 129) payload n eq_refl H1); reflexivity |].
    unfold maskBit, at_. cbn [nth app].
    rewrite (to_N_b8 n), (N.mod_small n 256) by lia.
    destruct (land_small n) as [-> ->]; [lia |].
    repeat split. simpl length. lia.
  - eexists. split; [reflexivity |].
    split; [rewrite (parse_16 (b8 129) payload n eq_refl (conj H1 H2)); reflexivity |].
    split; [reflexivity |]. split; [reflexivity |].
    split; [reflexivity |].
    split; [apply read16; [exact H2 | reflexivity] |].
    simpl length. lia.
  - unfold writeUInt32BE.
    destruct (N.ltb_spec n 4294967296) as [_ | H3]; [| lia].
    change (0 <? 4294967296) with true. cbv iota.
    eexists. split; [reflexivity |].
    split; [change [b8 (N.shiftr 0 24); b8 (N.shiftr 0 16); b8 (N.shiftr 0 8); b8 0]
              with [x00; x00; x00; x00];
            rewrite (parse_32 (b8 129) payload n eq_refl Hlen); reflexivity |].
    split; [reflexivity |]. split; [reflexivity |].
    split; [reflexivity |]. split; [reflexivity |].
    split; [exact (read32 [b8 129; b8 127; b8 (N.shiftr 0 24); b8 (N.shiftr 0 16);
                           b8 (N.shiftr 0 8); b8 0] n payload Hlen) |].
    simpl length. lia.
Qed.

(** C2. For a text whose payload is 0, 1, 125, 126, 65535 or 65536 bytes
    long, [buildFrame] yields a frame that [parseFrame] reads back whole,
    with opcode text (1) and the payload itself, and the frame starts with
    the narrowest header: FIN set, no mask, the length on one byte below
    126, on 16 bits below 65536, on 64 bits with a zero high word above. *)
Theorem build_parse_roundtrip :
  forall text : jsstring,
    In (N.of_nat (length (utf8 text))) [0; 1; 125; 126; 65535; 65536] ->
    exists bytes : Buffer,
      buildFrame text = Some bytes
      /\ parseFrame bytes = Some (mkFrame 0x1 (utf8 text) (length bytes))
      /\ minimalHeader bytes (N.of_nat (length (utf8 text))).
Proof.
  intros text Hin. apply buildFrame_parse.
  cbn [In] in Hin. lia.
Qed.

Lemma build_parse_roundtrip_witness :
  exists bytes : Buffer,
    buildFrame (js "a") = Some bytes
    /\ parseFrame bytes = Some (mkFrame 0x1 (utf8 (js "a")) (length bytes))
    /\ minimalHeader bytes (N.of_nat (length (utf8 (js "a")))).
Proof.
  apply (build_parse_roundtrip (js "a")). vm_compute. right. left. reflexivity.
Defined.

(* ---------------------------------------------------------------------- *)
(** ** The world: what the helpers leave untouched *)

Lemma sock_onSocket f s w s' :
  sock (onSocket f s w) s' = if decide (s = s') then f (sock w s) else sock w s'.
Proof.
  unfold sock, onSocket. simpl. rewrite lookup_insert.
  destruct (decide (s = s')); reflexivity.
Qed.

Lemma sock_onSocket_eq f s w : sock (onSocket f s w) s = f (sock w s).
Proof. rewrite sock_onSocket. now destruct (decide (s = s)). Qed.

Lemma sock_onSocket_ne f s w s' : s <> s' -> sock (onSocket f s w) s' = sock w s'.
Proof. intros H. rewrite sock_onSocket. now destruct (decide (s = s')). Qed.

(** The effect of the loop of [broadcast] over a duplicate-free list of
    sockets. *)
Lemma broadcast_fold obj ex keys w :
  NoDup keys ->
  let w' := foldl (fun w s =>
                     if bool_decide (Some s = ex) || destroyed (sock w s)
                     then w else onSocket (write (WJson obj)) s w) w keys in
  clients w' = clients w /\ history w' = history w /\ nextId w' = nextId w
  /\ forall s, sock w' s =
               if bool_decide (s ∈ keys) && negb (bool_decide (Some s = ex))
               then write (WJson obj) (sock w s) else sock w s.
Proof.
  intros Hnd. revert w. induction Hnd as [| k keys Hk Hnd IH]; intros w.
  - simpl. repeat split.
  - cbn [foldl]. cbv zeta in *.
    set (w1 := if bool_decide (Some k = ex) || destroyed (sock w k)
               then w else onSocket (write (WJson obj)) k w).
    destruct (IH w1) as (Hc & Hh & Hn & Hs).
    assert (H1 : clients w1 = clients w /\ history w1 = history w
                 /\ nextId w1 = nextId w)
      by (unfold w1; destruct (_ || _); repeat split).
    destruct H1 as (Hc1 & Hh1 & Hn1).
    split; [congruence |]. split; [congruence |]. split; [congruence |].
    intros s. rewrite Hs.
    assert (Hw1 : sock w1 s = if decide (k = s)
                              then (if bool_decide (Some k = ex) then sock w k
                                    else write (WJson obj) (sock w k))
                              else sock w s).
    { unfold w1. destruct (decide (k = s)) as [<- | Hne].
      - destruct (bool_decide (Some k = ex)); [reflexivity |]. cbn [orb].
        destruct (destroyed (sock w k)) eqn:Ed.
        + unfold write. now rewrite Ed.
        + apply sock_onSocket_eq.
      - destruct (_ || _); [reflexivity |]. now apply sock_onSocket_ne. }
    rewrite Hw1.
    destruct (decide (k = s)) as [<- | Hne].
    + rewrite (bool_decide_eq_false_2 (k ∈ keys)) by exact Hk.
      rewrite (bool_decide_eq_true_2 (k ∈ k :: keys)) by apply list_elem_of_here.
      cbn [andb negb]. now destruct (bool_decide (Some k = ex)).
    + destruct (bool_decide_reflect (s ∈ keys)) as [Hin | Hnin].
      * rewrite (bool_decide_eq_true_2 (s ∈ k :: keys))
          by now apply list_elem_of_further.
        reflexivity.
      * rewrite (bool_decide_eq_false_2 (s ∈ k :: keys)); [reflexivity |].
        intros Hin. apply elem_of_cons in Hin as [-> | Hin]; tauto.
Qed.

(** [broadcast] writes the message to every registered socket but the
    excluded one, and changes nothing else. *)
Lemma broadcast_spec obj ex w :
  let w' := broadcast obj ex w in
  clients w' = clients w /\ history w' = history w /\ nextId w' = nextId w
  /\ forall s, sock w' s =
               if bool_decide (is_Some (clients w !! s))
                  && negb (bool_decide (Some s = ex))
               then write (WJson obj) (sock w s) else sock w s.
Proof.
  destruct (broadcast_fold obj ex (map_to_list (clients w)).*1 w
              (NoDup_fst_map_to_list _)) as (Hc & Hh & Hn & Hs).
  cbv zeta. fold (broadcast obj ex w) in *.
  repeat split; try assumption.
  intros s. rewrite Hs.
  rewrite (bool_decide_ext (s ∈ (map_to_list (clients w)).*1)
                           (is_Some (clients w !! s))); [reflexivity |].
  rewrite list_elem_of_fmap. split.
  - intros ([k c] & -> & Hin). apply elem_of_map_to_list in Hin. now exists c.
  - intros [c Hc']. exists (s, c). split; [reflexivity |].
    now apply elem_of_map_to_list.
Qed.

Lemma send_spec s obj w :
  let w' := send s obj w in
  clients w' = clients w /\ history w' = history w /\ nextId w' = nextId w
  /\ forall s', sock w' s' =
                if decide (s = s') then write (WJson obj) (sock w s) else sock w s'.
Proof.
  cbv zeta. unfold send. destruct (destroyed (sock w s)) eqn:Ed.
  - repeat split. intros s'. destruct (decide (s = s')) as [<- |]; [| reflexivity].
    unfold write. now rewrite Ed.
  - repeat split. intros s'. apply sock_onSocket.
Qed.

Lemma broadcast_clients obj ex w : clients (broadcast obj ex w) = clients w.
Proof. apply broadcast_spec. Qed.

Lemma broadcast_history obj ex w : history (broadcast obj ex w) = history w.
Proof. apply broadcast_spec. Qed.

Lemma broadcast_nextId obj ex w : nextId (broadcast obj ex w) = nextId w.
Proof. apply broadcast_spec. Qed.

Lemma sock_broadcast obj w s :
  sock (broadcast obj None w) s
  = if bool_decide (is_Some (clients w !! s))
    then write (WJson obj) (sock w s) else sock w s.
Proof.
  destruct (broadcast_spec obj None w) as (_ & _ & _ & H). rewrite H.
  rewrite (bool_decide_eq_false_2 (Some s = None)) by discriminate.
  now rewrite andb_true_r.
Qed.

Lemma send_clients s obj w : clients (send s obj w) = clients w.
Proof. apply send_spec. Qed.

Lemma send_history s obj w : history (send s obj w) = history w.
Proof. apply send_spec. Qed.

Lemma sock_send s obj w s' :
  sock (send s obj w) s'
  = if decide (s = s') then write (WJson obj) (sock w s) else sock w s'.
Proof. apply send_spec. Qed.

(* ---------------------------------------------------------------------- *)
(** ** Nicknames *)

Lemma js_inj a b : js a = js b -> a = b.
Proof.
  unfold js. intros H.
  rewrite <- (string_of_list_ascii_of_string a), <- (string_of_list_ascii_of_string b).
  f_equal. revert H. generalize (list_ascii_of_string a) (list_ascii_of_string b).
  induction l as [| x l IH]; intros [| y l']; simpl; try discriminate; [reflexivity |].
  intros [= Hxy Hl]. f_equal; [| now apply IH].
  rewrite <- (ascii_N_embedding x), <- (ascii_N_embedding y). now f_equal.
Qed.

Lemma numToString_inj n m : numToString n = numToString m -> n = m.
Proof.
  unfold numToString. intros H. apply js_inj in H.
  apply DecimalN.Unsigned.to_uint_inj.
  pose proof (NilEmpty.usu (N.to_uint n)) as Hn.
  pose proof (NilEmpty.usu (N.to_uint m)) as Hm.
  rewrite H in Hn. congruence.
Qed.

Lemma candidate_inj desired n m :
  desired ++ numToString n = desired ++ numToString m -> n = m.
Proof. intros H. apply app_inv_head in H. now apply numToString_inj. Qed.

Lemma uniqueNick_loop_spec fuel taken desired n :
  let m := uniqueNick_loop fuel taken desired n in
  n <= m
  /\ (forall k, n <= k < m -> has taken (desired ++ numToString k) = true)
  /\ (has taken (desired ++ numToString m) = false \/ m = n + N.of_nat fuel).
Proof.
  revert n. induction fuel as [| fuel IH]; intros n; cbn [uniqueNick_loop].
  - cbv zeta. split; [lia |]. split; [intros; lia |]. right. lia.
  - destruct (has taken (desired ++ numToString n)) eqn:E.
    + destruct (IH (n + 1)) as (Hle & Hall & Hend). cbv zeta in *.
      split; [lia |]. split.
      * intros k Hk. destruct (N.eq_dec k n) as [-> | Hne]; [exact E |].
        apply Hall. lia.
      * destruct Hend as [Hf | Hm]; [now left | right; lia].
    + cbv zeta. split; [lia |]. split; [intros; lia |]. now left.
Qed.

Lemma uniqueNick_loop_free taken desired n :
  has taken (desired ++ numToString
               (uniqueNick_loop (S (length taken)) taken desired n)) = false.
Proof.
  destruct (uniqueNick_loop_spec (S (length taken)) taken desired n)
    as (_ & Hall & [Hf | Hm]); [exact Hf | exfalso].
  set (cands := (fun i => desired ++ numToString (n + N.of_nat i))
                  <$> seq 0 (S (length taken))).
  assert (Hnd : NoDup cands).
  { apply NoDup_fmap_2_strong; [| apply NoDup_seq].
    intros i j _ _ Hij. apply candidate_inj in Hij. lia. }
  assert (Hincl : forall x, x ∈ cands -> x ∈ taken).
  { intros x Hx.
    apply list_elem_of_fmap in Hx as (i & -> & Hi).
    apply elem_of_seq in Hi.
    specialize (Hall (n + N.of_nat i)).
    unfold has in Hall. rewrite bool_decide_eq_true in Hall.
    apply Hall. unfold jsstring in *. lia. }
  pose proof (submseteq_length _ _ (NoDup_submseteq _ _ Hnd Hincl)) as Hlen.
  unfold cands in Hlen. rewrite length_fmap, length_seq in Hlen.
  unfold jsstring in *. lia.
Qed.

Lemma uniqueNick_loop_fuel fuel fuel' taken desired n :
  has taken (desired ++ numToString (uniqueNick_loop fuel taken desired n)) = false ->
  (fuel <= fuel')%nat ->
  uniqueNick_loop fuel' taken desired n = uniqueNick_loop fuel taken desired n.
Proof.
  revert fuel' n. induction fuel as [| fuel IH]; intros fuel' n Hf Hle.
  - cbn in *. destruct fuel'; [reflexivity |]. cbn. now rewrite Hf.
  - destruct fuel' as [| fuel']; [lia |]. cbn in *.
    destruct (has taken (desired ++ numToString n)); [| reflexivity].
    apply IH; [exact Hf | lia].
Qed.

Lemma uniqueNick_free taken desired : uniqueNick taken desired ∉ taken.
Proof.
  unfold uniqueNick. destruct (has taken desired) eqn:E.
  - pose proof (uniqueNick_loop_free taken desired 2) as H.
    unfold has in H. now apply bool_decide_eq_false in H.
  - unfold has in E. now apply bool_decide_eq_false in E.
Qed.

Lemma sanitizeNick_length raw :
  (1 <= length (sanitizeNick raw) <= MAX_NICK_LEN)%nat.
Proof.
  unfold sanitizeNick, slice0.
  set (kept := List.filter _ _).
  pose proof (firstn_le_length MAX_NICK_LEN kept) as Hle.
  destruct (firstn MAX_NICK_LEN kept) as [| c r] eqn:E; cbn [falsy].
  - vm_compute. lia.
  - simpl in *. lia.
Qed.

Lemma takenNicks_spec w s c :
  clients w !! s = Some c -> Client.nick c ∈ takenNicks w.
Proof.
  intros H. unfold takenNicks. apply list_elem_of_fmap_2.
  apply list_elem_of_fmap. exists (s, c). split; [reflexivity |].
  now apply elem_of_map_to_list.
Qed.

Lemma enroll_clients s nick now w :
  clients (enroll s nick now w)
  = <[s := Client.mk (nextId w) nick true [] 0 now]> (clients w).
Proof.
  unfold enroll. cbv zeta. cbn [clients onSocket set_sockets].
  rewrite broadcast_clients. cbn [clients set_history].
  rewrite send_clients. destruct (history w); cbn [history];
    [reflexivity | now rewrite send_clients].
Qed.

(** An upgrade below the cap and with a key registers the connection with
    the resolved nickname. *)
Lemma handleUpgrade_clients s req now w key :
  secWebSocketKey req = Some key -> falsy key = false ->
  (size (clients w) < MAX_CLIENTS)%nat ->
  let nick := uniqueNick (takenNicks w) (sanitizeNick (rawNickOf req)) in
  clients (handleUpgrade s req now w)
  = <[s := Client.mk (nextId w) nick true [] 0 now]> (clients w).
Proof.
  intros Hk Hf Hsz nick. unfold handleUpgrade.
  destruct (Nat.leb_spec MAX_CLIENTS (size (clients w))); [lia |].
  unfold doHandshake. rewrite Hk, Hf. cbn [negb].
  now rewrite enroll_clients.
Qed.

Lemma handleUpgrade_nick s req now w key c :
  secWebSocketKey req = Some key -> falsy key = false ->
  (size (clients w) < MAX_CLIENTS)%nat ->
  clients (handleUpgrade s req now w) !! s = Some c ->
  Client.nick c = uniqueNick (takenNicks w) (sanitizeNick (rawNickOf req)).
Proof.
  intros Hk Hf Hsz Hc.
  rewrite (handleUpgrade_clients s req now w key Hk Hf Hsz) in Hc.
  rewrite lookup_insert_eq in Hc. now injection Hc as <-.
Qed.

Lemma uniqueNick_taken taken desired :
  desired ∈ taken ->
  exists n : N,
    2 <= n
    /\ uniqueNick taken desired = desired ++ numToString n
    /\ forall k : N, 2 <= k < n -> desired ++ numToString k ∈ taken.
Proof.
  intros Htaken. unfold uniqueNick, has.
  rewrite bool_decide_eq_true_2 by exact Htaken.
  destruct (uniqueNick_loop_spec (S (length taken)) taken desired 2)
    as (Hle & Hall & _).
  eexists. split; [exact Hle |]. split; [reflexivity |].
  intros k Hk. specialize (Hall k Hk). unfold has in Hall.
  now apply bool_decide_eq_true in Hall.
Qed.

(** C5. A free name is returned unchanged; a taken one gets the least
    suffix from 2 on whose name is free; the result is never a taken name.
    The connection an upgrade registers has a nickname no other registered
    connection holds, and three upgrades that all ask for "Bob" are named
    "Bob", "Bob2" and "Bob3". *)
Theorem uniqueNick_resolution :
  (forall (taken : list jsstring) (desired : jsstring),
      (uniqueNick taken desired ∉ taken)
      /\ (desired ∉ taken -> uniqueNick taken desired = desired)
      /\ (desired ∈ taken ->
          exists n : N,
            2 <= n
            /\ uniqueNick taken desired = desired ++ numToString n
            /\ forall k : N, 2 <= k < n -> desired ++ numToString k ∈ taken))
  /\ (forall s req now w key c,
         secWebSocketKey req = Some key -> falsy key = false ->
         (size (clients w) < MAX_CLIENTS)%nat ->
         clients (handleUpgrade s req now w) !! s = Some c ->
         Client.nick c
         = uniqueNick (takenNicks w) (sanitizeNick (rawNickOf req))
         /\ forall s' c', s' <> s ->
              clients (handleUpgrade s req now w) !! s' = Some c' ->
              Client.nick c' <> Client.nick c)
  /\ uniqueNick [] (js "Bob") = js "Bob"
  /\ uniqueNick [js "Bob"] (js "Bob") = js "Bob2"
  /\ uniqueNick [js "Bob"; js "Bob2"] (js "Bob") = js "Bob3"
  /\ (exists w, threeBobs = Some w
                /\ nickOf w 1%nat = Some (js "Bob")
                /\ nickOf w 2%nat = Some (js "Bob2")
                /\ nickOf w 3%nat = Some (js "Bob3")).
Proof.
  split; [| split].
  - intros taken desired. split; [apply uniqueNick_free |]. split.
    + intros Hfree. unfold uniqueNick, has.
      now rewrite bool_decide_eq_false_2.
    + apply uniqueNick_taken.
  - intros s req now w key c Hk Hf Hsz Hc.
    rewrite (handleUpgrade_clients s req now w key Hk Hf Hsz) in *.
    rewrite lookup_insert_eq in Hc. injection Hc as <-. cbn [Client.nick].
    split; [reflexivity |].
    intros s' c' Hne Hc'. rewrite lookup_insert_ne in Hc' by congruence.
    intros Heq. apply (uniqueNick_free (takenNicks w) (sanitizeNick (rawNickOf req))).
    rewrite <- Heq. now apply (takenNicks_spec w s').
  - repeat split; try (vm_compute; reflexivity).
    eexists. split; [vm_compute; reflexivity |].
    repeat split; vm_compute; reflexivity.
Qed.

Lemma uniqueNick_resolution_witness :
  (exists n : N,
      2 <= n
      /\ uniqueNick [js "Bob"] (js "Bob") = js "Bob" ++ numToString n
      /\ forall k : N, 2 <= k < n -> js "Bob" ++ numToString k ∈ [js "Bob"])
  /\ uniqueNick [js "Al"] (js "Bob") = js "Bob"
  /\ exists c,
       clients (handleUpgrade 2%nat (requestFor "Bob") 7%Z oneBob) !! 2%nat = Some c
       /\ Client.nick c = uniqueNick (takenNicks oneBob)
                                     (sanitizeNick (rawNickOf (requestFor "Bob"))).
Proof.
  destruct uniqueNick_resolution as (Hpure & Hworld & _).
  split; [| split].
  - apply (Hpure [js "Bob"] (js "Bob")). apply list_elem_of_here.
  - apply (Hpure [js "Al"] (js "Bob")).
    intros H. apply list_elem_of_singleton in H. vm_compute in H. discriminate.
  - destruct (clients (handleUpgrade 2%nat (requestFor "Bob") 7%Z oneBob) !! 2%nat)
      as [c |] eqn:Hc; [| vm_compute in Hc; discriminate].
    exists c. split; [reflexivity |].
    apply (Hworld 2%nat (requestFor "Bob") 7%Z oneBob
                  (js "dGhlIHNhbXBsZSBub25jZQ==") c); try reflexivity.
    + vm_compute. lia.
    + exact Hc.
Defined.

(* ---------------------------------------------------------------------- *)
(** ** Admission *)

(** C8. An upgrade that finds the registry at its cap of 100 is answered
    503 and its socket destroyed, with no handshake response; an upgrade
    below the cap without a [Sec-WebSocket-Key] has its socket destroyed
    with nothing written. In both cases the registry, the identifier
    counter and the history are unchanged and no listener is attached. *)
Theorem upgrade_refused :
  forall (s : SockId) (req : Request) (now : Z) (w : World),
    let w' := handleUpgrade s req now w in
    ((MAX_CLIENTS <= size (clients w))%nat ->
       clients w' = clients w /\ nextId w' = nextId w /\ history w' = history w
       /\ sock w' s = destroy (write (WHttp response503) (sock w s))
       /\ (forall s', s' <> s -> sock w' s' = sock w s'))
    /\ ((size (clients w) < MAX_CLIENTS)%nat -> secWebSocketKey req = None ->
       clients w' = clients w /\ nextId w' = nextId w /\ history w' = history w
       /\ sock w' s = destroy (sock w s)
       /\ (forall s', s' <> s -> sock w' s' = sock w s')).
Proof.
  intros s req now w w'. subst w'. unfold handleUpgrade. split.
  - intros Hfull.
    destruct (Nat.leb_spec MAX_CLIENTS (size (clients w))); [| lia].
    do 3 (split; [reflexivity |]). split; [apply sock_onSocket_eq |].
    intros s' Hne. apply sock_onSocket_ne. congruence.
  - intros Hroom Hkey.
    destruct (Nat.leb_spec MAX_CLIENTS (size (clients w))); [lia |].
    unfold doHandshake. rewrite Hkey. cbn [negb].
    do 3 (split; [reflexivity |]).
    split; [now rewrite sock_onSocket_eq |].
    intros s' Hne. apply sock_onSocket_ne. congruence.
Qed.

Lemma upgrade_refused_witness :
  (clients (handleUpgrade 101%nat (requestFor "Bob") 9%Z fullHouse)
   = clients fullHouse
   /\ sock (handleUpgrade 101%nat (requestFor "Bob") 9%Z fullHouse) 101%nat
      = mkSocket true [WHttp response503] false false false)
  /\ (clients (handleUpgrade 1%nat keylessRequest 9%Z initial) = clients initial
      /\ sock (handleUpgrade 1%nat keylessRequest 9%Z initial) 1%nat
         = mkSocket true [] false false false).
Proof.
  split.
  - destruct (proj1 (upgrade_refused 101%nat (requestFor "Bob") 9%Z fullHouse))
      as (Hc & _ & _ & Hs & _).
    + vm_compute. lia.
    + split; [exact Hc |]. rewrite Hs. vm_compute. reflexivity.
  - destruct (proj2 (upgrade_refused 1%nat keylessRequest 9%Z initial))
      as (Hc & _ & _ & Hs & _).
    + vm_compute. lia.
    + reflexivity.
    + split; [exact Hc |]. rewrite Hs. vm_compute. reflexivity.
Defined.

(* ---------------------------------------------------------------------- *)
(** ** The length of nicknames *)

Lemma uniqueNick_loop_le fuel taken desired n :
  uniqueNick_loop fuel taken desired n <= n + N.of_nat fuel.
Proof.
  revert n. induction fuel as [| fuel IH]; intros n; cbn [uniqueNick_loop]; [lia |].
  destruct (has taken (desired ++ numToString n)); [| lia].
  specialize (IH (n + 1)). lia.
Qed.

Lemma numToString_short n : n < 1000 -> (length (numToString n) <= 3)%nat.
Proof.
  intros H.
  assert (Hall : forallb (fun i => (length (numToString (N.of_nat i)) <=? 3)%nat)
                         (seq 0 1000) = true) by (vm_compute; reflexivity).
  rewrite forallb_forall in Hall.
  specialize (Hall (N.to_nat n)). rewrite N2Nat.id in Hall.
  apply Nat.leb_le, Hall, in_seq. lia.
Qed.

Lemma uniqueNick_length taken desired :
  (length taken < 100)%nat ->
  (length (uniqueNick taken desired) <= length desired + 3)%nat
  /\ (desired ∉ taken -> uniqueNick taken desired = desired).
Proof.
  intros Hlen. unfold uniqueNick, has. split.
  - destruct (bool_decide (desired ∈ taken)); [| lia].
    rewrite length_app.
    pose proof (uniqueNick_loop_le (S (length taken)) taken desired 2) as Hle.
    pose proof (numToString_short
                  (uniqueNick_loop (S (length taken)) taken desired 2)) as Hs.
    unfold jsstring in *. lia.
  - intros Hfree. now rewrite bool_decide_eq_false_2.
Qed.

Lemma takenNicks_length w : length (takenNicks w) = size (clients w).
Proof.
  unfold takenNicks. now rewrite !length_fmap, length_map_to_list.
Qed.

(** C6 as stated fails: with a connection named by 24 characters
    registered, a second request for the same name is given that name
    with the suffix 2, a nickname of 25 characters. *)
Lemma final_nick_over_max :
  exists c, clients twoLong !! 2%nat = Some c
            /\ Client.nick c = js longNick ++ js "2"
            /\ (MAX_NICK_LEN < length (Client.nick c))%nat.
Proof.
  eexists. split; [vm_compute; reflexivity |].
  split; [vm_compute; reflexivity | vm_compute; lia].
Qed.

(** C6 (amended). The sanitized name has 1 to 24 characters. The nickname
    an upgrade assigns is that name when no registered connection holds
    it, and otherwise that name followed by a decimal suffix from 2 on; it
    has at most 27 characters (fewer than 100 connections are registered
    when an upgrade is admitted, so the suffix has at most three digits). *)
Theorem nick_length_bound :
  (forall raw : jsstring,
      (1 <= length (sanitizeNick raw) <= 24)%nat)
  /\ (forall s req now w key c,
         secWebSocketKey req = Some key -> falsy key = false ->
         (size (clients w) < MAX_CLIENTS)%nat ->
         clients (handleUpgrade s req now w) !! s = Some c ->
         let desired := sanitizeNick (rawNickOf req) in
         (length (Client.nick c) <= 27)%nat
         /\ (desired ∉ takenNicks w -> Client.nick c = desired)
         /\ (desired ∈ takenNicks w ->
             exists n : N, 2 <= n /\ Client.nick c = desired ++ numToString n)).
Proof.
  split; [exact sanitizeNick_length |].
  intros s req now w key c Hk Hf Hsz Hc desired.
  rewrite (handleUpgrade_nick s req now w key c Hk Hf Hsz Hc). fold desired.
  destruct (uniqueNick_length (takenNicks w) desired) as (Hlen & Hfree).
  { rewrite takenNicks_length. unfold MAX_CLIENTS in Hsz. exact Hsz. }
  pose proof (sanitizeNick_length (rawNickOf req)) as Hs. fold desired in Hs.
  unfold MAX_NICK_LEN in Hs.
  split; [unfold jsstring in *; lia |]. split; [exact Hfree |].
  intros Htaken.
  destruct (uniqueNick_taken (takenNicks w) desired Htaken) as (n & Hn & Heq & _).
  now exists n.
Qed.

Lemma nick_length_bound_witness :
  exists c,
    clients twoLong !! 2%nat = Some c
    /\ (length (Client.nick c) <= 27)%nat
    /\ exists n : N,
         2 <= n
         /\ Client.nick c
            = sanitizeNick (rawNickOf (requestFor longNick)) ++ numToString n.
Proof.
  destruct (clients twoLong !! 2%nat) as [c |] eqn:Hc;
    [| vm_compute in Hc; discriminate].
  exists c. split; [reflexivity |].
  destruct (proj2 nick_length_bound 2%nat (requestFor longNick) 1%Z
                  (handleUpgrade 1%nat (requestFor longNick) 0%Z initial)
                  (js "dGhlIHNhbXBsZSBub25jZQ==") c)
    as (Hlen & _ & Htaken);
    [reflexivity | reflexivity | vm_compute; lia | exact Hc |].
  split; [exact Hlen |]. apply Htaken.
  vm_compute. apply list_elem_of_here.
Defined.

(* ---------------------------------------------------------------------- *)
(** ** The rate limiter *)

Lemma rateStep_spec now c :
  let c' := rateStep now c in
  Client.nick c' = Client.nick c /\ Client.buf c' = Client.buf c
  /\ Client.alive c' = Client.alive c /\ Client.id c' = Client.id c
  /\ ((RATE_LIMIT_WIN < now - Client.rateStart c)%Z ->
      Client.rateStart c' = now /\ Client.rateCount c' = 1%nat)
  /\ ((now - Client.rateStart c <= RATE_LIMIT_WIN)%Z ->
      Client.rateStart c' = Client.rateStart c
      /\ Client.rateCount c' = S (Client.rateCount c)).
Proof.
  cbv zeta. unfold rateStep.
  destruct (Z.ltb_spec RATE_LIMIT_WIN (now - Client.rateStart c)); cbn;
    repeat split; intros; try reflexivity; lia.
Qed.

Lemma onParsed_chat s text now w c :
  clients w !! s = Some c ->
  let c' := rateStep now c in
  let w1 := set_clients (<[s := c']> (clients w)) w in
  onParsed s (chatObj text) now w
  = if (RATE_LIMIT_MSG <? Client.rateCount c')%nat
    then Return (onSocket destroy s (send s (rateWarning now) w1))
    else if falsy (chatText text) then Continue w1
         else let msg := Chat (Client.nick c') (chatText text) now in
              Continue (broadcast msg None
                          (set_history (addToHistory msg (history w1)) w1)).
Proof.
  intros Hc. cbv zeta. unfold onParsed, chatObj. rewrite Hc.
  change (isStr _ (js "message")) with true. cbv iota.
  change (getProp _ (js "text")) with (Some (JStr text)). cbv iota.
  reflexivity.
Qed.

Lemma registered_insert (m : gmap nat Client.t) s c c' x :
  m !! s = Some c ->
  bool_decide (is_Some (<[s := c']> m !! x)) = bool_decide (is_Some (m !! x)).
Proof.
  intros H. apply bool_decide_ext. rewrite lookup_insert.
  destruct (decide (s = x)) as [<- |]; [| reflexivity].
  rewrite H. split; eauto.
Qed.

Lemma relayed_cons nick m rest :
  relayed nick (m :: rest) = relayed nick [m] ++ relayed nick rest.
Proof. unfold relayed. cbn [flat_map]. now rewrite app_nil_r. Qed.

Lemma relayed_app nick a b :
  relayed nick (a ++ b) = relayed nick a ++ relayed nick b.
Proof. apply flat_map_app. Qed.

Lemma pushAll_app a b h : pushAll (a ++ b) h = pushAll b (pushAll a h).
Proof. apply fold_left_app. Qed.

Lemma deliver_app a b k : deliver (a ++ b) k = deliver b (deliver a k).
Proof. apply fold_left_app. Qed.

(** An accepted chat message: the counter moves, and the message, if not
    empty, enters the history and goes to every registered socket. *)
Lemma onParsed_accept s text now w c :
  clients w !! s = Some c ->
  (Client.rateCount (rateStep now c) <= RATE_LIMIT_MSG)%nat ->
  exists w',
    onParsed s (chatObj text) now w = Continue w'
    /\ clients w' = <[s := rateStep now c]> (clients w)
    /\ nextId w' = nextId w
    /\ history w' = pushAll (relayed (Client.nick c) [(now, text)]) (history w)
    /\ forall x, sock w' x =
                 if bool_decide (is_Some (clients w !! x))
                 then deliver (relayed (Client.nick c) [(now, text)]) (sock w x)
                 else sock w x.
Proof.
  intros Hc Hok. rewrite (onParsed_chat s text now w c Hc). cbv zeta.
  destruct (Nat.ltb_spec RATE_LIMIT_MSG (Client.rateCount (rateStep now c)));
    [lia |].
  destruct (rateStep_spec now c) as (Hn & _). cbv zeta in Hn. rewrite Hn.
  unfold relayed. cbn [flat_map fst snd]. rewrite app_nil_r.
  destruct (falsy (chatText text)).
  - eexists. split; [reflexivity |]. do 3 (split; [reflexivity |]).
    intros x. cbn [deliver fold_left]. now destruct (bool_decide _).
  - eexists. split; [reflexivity |].
    rewrite broadcast_clients, broadcast_nextId, broadcast_history.
    do 3 (split; [reflexivity |]).
    intros x. rewrite sock_broadcast. cbn [clients set_history set_clients].
    now rewrite (registered_insert _ s c _ x Hc).
Qed.

Lemma set_rate_id c : Client.set_rate (Client.rateCount c) (Client.rateStart c) c = c.
Proof. now destruct c. Qed.

(** Messages that arrive in the current window, while the count allows. *)
Lemma chats_within s msgs : forall w c,
  clients w !! s = Some c ->
  withinWindow (Client.rateStart c) msgs ->
  (Client.rateCount c + length msgs <= RATE_LIMIT_MSG)%nat ->
  exists w',
    chats s msgs w = Continue w'
    /\ clients w'
       = <[s := Client.set_rate (Client.rateCount c + length msgs)
                                (Client.rateStart c) c]> (clients w)
    /\ nextId w' = nextId w
    /\ history w' = pushAll (relayed (Client.nick c) msgs) (history w)
    /\ forall x, sock w' x =
                 if bool_decide (is_Some (clients w !! x))
                 then deliver (relayed (Client.nick c) msgs) (sock w x)
                 else sock w x.
Proof.
  induction msgs as [| [now text] rest IH]; intros w c Hc Hwin Hcount.
  - exists w. split; [reflexivity |]. cbn [length].
    rewrite Nat.add_0_r, set_rate_id, insert_id by exact Hc.
    do 3 (split; [reflexivity |]).
    intros x. cbn. now destruct (bool_decide _).
  - apply Forall_cons in Hwin as [Hnow Hrest]. cbn [fst] in Hnow.
    cbn [length] in Hcount.
    destruct (rateStep_spec now c) as (Hn & Hb & Ha & Hi & _ & Hstay).
    cbv zeta in *. destruct (Hstay Hnow) as (Hstart & Hcnt).
    destruct (onParsed_accept s text now w c Hc) as (w1 & Hstep & Hc1 & Hn1 & Hh1 & Hs1);
      [unfold RATE_LIMIT_MSG in *; lia |].
    destruct (IH w1 (rateStep now c)) as (w' & Hrun & Hc' & Hn' & Hh' & Hs').
    + rewrite Hc1. apply lookup_insert_eq.
    + now rewrite Hstart.
    + rewrite Hcnt. lia.
    + exists w'. cbn [chats]. rewrite Hstep.
      split; [exact Hrun |]. split.
      * rewrite Hc', Hc1, insert_insert_eq. f_equal.
        rewrite Hcnt, Hstart. cbn [length].
        replace (S (Client.rateCount c) + length rest)%nat
          with (Client.rateCount c + S (length rest))%nat by lia.
        destruct c; unfold rateStep; cbn.
        destruct (RATE_LIMIT_WIN <? now - rateStart)%Z; reflexivity.
      * split; [congruence |]. split.
        -- rewrite Hh', Hh1, Hn, (relayed_cons _ (now, text) rest), pushAll_app.
           reflexivity.
        -- intros x. rewrite Hs', Hs1, Hc1, Hn.
           rewrite (registered_insert _ s c _ x Hc).
           rewrite (relayed_cons _ (now, text) rest), deliver_app.
           now destruct (bool_decide _).
Qed.

Lemma chats_app s a b w :
  chats s (a ++ b) w
  = match chats s a w with
    | Continue w' => chats s b w'
    | out => out
    end.
Proof.
  revert w. induction a as [| [now text] a IH]; intros w; cbn [chats app];
    [reflexivity |].
  destruct (onParsed s (chatObj text) now w); [apply IH | reflexivity ..].
Qed.

Lemma destroyed_write x k : destroyed (write x k) = destroyed k.
Proof. unfold write. destruct (destroyed k) eqn:E; [exact E | reflexivity]. Qed.

Lemma destroyed_deliver ms k : destroyed (deliver ms k) = destroyed k.
Proof.
  revert k. induction ms as [| m ms IH]; intros k; cbn; [reflexivity |].
  unfold deliver in IH. now rewrite IH, destroyed_write.
Qed.

Lemma written_write x k :
  destroyed k = false -> written (write x k) = written k ++ [x].
Proof. intros H. unfold write. now rewrite H. Qed.

(** A chat message over the threshold: the warning, then the socket is
    destroyed; the history and the other sockets are left alone. *)
Lemma onParsed_kick s text now w c :
  clients w !! s = Some c ->
  (RATE_LIMIT_MSG < Client.rateCount (rateStep now c))%nat ->
  exists w',
    onParsed s (chatObj text) now w = Return w'
    /\ clients w' = <[s := rateStep now c]> (clients w)
    /\ history w' = history w
    /\ sock w' s = destroy (write (WJson (rateWarning now)) (sock w s))
    /\ forall x, x <> s -> sock w' x = sock w x.
Proof.
  intros Hc Hover. rewrite (onParsed_chat s text now w c Hc). cbv zeta.
  destruct (Nat.ltb_spec RATE_LIMIT_MSG (Client.rateCount (rateStep now c)));
    [| lia].
  eexists. split; [reflexivity |].
  cbn [clients history onSocket set_sockets].
  rewrite send_clients, send_history. do 2 (split; [reflexivity |]). split.
  - rewrite sock_onSocket_eq, sock_send.
    now destruct (decide (s = s)).
  - intros x Hx. rewrite sock_onSocket_ne, sock_send by congruence.
    destruct (decide (s = x)); [congruence | reflexivity].
Qed.

Lemma relayed_nonempty nick msgs :
  Forall (fun m => falsy (chatText (snd m)) = false) msgs ->
  relayed nick msgs
  = List.map (fun m => Chat nick (chatText (snd m)) (fst m)) msgs.
Proof.
  induction 1 as [| m msgs Hm _ IH]; [reflexivity |].
  rewrite relayed_cons, IH. unfold relayed. cbn [flat_map]. now rewrite Hm.
Qed.

Lemma relayed_empty nick msgs :
  Forall (fun m => trim (snd m) = []) msgs -> relayed nick msgs = [].
Proof.
  induction 1 as [| m msgs Hm _ IH]; [reflexivity |].
  rewrite relayed_cons, IH. unfold relayed, chatText. cbn [flat_map].
  now rewrite Hm.
Qed.

(** C3. The rate limiter of a connection: a message more than 1000 ms
    after the recorded window start resets the start to now and the count
    to zero, then the count is incremented; a count above 5 sends the
    warning and destroys the socket. Hence five messages in one window are
    all relayed, a sixth in that window disconnects, and once the window
    has elapsed five more are accepted. *)
Theorem rate_limit_window :
  forall (s : SockId) (w : World) (c : Client.t),
    clients w !! s = Some c -> destroyed (sock w s) = false ->
    (forall (now : Z) (text : jsstring),
        let c' := rateStep now c in
        ((RATE_LIMIT_WIN < now - Client.rateStart c)%Z ->
           Client.rateStart c' = now /\ Client.rateCount c' = 1%nat)
        /\ ((now - Client.rateStart c <= RATE_LIMIT_WIN)%Z ->
            Client.rateStart c' = Client.rateStart c
            /\ Client.rateCount c' = S (Client.rateCount c))
        /\ ((Client.rateCount c' <= RATE_LIMIT_MSG)%nat ->
            exists w', onParsed s (chatObj text) now w = Continue w'
                       /\ clients w' !! s = Some c'
                       /\ destroyed (sock w' s) = false)
        /\ ((RATE_LIMIT_MSG < Client.rateCount c')%nat ->
            exists w', onParsed s (chatObj text) now w = Return w'
                       /\ clients w' !! s = Some c'
                       /\ destroyed (sock w' s) = true
                       /\ written (sock w' s)
                          = written (sock w s) ++ [WJson (rateWarning now)]
                       /\ history w' = history w))
    /\ (Client.rateCount c = 0%nat ->
        forall msgs : list (Z * jsstring),
          length msgs = 5%nat -> withinWindow (Client.rateStart c) msgs ->
          exists w5,
            chats s msgs w = Continue w5
            /\ history w5 = pushAll (relayed (Client.nick c) msgs) (history w)
            /\ (forall x, sock w5 x =
                          if bool_decide (is_Some (clients w !! x))
                          then deliver (relayed (Client.nick c) msgs) (sock w x)
                          else sock w x)
            /\ (Forall (fun m => falsy (chatText (snd m)) = false) msgs ->
                relayed (Client.nick c) msgs
                = List.map (fun m => Chat (Client.nick c) (chatText (snd m)) (fst m))
                           msgs)
            /\ (forall (now : Z) (text : jsstring),
                   (now - Client.rateStart c <= RATE_LIMIT_WIN)%Z ->
                   exists w6,
                     chats s (msgs ++ [(now, text)]) w = Return w6
                     /\ destroyed (sock w6 s) = true
                     /\ written (sock w6 s)
                        = written (sock w5 s) ++ [WJson (rateWarning now)]
                     /\ history w6 = history w5)
            /\ (forall (now : Z) (text : jsstring) (more : list (Z * jsstring)),
                   (RATE_LIMIT_WIN < now - Client.rateStart c)%Z ->
                   length more = 4%nat -> withinWindow now more ->
                   exists w10,
                     chats s (msgs ++ (now, text) :: more) w = Continue w10
                     /\ clients w10 !! s = Some (Client.set_rate 5 now c)
                     /\ history w10
                        = pushAll (relayed (Client.nick c)
                                           (msgs ++ (now, text) :: more))
                                  (history w))).
Proof.
  intros s w c Hc Hlive. split.
  - intros now text c'.
    destruct (rateStep_spec now c) as (_ & _ & _ & _ & Hreset & Hstay).
    split; [exact Hreset |]. split; [exact Hstay |]. split.
    + intros Hok.
      destruct (onParsed_accept s text now w c Hc Hok)
        as (w' & Hstep & Hc' & _ & _ & Hs').
      exists w'. split; [exact Hstep |]. split.
      * rewrite Hc'. apply lookup_insert_eq.
      * rewrite Hs'. destruct (bool_decide _); [| exact Hlive].
        now rewrite destroyed_deliver.
    + intros Hover.
      destruct (onParsed_kick s text now w c Hc Hover)
        as (w' & Hstep & Hc' & Hh' & Hs' & _).
      exists w'. split; [exact Hstep |]. split.
      * rewrite Hc'. apply lookup_insert_eq.
      * rewrite Hs'. split; [reflexivity |]. split; [| exact Hh'].
        cbn [written destroy]. now apply written_write.
  - intros Hzero msgs Hlen Hwin.
    destruct (chats_within s msgs w c Hc Hwin)
      as (w5 & Hrun & Hc5 & _ & Hh5 & Hs5);
      [rewrite Hzero, Hlen; unfold RATE_LIMIT_MSG; lia |].
    rewrite Hzero, Hlen in Hc5. cbn [Nat.add] in Hc5.
    set (c5 := Client.set_rate 5 (Client.rateStart c) c) in *.
    assert (Hl5 : clients w5 !! s = Some c5)
      by (rewrite Hc5; apply lookup_insert_eq).
    assert (Hlive5 : destroyed (sock w5 s) = false).
    { rewrite Hs5. destruct (bool_decide _); [| exact Hlive].
      now rewrite destroyed_deliver. }
    exists w5. split; [exact Hrun |]. split; [exact Hh5 |].
    split; [exact Hs5 |]. split; [apply relayed_nonempty |]. split.
    + intros now text Hnow.
      destruct (rateStep_spec now c5) as (_ & _ & _ & _ & _ & Hstay).
      destruct (Hstay Hnow) as (_ & Hcnt).
      destruct (onParsed_kick s text now w5 c5 Hl5)
        as (w6 & Hstep & _ & Hh6 & Hs6 & _);
        [rewrite Hcnt; unfold RATE_LIMIT_MSG; cbn; lia |].
      exists w6. rewrite chats_app, Hrun. cbn [chats]. rewrite Hstep.
      split; [reflexivity |]. rewrite Hs6. split; [reflexivity |].
      split; [| exact Hh6]. cbn [written destroy]. now apply written_write.
    + intros now text more Hnow Hlen' Hwin'.
      destruct (rateStep_spec now c5) as (Hn6 & _ & _ & _ & Hreset & _).
      destruct (Hreset Hnow) as (Hstart & Hcnt).
      destruct (onParsed_accept s text now w5 c5 Hl5)
        as (w6 & Hstep & Hc6 & _ & Hh6 & _);
        [rewrite Hcnt; unfold RATE_LIMIT_MSG; lia |].
      destruct (chats_within s more w6 (rateStep now c5))
        as (w10 & Hrun' & Hc10 & _ & Hh10 & _).
      * rewrite Hc6. apply lookup_insert_eq.
      * now rewrite Hstart.
      * rewrite Hcnt, Hlen'. unfold RATE_LIMIT_MSG. lia.
      * exists w10. rewrite chats_app, Hrun. cbn [chats]. rewrite Hstep.
        split; [exact Hrun' |]. split.
        -- rewrite Hc10, lookup_insert_eq, Hcnt, Hstart, Hlen'.
           unfold c5, rateStep. destruct c. cbn.
           destruct (RATE_LIMIT_WIN <? now - rateStart)%Z; reflexivity.
        -- rewrite relayed_app, (relayed_cons _ (now, text) more), !pushAll_app.
           rewrite Hh10, Hh6, Hh5, Hn6. reflexivity.
Qed.

(** C10. A well-formed chat message whose text trims to the empty string
    is neither put in the history nor written to any socket, but it is
    counted by the rate limiter first: six of them in one window destroy
    the socket. *)
Theorem empty_message_counts :
  forall (s : SockId) (w : World) (c : Client.t),
    clients w !! s = Some c ->
    (forall (now : Z) (text : jsstring),
        trim text = [] ->
        let c' := rateStep now c in
        Client.rateCount c'
        = (if (RATE_LIMIT_WIN <? now - Client.rateStart c)%Z
           then 1%nat else S (Client.rateCount c))
        /\ ((Client.rateCount c' <= RATE_LIMIT_MSG)%nat ->
            exists w',
              onParsed s (chatObj text) now w = Continue w'
              /\ clients w' !! s = Some c'
              /\ history w' = history w
              /\ sockets w' = sockets w)
        /\ ((RATE_LIMIT_MSG < Client.rateCount c')%nat ->
            exists w',
              onParsed s (chatObj text) now w = Return w'
              /\ history w' = history w
              /\ forall x, x <> s -> sock w' x = sock w x))
    /\ (Client.rateCount c = 0%nat -> destroyed (sock w s) = false ->
        forall msgs : list (Z * jsstring),
          length msgs = 6%nat -> withinWindow (Client.rateStart c) msgs ->
          Forall (fun m => trim (snd m) = []) msgs ->
          exists w6 now,
            chats s msgs w = Return w6
            /\ destroyed (sock w6 s) = true
            /\ written (sock w6 s)
               = written (sock w s) ++ [WJson (rateWarning now)]
            /\ history w6 = history w
            /\ forall x, x <> s -> sock w6 x = sock w x).
Proof.
  intros s w c Hc. split.
  - intros now text Hempty c'. split; [| split].
    + unfold c', rateStep.
      now destruct (RATE_LIMIT_WIN <? now - Client.rateStart c)%Z.
    + intros Hok. rewrite (onParsed_chat s text now w c Hc). cbv zeta.
      destruct (Nat.ltb_spec RATE_LIMIT_MSG (Client.rateCount (rateStep now c)));
        [unfold c' in Hok; lia |].
      unfold chatText. rewrite Hempty. cbn [slice0 firstn falsy].
      eexists. split; [reflexivity |].
      split; [apply lookup_insert_eq |]. split; reflexivity.
    + intros Hover.
      destruct (onParsed_kick s text now w c Hc Hover)
        as (w' & Hstep & _ & Hh & _ & Hother).
      exists w'. split; [exact Hstep |]. split; assumption.
  - intros Hzero Hlive msgs Hlen Hwin Hempty.
    destruct msgs as [| m1 [| m2 [| m3 [| m4 [| m5 [| [now text] [| ? ?]]]]]]];
      try discriminate.
    change [m1; m2; m3; m4; m5; (now, text)]
      with ([m1; m2; m3; m4; m5] ++ [(now, text)]) in *.
    apply Forall_app in Hwin as [Hwin5 Hwin6].
    apply Forall_app in Hempty as [Hempty5 _].
    apply Forall_inv in Hwin6. cbn [fst] in Hwin6.
    destruct (chats_within s [m1; m2; m3; m4; m5] w c Hc Hwin5)
      as (w5 & Hrun & Hc5 & _ & Hh5 & Hs5);
      [rewrite Hzero; unfold RATE_LIMIT_MSG; cbn; lia |].
    rewrite (relayed_empty _ _ Hempty5) in Hh5, Hs5. cbn in Hh5.
    assert (Hsock : forall x, sock w5 x = sock w x)
      by (intros x; rewrite Hs5; cbn; now destruct (bool_decide _)).
    rewrite Hzero in Hc5. cbn [Nat.add length] in Hc5.
    set (c5 := Client.set_rate 5 (Client.rateStart c) c) in *.
    assert (Hl5 : clients w5 !! s = Some c5)
      by (rewrite Hc5; apply lookup_insert_eq).
    destruct (rateStep_spec now c5) as (_ & _ & _ & _ & _ & Hstay).
    destruct (Hstay Hwin6) as (_ & Hcnt).
    destruct (onParsed_kick s text now w5 c5 Hl5)
      as (w6 & Hstep & _ & Hh6 & Hs6 & Hother);
      [rewrite Hcnt; unfold RATE_LIMIT_MSG; cbn; lia |].
    exists w6, now. rewrite chats_app, Hrun. cbn [chats]. rewrite Hstep.
    split; [reflexivity |]. rewrite Hs6, Hsock.
    split; [reflexivity |]. split; [cbn [written destroy]; now apply written_write |].
    split; [congruence |].
    intros x Hx. now rewrite Hother, Hsock.
Qed.

Ltac in_window :=
  unfold withinWindow;
  repeat (apply List.Forall_cons; [unfold RATE_LIMIT_WIN; cbn; lia |]);
  apply List.Forall_nil.

Lemma rate_limit_window_witness :
  (exists w6, chats 1%nat (fiveHi ++ [(600%Z, js "again")]) oneBob = Return w6
              /\ destroyed (sock w6 1%nat) = true)
  /\ (exists w10,
         chats 1%nat (fiveHi ++ (1001%Z, js "a")
                        :: [(1100%Z, js "b"); (1200%Z, js "c");
                            (1300%Z, js "d"); (2001%Z, js "e")]) oneBob
         = Continue w10
         /\ clients w10 !! 1%nat = Some (Client.set_rate 5 1001%Z bobClient)).
Proof.
  destruct (rate_limit_window 1%nat oneBob bobClient) as (_ & Hscen);
    [vm_compute; reflexivity | vm_compute; reflexivity |].
  destruct (Hscen eq_refl fiveHi) as (w5 & _ & _ & _ & _ & Hkick & Hnext);
    [reflexivity | in_window |].
  split.
  - destruct (Hkick 600%Z (js "again")) as (w6 & H1 & H2 & _);
      [unfold RATE_LIMIT_WIN; cbn; lia |].
    exists w6. split; assumption.
  - destruct (Hnext 1001%Z (js "a")
                    [(1100%Z, js "b"); (1200%Z, js "c");
                     (1300%Z, js "d"); (2001%Z, js "e")])
      as (w10 & H1 & H2 & _);
      [unfold RATE_LIMIT_WIN; cbn; lia | reflexivity | in_window |].
    exists w10. split; assumption.
Defined.

Lemma empty_message_counts_witness :
  exists w6 now,
    chats 1%nat sixBlank oneBob = Return w6
    /\ destroyed (sock w6 1%nat) = true
    /\ written (sock w6 1%nat)
       = written (sock oneBob 1%nat) ++ [WJson (rateWarning now)]
    /\ history w6 = history oneBob.
Proof.
  destruct (empty_message_counts 1%nat oneBob bobClient) as (_ & Hscen);
    [vm_compute; reflexivity |].
  destruct (Hscen eq_refl) with (msgs := sixBlank)
    as (w6 & now & H1 & H2 & H3 & H4 & _);
    [vm_compute; reflexivity | reflexivity | in_window
     | repeat (apply List.Forall_cons; [reflexivity |]); apply List.Forall_nil |].
  exists w6, now. repeat split; assumption.
Defined.

(* ---------------------------------------------------------------------- *)
(** ** Teardown *)

Lemma clients_onSocket f s w : clients (onSocket f s w) = clients w.
Proof. reflexivity. Qed.

Lemma sock_onClient f s w x : sock (onClient f s w) x = sock w x.
Proof. reflexivity. Qed.

Lemma sock_set_clients m w x : sock (set_clients m w) x = sock w x.
Proof. reflexivity. Qed.

Lemma keepaliveEntry_spec w k c :
  clients w !! k = Some c ->
  let w1 := keepaliveEntry w (k, c) in
  history w1 = history w /\ nextId w1 = nextId w
  /\ clients w1 !! k = fst (afterTick (sock w k) c)
  /\ sock w1 k = snd (afterTick (sock w k) c)
  /\ forall x, x <> k -> clients w1 !! x = clients w !! x /\ sock w1 x = sock w x.
Proof.
  intros Hc. cbv zeta. unfold keepaliveEntry, afterTick.
  destruct (destroyed (sock w k)) eqn:Ed; [| destruct (Client.alive c) eqn:Ea];
    cbn [negb fst snd].
  - do 2 (split; [reflexivity |]). split; [apply lookup_delete_eq |].
    split; [reflexivity |]. intros x Hx.
    split; [now apply lookup_delete_ne | reflexivity].
  - do 2 (split; [reflexivity |]). rewrite clients_onSocket.
    split; [unfold onClient; cbn [clients set_clients];
            now rewrite lookup_alter_eq, Hc |].
    split; [now rewrite sock_onSocket_eq, sock_onClient |]. intros x Hx.
    split; [unfold onClient; cbn [clients set_clients];
            now apply lookup_alter_ne |].
    rewrite sock_onSocket_ne by congruence. apply sock_onClient.
  - do 2 (split; [reflexivity |]). cbn [clients set_clients].
    split; [apply lookup_delete_eq |].
    rewrite !sock_set_clients.
    split; [apply (sock_onSocket_eq destroy) |]. intros x Hx.
    split; [now apply lookup_delete_ne |].
    apply (sock_onSocket_ne destroy). congruence.
Qed.

Lemma keepalive_fold l : forall w,
  NoDup l.*1 ->
  (forall k c, (k, c) ∈ l -> clients w !! k = Some c) ->
  let w' := foldl keepaliveEntry w l in
  history w' = history w /\ nextId w' = nextId w
  /\ forall x,
       (x ∉ l.*1 -> clients w' !! x = clients w !! x /\ sock w' x = sock w x)
       /\ (forall c, (x, c) ∈ l ->
             clients w' !! x = fst (afterTick (sock w x) c)
             /\ sock w' x = snd (afterTick (sock w x) c)).
Proof.
  induction l as [| [k c] l IH]; intros w Hnd Hin; cbn [foldl].
  - cbv zeta. do 2 (split; [reflexivity |]). intros x. split; [now split |].
    intros c Hc. now apply elem_of_nil in Hc.
  - cbn [fmap list_fmap fst] in Hnd. apply NoDup_cons in Hnd as [Hk Hnd].
    assert (Hkc : clients w !! k = Some c) by (apply Hin; left).
    destruct (keepaliveEntry_spec w k c Hkc) as (Hh1 & Hn1 & Hc1 & Hs1 & Hx1).
    cbv zeta in *. set (w1 := keepaliveEntry w (k, c)) in *.
    destruct (IH w1 Hnd) as (Hh & Hn & Hx).
    { intros k' c' Hin'. assert (k' <> k).
      { intros ->. apply Hk. apply list_elem_of_fmap. now exists (k, c'). }
      rewrite (proj1 (Hx1 k' H)). apply Hin. now right. }
    split; [congruence |]. split; [congruence |].
    intros x. destruct (Hx x) as (Hout & Hinl). split.
    + intros Hnot. apply not_elem_of_cons in Hnot as [Hne Hnot].
      destruct (Hout Hnot) as (-> & ->). now apply Hx1.
    + intros c' Hc'. apply elem_of_cons in Hc' as [[= -> ->] | Hc'].
      * destruct (Hout Hk) as (-> & ->). now split.
      * assert (x <> k).
        { intros ->. apply Hk. apply list_elem_of_fmap. now exists (k, c'). }
        destruct (Hinl c' Hc') as (-> & ->).
        now rewrite (proj2 (Hx1 x H)).
Qed.

Lemma keepalive_spec w :
  let w' := keepalive w in
  history w' = history w /\ nextId w' = nextId w
  /\ forall x,
       match clients w !! x with
       | Some c => clients w' !! x = fst (afterTick (sock w x) c)
                   /\ sock w' x = snd (afterTick (sock w x) c)
       | None => clients w' !! x = None /\ sock w' x = sock w x
       end.
Proof.
  destruct (keepalive_fold (map_to_list (clients w)) w) as (Hh & Hn & Hx).
  - apply NoDup_fst_map_to_list.
  - intros k c. apply elem_of_map_to_list.
  - cbv zeta. fold (keepalive w) in *.
    split; [exact Hh |]. split; [exact Hn |].
    intros x. destruct (Hx x) as (Hout & Hin).
    destruct (clients w !! x) as [c |] eqn:E.
    + apply Hin. now apply elem_of_map_to_list.
    + destruct Hout as (-> & ->); [| now split].
      intros Hmem. apply list_elem_of_fmap in Hmem as ([k c] & -> & Hmem).
      apply elem_of_map_to_list in Hmem. cbn in E. congruence.
Qed.

Lemma onClose_unregistered s now w : clients w !! s = None -> onClose s now w = w.
Proof. intros H. unfold onClose. now rewrite H. Qed.

Lemma onClose_registered s now w c :
  clients w !! s = Some c ->
  let leaveMsg := System (Client.nick c ++ js " left") now
                         (Some (size (clients w) - 1)%nat) in
  let w' := onClose s now w in
  clients w' = delete s (clients w)
  /\ nextId w' = nextId w
  /\ history w' = addToHistory leaveMsg (history w)
  /\ forall x, sock w' x =
               if bool_decide (is_Some (clients w !! x) /\ x <> s)
               then write (WJson leaveMsg) (sock w x) else sock w x.
Proof.
  intros Hc. cbv zeta. unfold onClose. rewrite Hc.
  rewrite broadcast_clients, broadcast_nextId, broadcast_history.
  cbn [clients history nextId set_clients set_history].
  assert (Hsz : size (delete s (clients w)) = (size (clients w) - 1)%nat)
    by (rewrite map_size_delete_Some by eauto; lia).
  rewrite Hsz.
  do 3 (split; [reflexivity |]).
  intros x. rewrite sock_broadcast. cbn [clients set_history set_clients].
  rewrite (bool_decide_ext (is_Some (delete s (clients w) !! x))
                           (is_Some (clients w !! x) /\ x <> s));
    [reflexivity |].
  rewrite lookup_delete_is_Some. split; intros [? ?]; split; congruence.
Qed.

Lemma onClose_idempotent s now now' w :
  onClose s now' (onClose s now w) = onClose s now w.
Proof.
  apply onClose_unregistered.
  destruct (clients w !! s) as [c |] eqn:E.
  - destruct (onClose_registered s now w c E) as (-> & _).
    apply lookup_delete_eq.
  - now rewrite onClose_unregistered.
Qed.

(** The ['close'] listener of a registered connection: the entry leaves
    the registry and the others are told, with the count after removal. *)
Example close_broadcasts_leave :
  clients bobCloses !! 1%nat = None
  /\ history bobCloses
     = [System (js "Bob joined") 0 (Some 1%nat);
        System (js "Al joined") 1 (Some 2%nat);
        System (js "Bob left") 5000 (Some 1%nat)]
  /\ List.last (written (sock bobCloses 2%nat)) (WRaw [])
     = WJson (System (js "Bob left") 5000 (Some 1%nat)).
Proof. vm_compute. repeat split. Qed.

(** C1 (as the code behaves). A registered connection whose liveness flag
    is down when the keepalive timer fires is destroyed and deleted from
    the registry by the timer callback itself; when ['close'] then fires,
    [onClose] finds the entry gone and returns: the history is unchanged
    and no socket is written to, so no leave message is ever broadcast
    for a connection that timed out. *)
Theorem timeout_teardown_without_leave :
  forall (JSON_parse : Buffer -> option json) (s : SockId) (w : World)
         (c : Client.t) (now now' : Z),
    clients w !! s = Some c -> Client.alive c = false ->
    destroyed (sock w s) = false ->
    exists w1 w2,
      step JSON_parse now Tick w = Some w1
      /\ clients w1 !! s = None
      /\ destroyed (sock w1 s) = true
      /\ history w1 = history w
      /\ step JSON_parse now' (Close s) w1 = Some w2
      /\ clients w2 = clients w1
      /\ history w2 = history w
      /\ forall x, written (sock w2 x) = written (sock w1 x).
Proof.
  intros JSON_parse s w c now now' Hc Halive Hlive.
  destruct (keepalive_spec w) as (Hh & _ & Hx). cbv zeta in *.
  specialize (Hx s). rewrite Hc in Hx. unfold afterTick in Hx.
  rewrite Hlive, Halive in Hx. cbn [fst snd] in Hx. destruct Hx as (Hc1 & Hs1).
  exists (keepalive w). cbn [step].
  assert (Hgone : forall f g,
             onClose s now' (onSocket f s (onSocket g s (keepalive w)))
             = onSocket f s (onSocket g s (keepalive w)))
    by (intros f g; apply onClose_unregistered; exact Hc1).
  assert (Hw : forall x,
             written (sock (onSocket destroy s (keepalive w)) x)
             = written (sock (keepalive w) x)).
  { intros x. rewrite sock_onSocket.
    destruct (decide (s = x)) as [<- |]; reflexivity. }
  destruct (onceClose (sock (onSocket destroy s (keepalive w)) s)).
  - eexists. split; [reflexivity |]. split; [exact Hc1 |].
    split; [now rewrite Hs1 |]. split; [exact Hh |].
    split; [reflexivity |]. rewrite Hgone.
    split; [reflexivity |]. split; [exact Hh |].
    intros x. rewrite <- Hw, (sock_onSocket detachClose).
    destruct (decide (s = x)) as [<- |]; reflexivity.
  - eexists. split; [reflexivity |]. split; [exact Hc1 |].
    split; [now rewrite Hs1 |]. split; [exact Hh |].
    split; [reflexivity |].
    split; [reflexivity |]. split; [exact Hh |]. exact Hw.
Qed.

Lemma timeout_teardown_without_leave_witness :
  exists w1 w2,
    step noJson 60000%Z Tick bobSilent = Some w1
    /\ clients w1 !! 1%nat = None
    /\ destroyed (sock w1 1%nat) = true
    /\ history w1 = history bobSilent
    /\ step noJson 60002%Z (Close 1%nat) w1 = Some w2
    /\ clients w2 = clients w1
    /\ history w2 = history bobSilent
    /\ forall x, written (sock w2 x) = written (sock w1 x).
Proof.
  apply (timeout_teardown_without_leave noJson 1%nat bobSilent
           (Client.mk 1 (js "Bob") false [] 0 0)); vm_compute; reflexivity.
Defined.

(** The same run evaluated: "Bob" is gone, "Al" stays, and the history
    holds the two joins and nothing else. *)
Example timeout_run :
  exists w,
    run noJson [(60000%Z, Tick); (60002%Z, Close 1%nat)] bobSilent = Some w
    /\ clients w !! 1%nat = None
    /\ nickOf w 2%nat = Some (js "Al")
    /\ history w = [System (js "Bob joined") 0 (Some 1%nat);
                    System (js "Al joined") 1 (Some 2%nat)]
    /\ List.filter (fun x => match x with WJson (System _ _ _) => true | _ => false end)
                   (written (sock w 2%nat))
       = [WJson (System (js "Al joined") 1 (Some 2%nat))].
Proof.
  eexists. split; [vm_compute; reflexivity |]. vm_compute. repeat split.
Qed.

(* ---------------------------------------------------------------------- *)
(** ** The data handler *)

Lemma frameNeeds_ge2 buf : 2 <= frameNeeds buf.
Proof.
  unfold frameNeeds.
  repeat match goal with
         | |- context [if ?b then _ else _] => destruct b
         end; lia.
Qed.

Lemma bufLen_broadcast obj ex w x : bufLen (broadcast obj ex w) x = bufLen w x.
Proof. unfold bufLen. now rewrite broadcast_clients. Qed.

Lemma bufLen_insert s c c' w :
  clients w !! s = Some c -> Client.buf c' = Client.buf c ->
  bufLen (set_clients (<[s := c']> (clients w)) w) s = bufLen w s.
Proof.
  intros Hc Hb. unfold bufLen. cbn [clients set_clients].
  now rewrite lookup_insert_eq, Hc, Hb.
Qed.

Lemma bufLen_onClient f s w :
  (forall c, Client.buf (f c) = Client.buf c) ->
  bufLen (onClient f s w) s = bufLen w s.
Proof.
  intros Hf. unfold bufLen, onClient. cbn [clients set_clients].
  rewrite lookup_alter_eq. destruct (clients w !! s); cbn; [now rewrite Hf | reflexivity].
Qed.

Lemma rateStep_buf now c : Client.buf (rateStep now c) = Client.buf c.
Proof. unfold rateStep. now destruct (_ <? _)%Z. Qed.

(** The text branch leaves the buffer of the connection alone. *)
Lemma onParsed_buf s parsed now w w' :
  onParsed s parsed now w = Continue w' -> bufLen w' s = bufLen w s.
Proof.
  unfold onParsed.
  destruct (clients w !! s) as [c |] eqn:Hc.
  2: { destruct parsed; intros [= <-] || discriminate; reflexivity. }
  assert (Hchat : forall text,
    (if (RATE_LIMIT_MSG <? Client.rateCount (rateStep now c))%nat
     then Return (onSocket destroy s
                    (send s (System (js "Rate limit exceeded. Disconnecting.") now None)
                       (set_clients (<[s := rateStep now c]> (clients w)) w)))
     else if falsy (slice0 MAX_MSG_LEN (trim text))
          then Continue (set_clients (<[s := rateStep now c]> (clients w)) w)
          else Continue
                 (broadcast (Chat (Client.nick (rateStep now c))
                                  (slice0 MAX_MSG_LEN (trim text)) now) None
                    (set_history
                       (addToHistory (Chat (Client.nick (rateStep now c))
                                           (slice0 MAX_MSG_LEN (trim text)) now)
                          (history (set_clients (<[s := rateStep now c]> (clients w)) w)))
                       (set_clients (<[s := rateStep now c]> (clients w)) w))))
    = Continue w' -> bufLen w' s = bufLen w s).
  { intros text. destruct (_ <? _)%nat; [discriminate |].
    destruct (falsy _); intros [= <-].
    - apply (bufLen_insert s c); [exact Hc | apply rateStep_buf].
    - rewrite bufLen_broadcast.
      apply (bufLen_insert s c); [exact Hc | apply rateStep_buf]. }
  assert (Hping :
    (if isStr (getProp parsed (js "type")) (js "ping")
     then Continue (onClient (Client.set_alive true) s w) else Continue w)
    = Continue w' -> bufLen w' s = bufLen w s).
  { destruct (isStr _ _); intros [= <-]; [| reflexivity].
    now apply bufLen_onClient. }
  destruct parsed; try discriminate;
    destruct (isStr _ (js "message")); try exact Hping;
    destruct (getProp _ (js "text")) as [[] |]; try exact Hping;
    apply Hchat.
Qed.

Lemma frames_fuel JSON_parse fuel : forall fuel' s now w,
  (bufLen w s < fuel)%nat -> (fuel <= fuel')%nat ->
  frames JSON_parse fuel' s now w = frames JSON_parse fuel s now w.
Proof.
  induction fuel as [| fuel IH]; intros fuel' s now w Hlen Hle; [lia |].
  destruct fuel' as [| fuel']; [lia |]. cbn [frames].
  destruct (clients w !! s) as [c |] eqn:Hc; [| reflexivity].
  destruct (length (Client.buf c) <? 2)%nat; [reflexivity |].
  destruct (parseFrame (Client.buf c)) as [f |] eqn:Hp; [| reflexivity].
  destruct (parseFrame_Some _ _ Hp) as (Hin & Hneeds & _).
  pose proof (frameNeeds_ge2 (Client.buf c)) as H2.
  set (w1 := onClient (Client.set_buf (sliceFrom (Client.buf c) (totalLength f))) s w).
  assert (Hw1 : (bufLen w1 s < fuel)%nat).
  { unfold bufLen, w1, onClient in *. cbn [clients set_clients].
    rewrite lookup_alter_eq, Hc in *. cbn. unfold sliceFrom.
    rewrite length_skipn. lia. }
  destruct (opcode f =? 8); [reflexivity |].
  destruct (opcode f =? 9); [apply IH; [exact Hw1 | lia] |].
  destruct (opcode f =? 10).
  { apply IH; [| lia]. now rewrite bufLen_onClient. }
  destruct ((opcode f =? 1) || (opcode f =? 0)); [| apply IH; [exact Hw1 | lia]].
  destruct (JSON_parse (payload f)) as [parsed |]; [| apply IH; [exact Hw1 | lia]].
  destruct (onParsed s parsed now w1) as [w2 | |] eqn:Ho; [| reflexivity ..].
  apply IH; [| lia]. now rewrite (onParsed_buf _ _ _ _ _ Ho).
Qed.

Lemma onClient_id f s w c :
  clients w !! s = Some c -> f c = c -> onClient f s w = w.
Proof.
  intros Hc Hf. unfold onClient. destruct w as [cl n h so]. cbn in *.
  unfold set_clients. cbn. f_equal.
  apply map_eq. intros i. rewrite lookup_alter.
  case_decide as Hd; [subst i | reflexivity].
  rewrite Hc. cbn. now rewrite Hf.
Qed.

Lemma onClient_twice f g s w :
  onClient f s (onClient g s w) = onClient (fun c => f (g c)) s w.
Proof.
  unfold onClient, set_clients. cbn. f_equal.
  apply map_eq. intros i. rewrite !lookup_alter.
  repeat case_decide; try congruence. subst i.
  now destruct (clients w !! s).
Qed.

(** A chunk that is exactly one text frame, on a connection with nothing
    buffered: the data handler does what the text branch does. *)
Lemma onDataChunk_text JSON_parse s chunk now w c f parsed :
  clients w !! s = Some c -> Client.buf c = [] ->
  parseFrame chunk = Some f -> totalLength f = length chunk ->
  opcode f = 1 -> JSON_parse (payload f) = Some parsed ->
  onDataChunk JSON_parse s chunk now w = onParsed s parsed now w.
Proof.
  intros Hc Hb Hp Hall Hop Hj. unfold onDataChunk. rewrite Hc, Hb.
  cbn [app frames].
  assert (Hl : clients (onClient (Client.set_buf chunk) s w) !! s
               = Some (Client.set_buf chunk c))
    by (unfold onClient; cbn; now rewrite lookup_alter_eq, Hc).
  rewrite Hl. cbn [Client.buf Client.set_buf].
  destruct (Nat.ltb_spec (length chunk) 2) as [Hshort | _].
  { assert (parseFrame chunk = None); [| congruence].
    apply parseFrame_None. unfold frameNeeds.
    destruct (Nat.ltb_spec (length chunk) 2); lia. }
  rewrite Hp, Hop, Hj. cbn [N.eqb Pos.eqb orb].
  rewrite onClient_twice.
  rewrite (onClient_id _ s w c Hc).
  2: { unfold sliceFrom. rewrite Hall, skipn_all. destruct c. cbn in *. now subst. }
  destruct (onParsed s parsed now w) as [w' | |] eqn:Ho; [| reflexivity ..].
  pose proof (onParsed_buf _ _ _ _ _ Ho) as Hlen.
  unfold bufLen in Hlen. rewrite Hc, Hb in Hlen. cbn in Hlen.
  destruct (length chunk); cbn [frames]; [reflexivity |].
  destruct (clients w' !! s) as [c' |]; [| reflexivity].
  rewrite Hlen. reflexivity.
Qed.

(** The same for the event: a chat message that arrives as one frame is
    handled by the text branch. *)
Lemma step_chat JSON_parse s chunk now w c f text :
  listening (sock w s) = true ->
  clients w !! s = Some c -> Client.buf c = [] ->
  parseFrame chunk = Some f -> totalLength f = length chunk ->
  opcode f = 1 -> JSON_parse (payload f) = Some (chatObj text) ->
  step JSON_parse now (Data s chunk) w
  = match onParsed s (chatObj text) now w with
    | Continue w' | Return w' => Some w'
    | Throw => None
    end.
Proof.
  intros Hl Hc Hb Hp Hall Hop Hj. cbn [step]. rewrite Hl.
  now rewrite (onDataChunk_text JSON_parse s chunk now w c f (chatObj text)).
Qed.

(* ---------------------------------------------------------------------- *)
(** ** The history of every run *)

Lemma enroll_history s nick now w :
  history (enroll s nick now w)
  = addToHistory
      (System (nick ++ js " joined") now
              (Some (size (<[s := Client.mk (nextId w) nick true [] 0 now]>
                             (clients w)))))
      (history w).
Proof.
  unfold enroll. cbv zeta.
  change (history (onSocket ?f ?s0 ?w0)) with (history w0).
  rewrite broadcast_history. cbn [history set_history].
  rewrite send_history, send_clients.
  destruct (history w) eqn:E; cbn [history clients];
    [| rewrite send_history, send_clients; cbn [history clients]];
    reflexivity.
Qed.

Lemma handleUpgrade_bounded s req now w :
  bounded w -> bounded (handleUpgrade s req now w).
Proof.
  unfold bounded, handleUpgrade. intros Hb.
  destruct (_ <=? _)%nat; [exact Hb |].
  destruct (doHandshake (sock w s) req) as [[] k]; cbn [negb]; [| exact Hb].
  rewrite enroll_history. now apply addToHistory_length.
Qed.

Lemma onClose_bounded s now w : bounded w -> bounded (onClose s now w).
Proof.
  unfold bounded. intros Hb.
  destruct (clients w !! s) as [c |] eqn:E.
  - destruct (onClose_registered s now w c E) as (_ & _ & -> & _).
    now apply addToHistory_length.
  - now rewrite onClose_unregistered.
Qed.

Lemma keepalive_bounded w : bounded w -> bounded (keepalive w).
Proof.
  unfold bounded. destruct (keepalive_spec w) as (-> & _). auto.
Qed.

Lemma onParsed_bounded s parsed now w :
  bounded w -> outcomeBounded (onParsed s parsed now w).
Proof.
  unfold bounded. intros Hb. unfold onParsed.
  destruct (clients w !! s) as [c |].
  2: { destruct parsed; cbn; auto. }
  assert (Hchat : forall text,
    outcomeBounded
    (if (RATE_LIMIT_MSG <? Client.rateCount (rateStep now c))%nat
     then Return (onSocket destroy s
                    (send s (System (js "Rate limit exceeded. Disconnecting.") now None)
                       (set_clients (<[s := rateStep now c]> (clients w)) w)))
     else if falsy (slice0 MAX_MSG_LEN (trim text))
          then Continue (set_clients (<[s := rateStep now c]> (clients w)) w)
          else Continue
                 (broadcast (Chat (Client.nick (rateStep now c))
                                  (slice0 MAX_MSG_LEN (trim text)) now) None
                    (set_history
                       (addToHistory (Chat (Client.nick (rateStep now c))
                                           (slice0 MAX_MSG_LEN (trim text)) now)
                          (history (set_clients (<[s := rateStep now c]> (clients w)) w)))
                       (set_clients (<[s := rateStep now c]> (clients w)) w))))).
  { intros text. destruct (_ <? _)%nat; cbn [outcomeBounded]; unfold bounded.
    - change (history (onSocket ?f ?s0 ?w0)) with (history w0).
      now rewrite send_history.
    - destruct (falsy _); cbn [outcomeBounded]; unfold bounded; [exact Hb |].
      rewrite broadcast_history. now apply addToHistory_length. }
  assert (Hping : outcomeBounded
    (if isStr (getProp parsed (js "type")) (js "ping")
     then Continue (onClient (Client.set_alive true) s w) else Continue w)).
  { destruct (isStr _ _); exact Hb. }
  destruct parsed; try exact I;
    destruct (isStr _ (js "message")); try exact Hping;
    destruct (getProp _ (js "text")) as [[] |]; try exact Hping;
    apply Hchat.
Qed.

Lemma frames_bounded JSON_parse fuel : forall s now w,
  bounded w -> outcomeBounded (frames JSON_parse fuel s now w).
Proof.
  induction fuel as [| fuel IH]; intros s now w Hb; cbn [frames].
  - destruct (clients w !! s); exact Hb.
  - destruct (clients w !! s) as [c |]; [| exact Hb].
    destruct (_ <? _)%nat; [exact Hb |].
    destruct (parseFrame _) as [f |]; [| exact Hb].
    destruct (opcode f =? 8); [exact Hb |].
    destruct (opcode f =? 9); [now apply IH |].
    destruct (opcode f =? 10); [now apply IH |].
    destruct (_ || _); [| now apply IH].
    destruct (JSON_parse _) as [parsed |]; [| now apply IH].
    match goal with
    | |- context [onParsed ?a ?b ?c ?d] =>
      pose proof (onParsed_bounded a b c d Hb) as Ho;
        destruct (onParsed a b c d)
    end; [now apply IH | exact Ho | exact I].
Qed.

Lemma step_bounded JSON_parse now e w w' :
  step JSON_parse now e w = Some w' -> bounded w -> bounded w'.
Proof.
  destruct e as [s req | s chunk | s | s |]; cbn [step]; intros H Hb.
  - injection H as <-. now apply handleUpgrade_bounded.
  - destruct (listening _); [| now injection H as <-].
    unfold onDataChunk in H. destruct (clients w !! s) as [c |].
    + match type of H with
      | context [frames ?p ?f ?a ?b ?c] =>
        pose proof (frames_bounded p f a b c Hb) as Ho;
          destruct (frames p f a b c)
      end; [injection H as <-; exact Ho ..| discriminate].
    + now injection H as <-.
  - destruct (onceError _); injection H as <-; [| exact Hb].
    now apply onClose_bounded.
  - destruct (onceClose _); injection H as <-; [| exact Hb].
    now apply onClose_bounded.
  - injection H as <-. now apply keepalive_bounded.
Qed.

Lemma run_bounded JSON_parse es : forall w w',
  run JSON_parse es w = Some w' -> bounded w -> bounded w'.
Proof.
  induction es as [| [now e] es IH]; intros w w' H Hb; cbn [run] in H.
  - now injection H as <-.
  - destruct (step JSON_parse now e w) as [w1 |] eqn:E; [| discriminate].
    apply (IH w1 w' H). now apply (step_bounded JSON_parse now e w).
Qed.

(** C4. The history never holds more than 50 entries; it keeps the order
    of insertion and evicts the oldest entry first: after any sequence of
    appends to the empty history it holds the last 50 messages appended,
    in order; one append puts the message last and drops at most the
    oldest entry; after 51 numbered messages it holds messages 2 to 51;
    and whatever events the server has handled since it started, its
    history holds at most 50 entries. *)
Theorem history_bounded_fifo :
  (forall msgs : list Message,
      (length (pushAll msgs []) <= 50)%nat
      /\ pushAll msgs [] = skipn (length msgs - 50) msgs)
  /\ (forall (h : list Message) (m : Message),
         exists evicted : list Message,
           (length evicted <= 1)%nat /\ h ++ [m] = evicted ++ addToHistory m h)
  /\ pushAll (numbered 1 51) [] = numbered 2 50
  /\ (forall (JSON_parse : Buffer -> option json) (es : list (Z * Event))
             (w : World),
         run JSON_parse es initial = Some w -> (length (history w) <= 50)%nat).
Proof.
  split; [exact pushAll_last |]. split.
  - intros h m. unfold addToHistory.
    destruct (MAX_HISTORY <? length (h ++ [m]))%nat.
    + destruct (h ++ [m]) as [| x r]; [exists [] | exists [x]];
        (split; [simpl; lia | reflexivity]).
    + exists []. split; [simpl; lia | reflexivity].
  - split; [vm_compute; reflexivity |].
    intros JSON_parse es w Hrun.
    apply (run_bounded JSON_parse es initial w Hrun).
    unfold bounded. simpl. lia.
Qed.

Lemma history_bounded_fifo_witness :
  exists w, threeBobs = Some w /\ (length (history w) <= 50)%nat.
Proof.
  destruct history_bounded_fifo as (_ & _ & _ & Hrun).
  destruct threeBobs as [w |] eqn:E; [| vm_compute in E; discriminate].
  exists w. split; [reflexivity |].
  apply (Hrun noJson (upgrades 3) w). exact E.
Defined.

(* ---------------------------------------------------------------------- *)
(** ** Every listening socket is registered *)

Lemma extends_refl w : extends w w.
Proof. split; auto. Qed.

Lemma extends_trans w1 w2 w3 : extends w1 w2 -> extends w2 w3 -> extends w1 w3.
Proof. intros [A B] [C D]. split; auto. Qed.

Lemma extends_covers w w' : extends w w' -> registryCovers w -> registryCovers w'.
Proof. intros [A B] H s Hs. auto. Qed.

Lemma listening_write x k : listening (write x k) = listening k.
Proof. unfold listening, write. now destruct (destroyed k) eqn:E; cbn; rewrite ?E. Qed.

Lemma listening_destroy k : listening (destroy k) = false.
Proof. unfold listening. cbn. apply andb_false_r. Qed.

Lemma extends_onSocket f s w :
  (listening (f (sock w s)) = true -> listening (sock w s) = true) ->
  extends w (onSocket f s w).
Proof.
  intros Hf. split; [auto |]. intros x. rewrite sock_onSocket.
  destruct (decide (s = x)) as [<- |]; auto.
Qed.

Lemma extends_send s obj w : extends w (send s obj w).
Proof.
  split; [now rewrite send_clients |]. intros x. rewrite sock_send.
  destruct (decide (s = x)) as [<- |]; [| auto]. now rewrite listening_write.
Qed.

Lemma extends_broadcast obj w : extends w (broadcast obj None w).
Proof.
  split; [now rewrite broadcast_clients |]. intros x. rewrite sock_broadcast.
  destruct (bool_decide _); [| auto]. now rewrite listening_write.
Qed.

Lemma extends_insert s c w :
  extends w (set_clients (<[s := c]> (clients w)) w).
Proof.
  split; [| auto]. intros x Hx. cbn. rewrite lookup_insert_is_Some.
  destruct (decide (s = x)); auto.
Qed.

Lemma extends_set_history h w : extends w (set_history h w).
Proof. split; auto. Qed.

Lemma extends_onClient f s w : extends w (onClient f s w).
Proof.
  split; [| auto]. intros x Hx. unfold onClient. cbn.
  now rewrite lookup_alter_is_Some.
Qed.

Lemma onParsed_extends s parsed now w : outcomeExtends w (onParsed s parsed now w).
Proof.
  unfold onParsed.
  destruct (clients w !! s) as [c |].
  2: { destruct parsed; cbn; auto using extends_refl. }
  assert (Hchat : forall text,
    outcomeExtends w
    (if (RATE_LIMIT_MSG <? Client.rateCount (rateStep now c))%nat
     then Return (onSocket destroy s
                    (send s (System (js "Rate limit exceeded. Disconnecting.") now None)
                       (set_clients (<[s := rateStep now c]> (clients w)) w)))
     else if falsy (slice0 MAX_MSG_LEN (trim text))
          then Continue (set_clients (<[s := rateStep now c]> (clients w)) w)
          else Continue
                 (broadcast (Chat (Client.nick (rateStep now c))
                                  (slice0 MAX_MSG_LEN (trim text)) now) None
                    (set_history
                       (addToHistory (Chat (Client.nick (rateStep now c))
                                           (slice0 MAX_MSG_LEN (trim text)) now)
                          (history (set_clients (<[s := rateStep now c]> (clients w)) w)))
                       (set_clients (<[s := rateStep now c]> (clients w)) w))))).
  { intros text. pose proof (extends_insert s (rateStep now c) w) as Hi.
    destruct (_ <? _)%nat; cbn [outcomeExtends].
    - eapply extends_trans; [exact Hi |].
      eapply extends_trans; [apply extends_send |].
      apply extends_onSocket. now rewrite listening_destroy.
    - destruct (falsy _); cbn [outcomeExtends]; [exact Hi |].
      eapply extends_trans; [exact Hi |].
      eapply extends_trans; [| apply extends_broadcast].
      apply extends_set_history. }
  assert (Hping : outcomeExtends w
    (if isStr (getProp parsed (js "type")) (js "ping")
     then Continue (onClient (Client.set_alive true) s w) else Continue w)).
  { destruct (isStr _ _); [apply extends_onClient | apply extends_refl]. }
  destruct parsed; try exact I;
    destruct (isStr _ (js "message")); try exact Hping;
    destruct (getProp _ (js "text")) as [[] |]; try exact Hping;
    apply Hchat.
Qed.

Lemma frames_extends JSON_parse fuel : forall s now w,
  outcomeExtends w (frames JSON_parse fuel s now w).
Proof.
  induction fuel as [| fuel IH]; intros s now w; cbn [frames].
  - destruct (clients w !! s); apply extends_refl.
  - destruct (clients w !! s) as [c |]; [| apply extends_refl].
    destruct (_ <? _)%nat; [apply extends_refl |].
    destruct (parseFrame _) as [f |]; [| apply extends_refl].
    set (w1 := onClient _ s w).
    assert (H1 : extends w w1) by apply extends_onClient.
    assert (Hstep : forall w2, extends w1 w2 ->
                      outcomeExtends w (frames JSON_parse fuel s now w2)).
    { intros w2 H2. specialize (IH s now w2).
      destruct (frames JSON_parse fuel s now w2); cbn in *; [| | exact I];
        eauto using extends_trans. }
    destruct (opcode f =? 8).
    { cbn. eapply extends_trans; [exact H1 |]. apply extends_onSocket.
      now rewrite listening_destroy. }
    destruct (opcode f =? 9).
    { apply Hstep, extends_onSocket. now rewrite listening_write. }
    destruct (opcode f =? 10); [apply Hstep, extends_onClient |].
    destruct (_ || _); [| apply Hstep, extends_refl].
    destruct (JSON_parse _) as [parsed |]; [| apply Hstep, extends_refl].
    pose proof (onParsed_extends s parsed now w1) as Ho.
    destruct (onParsed s parsed now w1); cbn in *; [| | exact I];
      eauto using extends_trans.
Qed.

Lemma enroll_covers s nick now w :
  registryCovers w -> registryCovers (enroll s nick now w).
Proof.
  intros Hw x Hx. rewrite enroll_clients, lookup_insert_is_Some.
  destruct (decide (s = x)) as [| Hne]; [now left |]. right. split; [exact Hne |].
  apply Hw. revert Hx. unfold enroll. cbv zeta.
  rewrite sock_onSocket_ne by exact Hne.
  rewrite sock_broadcast. destruct (bool_decide _); rewrite ?listening_write;
    change (sock (set_history ?h ?w0) x) with (sock w0 x);
    rewrite sock_send; (destruct (decide (s = x)); [congruence |]);
    (destruct (history w); cbn [history];
     [| rewrite sock_send; destruct (decide (s = x)); [congruence |]]); auto.
Qed.

Lemma handleUpgrade_covers s req now w :
  registryCovers w -> registryCovers (handleUpgrade s req now w).
Proof.
  intros Hw. unfold handleUpgrade.
  destruct (_ <=? _)%nat.
  { eapply extends_covers; [| exact Hw]. apply extends_onSocket.
    now rewrite listening_destroy. }
  unfold doHandshake.
  assert (Hno : registryCovers (onSocket (fun _ => destroy (sock w s)) s w)).
  { eapply extends_covers; [| exact Hw]. apply extends_onSocket.
    now rewrite listening_destroy. }
  destruct (secWebSocketKey req) as [key |]; [| exact Hno].
  destruct (falsy key); [exact Hno |]. cbn [negb].
  apply enroll_covers. eapply extends_covers; [| exact Hw].
  apply extends_onSocket. now rewrite listening_write.
Qed.

Lemma onClose_covers s now w :
  destroyed (sock w s) = true -> registryCovers w -> registryCovers (onClose s now w).
Proof.
  intros Hd Hw. destruct (clients w !! s) as [c |] eqn:E;
    [| now rewrite onClose_unregistered].
  destruct (onClose_registered s now w c E) as (Hc & _ & _ & Hs). cbv zeta in *.
  intros x Hx. rewrite Hc, lookup_delete_is_Some. rewrite Hs in Hx.
  assert (Hl : listening (sock w x) = true)
    by (destruct (bool_decide _); [now rewrite listening_write in Hx | exact Hx]).
  split; [| now apply Hw]. intros ->.
  unfold listening in Hl. rewrite Hd in Hl. now rewrite andb_false_r in Hl.
Qed.

Lemma keepalive_covers w : registryCovers w -> registryCovers (keepalive w).
Proof.
  intros Hw x Hx. destruct (keepalive_spec w) as (_ & _ & Hk). cbv zeta in Hk.
  specialize (Hk x). destruct (clients w !! x) as [c |] eqn:E.
  - destruct Hk as (Hc & Hs). rewrite Hc. rewrite Hs in Hx. unfold afterTick in *.
    destruct (destroyed (sock w x)) eqn:Ed; cbn [fst snd] in *.
    + unfold listening in Hx. rewrite Ed in Hx. now rewrite andb_false_r in Hx.
    + destruct (Client.alive c); cbn [fst snd] in *; [eauto |].
      now rewrite listening_destroy in Hx.
  - destruct Hk as (_ & Hs). rewrite Hs in Hx. specialize (Hw x Hx).
    rewrite E in Hw. now destruct Hw.
Qed.

(** The invariant behind the data handler: whenever Node delivers
    ['data'] for a socket, its connection is in the registry. *)
Lemma step_covers JSON_parse now e w w' :
  step JSON_parse now e w = Some w' -> registryCovers w -> registryCovers w'.
Proof.
  destruct e as [s req | s chunk | s | s |]; cbn [step]; intros H Hw.
  - injection H as <-. now apply handleUpgrade_covers.
  - destruct (listening _); [| now injection H as <-].
    unfold onDataChunk in H. destruct (clients w !! s) as [c |];
      [| now injection H as <-].
    match type of H with
    | context [frames ?p ?f ?a ?b ?c] =>
      pose proof (frames_extends p f a b c) as Ho;
        destruct (frames p f a b c)
    end; [| | discriminate]; injection H as <-; cbn in Ho;
      (eapply extends_covers; [| exact Hw]);
      (eapply extends_trans; [apply extends_onClient | exact Ho]).
  - assert (Hd : registryCovers (onSocket destroy s w)).
    { eapply extends_covers; [| exact Hw]. apply extends_onSocket.
      now rewrite listening_destroy. }
    destruct (onceError _); injection H as <-; [| exact Hd].
    apply onClose_covers.
    + now rewrite !sock_onSocket_eq.
    + eapply extends_covers; [| exact Hd]. now apply extends_onSocket.
  - assert (Hd : registryCovers (onSocket destroy s w)).
    { eapply extends_covers; [| exact Hw]. apply extends_onSocket.
      now rewrite listening_destroy. }
    destruct (onceClose _); injection H as <-; [| exact Hd].
    apply onClose_covers.
    + now rewrite !sock_onSocket_eq.
    + eapply extends_covers; [| exact Hd]. now apply extends_onSocket.
  - injection H as <-. now apply keepalive_covers.
Qed.

Lemma run_covers JSON_parse es : forall w w',
  run JSON_parse es w = Some w' -> registryCovers w -> registryCovers w'.
Proof.
  induction es as [| [now e] es IH]; intros w w' H Hw; cbn [run] in H.
  - now injection H as <-.
  - destruct (step JSON_parse now e w) as [w1 |] eqn:E; [| discriminate].
    apply (IH w1 w' H). now apply (step_covers JSON_parse now e w).
Qed.

Lemma initial_covers : registryCovers initial.
Proof. intros s Hs. vm_compute in Hs. discriminate. Qed.

(** Whatever the server has handled since it started, a socket that can
    still deliver data belongs to a registered connection. *)
Lemma reachable_covers JSON_parse es w :
  run JSON_parse es initial = Some w -> registryCovers w.
Proof.
  intros H. exact (run_covers JSON_parse es initial w H initial_covers).
Qed.

(* ---------------------------------------------------------------------- *)
(** ** Frames in a stream, frames from a client *)

Lemma at_app (buf rest : Buffer) i :
  (i < length buf)%nat -> at_ (buf ++ rest) i = at_ buf i.
Proof. intros H. unfold at_. now rewrite app_nth1. Qed.

Lemma slice_app (buf rest : Buffer) a b :
  (b <= length buf)%nat -> slice (buf ++ rest) a b = slice buf a b.
Proof.
  intros H. unfold slice.
  destruct (Nat.le_gt_cases a b) as [Hab | Hab].
  - rewrite skipn_app, firstn_app, length_skipn.
    replace (b - a - (length buf - a))%nat with 0%nat by lia.
    cbn [firstn]. now rewrite app_nil_r.
  - now replace (b - a)%nat with 0%nat by lia.
Qed.

Lemma parseFrame_app buf rest f :
  parseFrame buf = Some f -> parseFrame (buf ++ rest) = Some f.
Proof.
  unfold parseFrame. rewrite length_app.
  destruct (Nat.ltb_spec (length buf) 2) as [| H2]; [discriminate |].
  destruct (Nat.ltb_spec (length buf + length rest) 2); [lia |].
  rewrite !(at_app buf rest) by lia.
  set (field := N.land (at_ buf 1) 127).
  assert (H16 : (4 <= length buf)%nat ->
                readUInt16BE (buf ++ rest) 2 = readUInt16BE buf 2).
  { intros. unfold readUInt16BE. now rewrite !at_app by lia. }
  assert (H32 : (10 <= length buf)%nat ->
                readUInt32BE (buf ++ rest) 6 = readUInt32BE buf 6).
  { intros. unfold readUInt32BE. now rewrite !at_app by lia. }
  destruct (negb (N.land (at_ buf 1) 128 =? 0));
    destruct (field =? 126);
    [destruct (Nat.ltb_spec (length buf) 4); [discriminate |];
     destruct (Nat.ltb_spec (length buf + length rest) 4); [lia |];
     rewrite H16 by lia
    | destruct (field =? 127);
      [destruct (Nat.ltb_spec (length buf) 10); [discriminate |];
       destruct (Nat.ltb_spec (length buf + length rest) 10); [lia |];
       rewrite H32 by lia |]
    | destruct (Nat.ltb_spec (length buf) 4); [discriminate |];
      destruct (Nat.ltb_spec (length buf + length rest) 4); [lia |];
      rewrite H16 by lia
    | destruct (field =? 127);
      [destruct (Nat.ltb_spec (length buf) 10); [discriminate |];
       destruct (Nat.ltb_spec (length buf + length rest) 10); [lia |];
       rewrite H32 by lia |] ];
    match goal with
    | |- context [N.ltb (N.of_nat (length buf)) ?b] =>
      destruct (N.ltb_spec (N.of_nat (length buf)) b) as [| Hge];
        [discriminate |];
        destruct (N.ltb_spec (N.of_nat (length buf + length rest)) b); [lia |]
    end;
    intros [= <-]; rewrite !slice_app by lia; reflexivity.
Qed.

Lemma b8_to_N b : b8 (Byte.to_N b) = b.
Proof.
  unfold b8. pose proof (Byte.to_N_bounded b).
  rewrite N.mod_small by lia. now rewrite Byte.of_to_N.
Qed.

Lemma lxor_byte a b : a < 256 -> b < 256 -> N.lxor a b < 256.
Proof.
  intros Ha Hb. destruct (N.eq_dec (N.lxor a b) 0) as [-> | Hne]; [lia |].
  change 256 with (2 ^ 8). apply N.log2_lt_pow2; [lia |].
  pose proof (N.log2_lxor a b) as Hl.
  assert (La : N.log2 a < 8).
  { destruct (N.eq_dec a 0) as [-> | ?]; [cbn; lia |].
    apply N.log2_lt_pow2; [lia | exact Ha]. }
  assert (Lb : N.log2 b < 8).
  { destruct (N.eq_dec b 0) as [-> | ?]; [cbn; lia |].
    apply N.log2_lt_pow2; [lia | exact Hb]. }
  lia.
Qed.

Lemma byte_xor_twice a k : byte_xor (byte_xor a k) k = a.
Proof.
  unfold byte_xor. rewrite to_N_b8.
  pose proof (Byte.to_N_bounded a). pose proof (Byte.to_N_bounded k).
  rewrite N.mod_small by (apply lxor_byte; lia).
  rewrite N.lxor_assoc, N.lxor_nilpotent, N.lxor_0_r. apply b8_to_N.
Qed.

Lemma unmask_twice key data : forall i,
  unmask key i (unmask key i data) = data.
Proof.
  induction data as [| b r IH]; intros i; cbn [unmask]; [reflexivity |].
  now rewrite byte_xor_twice, IH.
Qed.

Lemma mask_bits n :
  n < 128 -> (N.land (128 + n) 128 =? 0) = false /\ N.land (128 + n) 127 = n.
Proof.
  intros H.
  assert (Hall : forallb (fun i => negb (N.land (128 + N.of_nat i) 128 =? 0)
                                   && (N.land (128 + N.of_nat i) 127 =? N.of_nat i))
                         (seq 0 128) = true) by (vm_compute; reflexivity).
  rewrite forallb_forall in Hall.
  specialize (Hall (N.to_nat n)). rewrite N2Nat.id in Hall.
  assert (Hin : In (N.to_nat n) (seq 0 128)) by (apply in_seq; lia).
  apply Hall, andb_prop in Hin. destruct Hin as [A B].
  apply negb_true_iff in A. apply N.eqb_eq in B. now split.
Qed.

Lemma parse_masked op key payload rest :
  op < 16 -> length key = 4%nat -> N.of_nat (length payload) < 65536 ->
  parseFrame (maskedFrame op key payload ++ rest)
  = Some (mkFrame op payload (length (maskedFrame op key payload))).
Proof.
  intros Hop Hkey Hlen. apply parseFrame_app.
  destruct key as [| k0 [| k1 [| k2 [| k3 [| ? ?]]]]]; try discriminate.
  unfold maskedFrame. set (n := N.of_nat (length payload)) in *.
  set (data := unmask [k0; k1; k2; k3] 0 payload).
  assert (Hd : length data = length payload) by apply unmask_length.
  assert (Hop' : N.land (Byte.to_N (b8 (128 + op))) 15 = op).
  { rewrite to_N_b8, N.mod_small by lia.
    change 15 with (N.ones 4). rewrite N.land_ones. change (2 ^ 4) with 16.
    replace (128 + op) with (op + 8 * 16) by lia.
    rewrite N.Div0.mod_add. now apply N.mod_small. }
  unfold parseFrame.
  destruct (N.ltb_spec n 126) as [Hs | Hl].
  - destruct (mask_bits n) as [Hm Hf]; [lia |].
    cbn [app length]. unfold at_. cbn [nth].
    rewrite (to_N_b8 (128 + n)), (N.mod_small (128 + n)) by lia.
    rewrite Hop', Hm, Hf. cbn [negb Nat.ltb Nat.leb].
    destruct (N.eqb_spec n 126); [lia |]. destruct (N.eqb_spec n 127); [lia |].
    match goal with
    | |- context [N.ltb ?a ?b] => destruct (N.ltb_spec a b) as [H | _]
    end; [rewrite Hd in H; lia |].
    replace (N.to_nat n) with (length data) by lia.
    f_equal. f_equal.
    change (b8 (128 + op) :: b8 (128 + n) :: k0 :: k1 :: k2 :: k3 :: data)
      with ([b8 (128 + op); b8 (128 + n); k0; k1; k2; k3] ++ data).
    change (2 + 4)%nat with 6%nat. rewrite (slice_payload _ data 6%nat) by reflexivity.
    unfold slice. cbn [skipn firstn Nat.sub Nat.add app].
    apply unmask_twice.
  - pose proof (read16 [b8 (128 + op); b8 254] n ([k0; k1; k2; k3] ++ data)
                       Hlen eq_refl) as R.
    cbn [app length] in *. rewrite R. unfold writeUInt16BE. cbn [app length].
    unfold at_. cbn [nth].
    rewrite Hop'. change (Byte.to_N (b8 254)) with 254.
    change (negb (N.land 254 128 =? 0)) with true.
    change (N.land 254 127 =? 126) with true.
    cbn [Nat.ltb Nat.leb]. cbv iota.
    match goal with
    | |- context [N.ltb ?a ?b] => destruct (N.ltb_spec a b) as [H | _]
    end; [rewrite Hd in H; lia |].
    replace (N.to_nat n) with (length data) by lia.
    f_equal. f_equal.
    change (b8 (128 + op) :: b8 254 :: b8 (N.shiftr n 8) :: b8 n
              :: k0 :: k1 :: k2 :: k3 :: data)
      with ([b8 (128 + op); b8 254; b8 (N.shiftr n 8); b8 n; k0; k1; k2; k3] ++ data).
    change (4 + 4)%nat with 8%nat. rewrite (slice_payload _ data 8%nat) by reflexivity.
    unfold slice. cbn [skipn firstn Nat.sub Nat.add app].
    apply unmask_twice.
Qed.

(* ---------------------------------------------------------------------- *)
(** ** What every handler preserves *)

Section HandlerFrame.

(** A relation between the world before and after that every operation
    of the data handler respects. *)
Variable R : World -> World -> Prop.
Hypothesis R_refl : forall w, R w w.
Hypothesis R_trans : forall w1 w2 w3, R w1 w2 -> R w2 w3 -> R w1 w3.
Hypothesis R_socket : forall f s w, R w (onSocket f s w).
Hypothesis R_client : forall f s w,
    (forall c, Client.id (f c) = Client.id c /\ Client.nick (f c) = Client.nick c) ->
    R w (onClient f s w).
Hypothesis R_rate : forall s c now w,
    clients w !! s = Some c ->
    R w (set_clients (<[s := rateStep now c]> (clients w)) w).
Hypothesis R_chat : forall nick text now w,
    falsy (chatText text) = false ->
    R w (set_history (addToHistory (Chat nick (chatText text) now) (history w)) w).
Hypothesis R_send : forall s obj w, R w (send s obj w).
Hypothesis R_broadcast : forall obj w, R w (broadcast obj None w).

Lemma onParsed_rel s parsed now w : outcomeRel R w (onParsed s parsed now w).
Proof.
  unfold onParsed.
  destruct (clients w !! s) as [c |] eqn:Hc.
  2: { destruct parsed; cbn; auto. }
  assert (Hchat : forall text,
    outcomeRel R w
    (if (RATE_LIMIT_MSG <? Client.rateCount (rateStep now c))%nat
     then Return (onSocket destroy s
                    (send s (System (js "Rate limit exceeded. Disconnecting.") now None)
                       (set_clients (<[s := rateStep now c]> (clients w)) w)))
     else if falsy (slice0 MAX_MSG_LEN (trim text))
          then Continue (set_clients (<[s := rateStep now c]> (clients w)) w)
          else Continue
                 (broadcast (Chat (Client.nick (rateStep now c))
                                  (slice0 MAX_MSG_LEN (trim text)) now) None
                    (set_history
                       (addToHistory (Chat (Client.nick (rateStep now c))
                                           (slice0 MAX_MSG_LEN (trim text)) now)
                          (history (set_clients (<[s := rateStep now c]> (clients w)) w)))
                       (set_clients (<[s := rateStep now c]> (clients w)) w))))).
  { intros text. pose proof (R_rate s c now w Hc) as Hi.
    destruct (_ <? _)%nat; cbn [outcomeRel].
    - eapply R_trans; [exact Hi |]. eapply R_trans; [apply R_send | apply R_socket].
    - destruct (falsy _) eqn:Ef; cbn [outcomeRel]; [exact Hi |].
      eapply R_trans; [exact Hi |].
      eapply R_trans; [| apply R_broadcast].
      apply (R_chat _ text). exact Ef. }
  assert (Hping : outcomeRel R w
    (if isStr (getProp parsed (js "type")) (js "ping")
     then Continue (onClient (Client.set_alive true) s w) else Continue w)).
  { destruct (isStr _ _); cbn; [apply R_client; now intros [] | apply R_refl]. }
  destruct parsed; try exact I;
    destruct (isStr _ (js "message")); try exact Hping;
    destruct (getProp _ (js "text")) as [[] |]; try exact Hping;
    apply Hchat.
Qed.

Variable JSON_parse : Buffer -> option json.

Lemma frames_rel fuel : forall s now w,
  outcomeRel R w (frames JSON_parse fuel s now w).
Proof.
  induction fuel as [| fuel IH]; intros s now w; cbn [frames].
  - destruct (clients w !! s); apply R_refl.
  - destruct (clients w !! s) as [c |]; [| apply R_refl].
    destruct (_ <? _)%nat; [apply R_refl |].
    destruct (parseFrame _) as [f |]; [| apply R_refl].
    set (w1 := onClient _ s w).
    assert (H1 : R w w1) by (apply R_client; now intros []).
    assert (Hstep : forall w2, R w1 w2 ->
                      outcomeRel R w (frames JSON_parse fuel s now w2)).
    { intros w2 H2. specialize (IH s now w2).
      destruct (frames JSON_parse fuel s now w2); cbn in *; [| | exact I];
        eauto. }
    destruct (opcode f =? 8); [cbn; eauto |].
    destruct (opcode f =? 9); [apply Hstep, R_socket |].
    destruct (opcode f =? 10); [apply Hstep, R_client; now intros [] |].
    destruct (_ || _); [| apply Hstep, R_refl].
    destruct (JSON_parse _) as [parsed |]; [| apply Hstep, R_refl].
    pose proof (onParsed_rel s parsed now w1) as Ho.
    destruct (onParsed s parsed now w1); cbn in *; [| | exact I]; eauto.
Qed.

Lemma onDataChunk_rel s chunk now w :
  outcomeRel R w (onDataChunk JSON_parse s chunk now w).
Proof.
  unfold onDataChunk. destruct (clients w !! s) as [c |]; [| apply R_refl].
  set (w0 := onClient _ s w).
  assert (H0 : R w w0) by (apply R_client; now intros []).
  pose proof (frames_rel (S (length (Client.buf c ++ chunk))) s now w0) as Ho.
  destruct (frames _ _ _ _ _); cbn in *; eauto.
Qed.

End HandlerFrame.

(* ---- shrinks ---- *)

Lemma shrinks_same w w' :
  clients w' = clients w -> nextId w' = nextId w -> shrinks w w'.
Proof. intros Hc Hn. split; [exact Hn |]. intros s c'. rewrite Hc. eauto. Qed.

Lemma shrinks_refl w : shrinks w w.
Proof. now apply shrinks_same. Qed.

Lemma shrinks_trans w1 w2 w3 : shrinks w1 w2 -> shrinks w2 w3 -> shrinks w1 w3.
Proof.
  intros [N1 C1] [N2 C2]. split; [congruence |]. intros s c3 H3.
  destruct (C2 s c3 H3) as (c2 & H2 & Hi & Hn).
  destruct (C1 s c2 H2) as (c1 & H1 & Hi' & Hn').
  exists c1. repeat split; congruence.
Qed.

Lemma shrinks_onClient f s w :
  (forall c, Client.id (f c) = Client.id c /\ Client.nick (f c) = Client.nick c) ->
  shrinks w (onClient f s w).
Proof.
  intros Hf. split; [reflexivity |]. intros x c'. unfold onClient. cbn.
  rewrite lookup_alter. case_decide as Hx; [subst x |]; [| eauto].
  destruct (clients w !! s) as [c |]; [| discriminate].
  intros [= <-]. exists c. destruct (Hf c). auto.
Qed.

Lemma rateStep_id now c :
  Client.id (rateStep now c) = Client.id c
  /\ Client.nick (rateStep now c) = Client.nick c.
Proof. unfold rateStep. now destruct (_ <? _)%Z. Qed.

Lemma shrinks_rate s c now w :
  clients w !! s = Some c ->
  shrinks w (set_clients (<[s := rateStep now c]> (clients w)) w).
Proof.
  intros Hc. split; [reflexivity |]. intros x c'. cbn.
  rewrite lookup_insert. case_decide as Hx; [subst x |]; [| eauto].
  intros [= <-]. exists c. destruct (rateStep_id now c). auto.
Qed.

Lemma shrinks_delete s w : shrinks w (set_clients (delete s (clients w)) w).
Proof.
  split; [reflexivity |]. intros x c'. cbn.
  rewrite lookup_delete_Some. intros [_ H]. eauto.
Qed.

Lemma onDataChunk_shrinks JSON_parse s chunk now w :
  outcomeRel shrinks w (onDataChunk JSON_parse s chunk now w).
Proof.
  apply onDataChunk_rel.
  - apply shrinks_refl.
  - apply shrinks_trans.
  - intros. now apply shrinks_same.
  - apply shrinks_onClient.
  - apply shrinks_rate.
  - intros. now apply shrinks_same.
  - intros. apply shrinks_same; [apply send_clients | apply send_spec].
  - intros. apply shrinks_same; [apply broadcast_clients | apply broadcast_nextId].
Qed.

Lemma shrinks_ok w w' : shrinks w w' -> registryOk w -> registryOk w'.
Proof.
  intros [Hn Hc] (Hsize & Hid & Huniq). split; [| split].
  - rewrite <- (size_dom (D := gset nat)) in *.
    etransitivity; [| exact Hsize]. apply subseteq_size.
    intros s Hs. apply elem_of_dom in Hs as [c' Hs]. apply elem_of_dom.
    destruct (Hc s c' Hs) as (c & H & _). eauto.
  - intros s c' Hs. destruct (Hc s c' Hs) as (c & H & Hi & _).
    rewrite Hn, Hi. eauto.
  - intros s1 s2 c1' c2' Hne H1 H2.
    destruct (Hc s1 c1' H1) as (c1 & G1 & I1 & N1).
    destruct (Hc s2 c2' H2) as (c2 & G2 & I2 & N2).
    rewrite I1, I2, N1, N2. eauto.
Qed.

Lemma onClose_shrinks s now w : shrinks w (onClose s now w).
Proof.
  destruct (clients w !! s) as [c |] eqn:E.
  - destruct (onClose_registered s now w c E) as (Hc & Hn & _).
    split; [exact Hn |]. intros x c'. cbv zeta in Hc. rewrite Hc.
    rewrite lookup_delete_Some. intros [_ H]. eauto.
  - rewrite onClose_unregistered by exact E. apply shrinks_refl.
Qed.

Lemma keepalive_shrinks w : shrinks w (keepalive w).
Proof.
  destruct (keepalive_spec w) as (_ & Hn & Hx). cbv zeta in *.
  split; [exact Hn |]. intros s c' Hs. specialize (Hx s).
  destruct (clients w !! s) as [c |].
  - destruct Hx as (Hc & _). rewrite Hc in Hs. unfold afterTick in Hs.
    exists c. split; [reflexivity |].
    destruct (destroyed (sock w s)); [discriminate |].
    destruct (Client.alive c); [| discriminate].
    injection Hs as <-. now split.
  - destruct Hx as (Hc & _). congruence.
Qed.

Lemma enroll_nextId s nick now w : nextId (enroll s nick now w) = nextId w + 1.
Proof.
  unfold enroll. cbv zeta.
  change (nextId (onSocket ?f ?s0 ?w0)) with (nextId w0).
  rewrite broadcast_nextId. cbn [nextId set_history].
  destruct (send_spec s (Identity nick)
              (match history w with
               | [] => mkWorld (<[s := Client.mk (nextId w) nick true [] 0 now]> (clients w))
                               (nextId w + 1) (history w) (sockets w)
               | _ :: _ => send s (HistoryMsg (history w))
                             (mkWorld (<[s := Client.mk (nextId w) nick true [] 0 now]> (clients w))
                                      (nextId w + 1) (history w) (sockets w))
               end)) as (_ & _ & Hn & _).
  cbn [history] in *. rewrite Hn.
  destruct (history w); [reflexivity |].
  now destruct (send_spec s (HistoryMsg (m :: l))
                  (mkWorld (<[s := Client.mk (nextId w) nick true [] 0 now]> (clients w))
                           (nextId w + 1) (m :: l) (sockets w))) as (_ & _ & -> & _).
Qed.

Lemma enroll_ok s nick now w :
  (size (clients w) < MAX_CLIENTS)%nat -> nick ∉ takenNicks w ->
  registryOk w -> registryOk (enroll s nick now w).
Proof.
  intros Hroom Hfree (Hsize & Hid & Huniq).
  unfold registryOk. rewrite enroll_clients, enroll_nextId.
  split; [| split].
  - rewrite map_size_insert. destruct (clients w !! s); cbn; lia.
  - intros x c. rewrite lookup_insert. case_decide; [intros [= <-]; cbn; lia |].
    intros Hx. specialize (Hid x c Hx). lia.
  - assert (Hnew : forall x c, x <> s -> clients w !! x = Some c ->
                     Client.nick c <> nick /\ Client.id c <> nextId w).
    { intros x c Hx H. split.
      - intros <-. apply Hfree. now apply (takenNicks_spec w x).
      - specialize (Hid x c H). lia. }
    intros s1 s2 c1 c2 Hne. rewrite !lookup_insert.
    repeat case_decide; subst; try congruence.
    + intros [= <-] H2. cbn. destruct (Hnew s2 c2) as [A B]; auto.
    + intros H1 [= <-]. cbn. destruct (Hnew s1 c1) as [A B]; auto.
    + apply Huniq. exact Hne.
Qed.

Lemma handleUpgrade_ok s req now w :
  registryOk w -> registryOk (handleUpgrade s req now w).
Proof.
  intros Hw. unfold handleUpgrade.
  destruct (Nat.leb_spec MAX_CLIENTS (size (clients w))) as [| Hroom];
    [exact Hw |].
  destruct (doHandshake (sock w s) req) as [[] k]; cbn [negb]; [| exact Hw].
  apply enroll_ok; [exact Hroom | apply uniqueNick_free | exact Hw].
Qed.

Lemma step_ok JSON_parse now e w w' :
  step JSON_parse now e w = Some w' -> registryOk w -> registryOk w'.
Proof.
  destruct e as [s req | s chunk | s | s |]; cbn [step]; intros H Hw.
  - injection H as <-. now apply handleUpgrade_ok.
  - destruct (listening _); [| now injection H as <-].
    pose proof (onDataChunk_shrinks JSON_parse s chunk now w) as Ho.
    destruct (onDataChunk _ _ _ _ _); [| | discriminate];
      injection H as <-; exact (shrinks_ok _ _ Ho Hw).
  - destruct (onceError _); injection H as <-; [| exact Hw].
    eapply shrinks_ok; [apply onClose_shrinks | exact Hw].
  - destruct (onceClose _); injection H as <-; [| exact Hw].
    eapply shrinks_ok; [apply onClose_shrinks | exact Hw].
  - injection H as <-. eapply shrinks_ok; [apply keepalive_shrinks | exact Hw].
Qed.

Lemma run_ok JSON_parse es : forall w w',
  run JSON_parse es w = Some w' -> registryOk w -> registryOk w'.
Proof.
  induction es as [| [now e] es IH]; intros w w' H Hw; cbn [run] in H.
  - now injection H as <-.
  - destruct (step JSON_parse now e w) as [w1 |] eqn:E; [| discriminate].
    apply (IH w1 w' H). now apply (step_ok JSON_parse now e w).
Qed.

Lemma initial_ok : registryOk initial.
Proof.
  split; [| split].
  - vm_compute. lia.
  - intros s c H. cbn in H. now rewrite lookup_empty in H.
  - intros s1 s2 c1 c2 _ H. cbn in H. now rewrite lookup_empty in H.
Qed.

(* ---- history contents ---- *)

Lemma addToHistory_ok m h :
  okEntry m -> Forall okEntry h -> Forall okEntry (addToHistory m h).
Proof.
  intros Hm Hh. unfold addToHistory.
  assert (Hall : Forall okEntry (h ++ [m]))
    by (apply Forall_app; split; [exact Hh | now constructor]).
  destruct (_ <? _)%nat; [| exact Hall].
  destruct (h ++ [m]); [exact Hall | now inversion Hall].
Qed.

Lemma chatText_length text :
  falsy (chatText text) = false ->
  (1 <= length (chatText text) <= MAX_MSG_LEN)%nat.
Proof.
  unfold chatText, slice0. intros Hf.
  pose proof (firstn_le_length MAX_MSG_LEN (trim text)) as H.
  destruct (firstn MAX_MSG_LEN (trim text)); [discriminate |].
  cbn [length] in *. lia.
Qed.

Lemma keeps_same w w' : history w' = history w -> keepsHistoryOk w w'.
Proof. unfold keepsHistoryOk, historyOk. now intros ->. Qed.

Lemma onDataChunk_keeps JSON_parse s chunk now w :
  outcomeRel keepsHistoryOk w (onDataChunk JSON_parse s chunk now w).
Proof.
  apply onDataChunk_rel.
  - now intros w0.
  - unfold keepsHistoryOk. auto.
  - intros. now apply keeps_same.
  - intros. now apply keeps_same.
  - intros. now apply keeps_same.
  - intros nick text now0 w0 Hf Hok. apply addToHistory_ok; [| exact Hok].
    now apply chatText_length.
  - intros. apply keeps_same, send_history.
  - intros. apply keeps_same, broadcast_history.
Qed.

Lemma step_historyOk JSON_parse now e w w' :
  step JSON_parse now e w = Some w' -> historyOk w -> historyOk w'.
Proof.
  destruct e as [s req | s chunk | s | s |]; cbn [step]; intros H Hw.
  - injection H as <-. unfold handleUpgrade.
    destruct (_ <=? _)%nat; [exact Hw |].
    destruct (doHandshake (sock w s) req) as [[] k]; cbn [negb]; [| exact Hw].
    unfold historyOk. rewrite enroll_history.
    apply addToHistory_ok; [exact I | exact Hw].
  - destruct (listening _); [| now injection H as <-].
    pose proof (onDataChunk_keeps JSON_parse s chunk now w) as Ho.
    destruct (onDataChunk _ _ _ _ _); [| | discriminate];
      injection H as <-; exact (Ho Hw).
  - assert (Hc : forall w0, historyOk w0 -> historyOk (onClose s now w0)).
    { intros w0 H0. destruct (clients w0 !! s) as [c |] eqn:E.
      - destruct (onClose_registered s now w0 c E) as (_ & _ & Hh & _).
        unfold historyOk. cbv zeta in Hh. rewrite Hh.
        apply addToHistory_ok; [exact I | exact H0].
      - now rewrite onClose_unregistered. }
    destruct (onceError _); injection H as <-; [| exact Hw]. now apply Hc.
  - assert (Hc : forall w0, historyOk w0 -> historyOk (onClose s now w0)).
    { intros w0 H0. destruct (clients w0 !! s) as [c |] eqn:E.
      - destruct (onClose_registered s now w0 c E) as (_ & _ & Hh & _).
        unfold historyOk. cbv zeta in Hh. rewrite Hh.
        apply addToHistory_ok; [exact I | exact H0].
      - now rewrite onClose_unregistered. }
    destruct (onceClose _); injection H as <-; [| exact Hw]. now apply Hc.
  - injection H as <-. unfold historyOk.
    destruct (keepalive_spec w) as (-> & _). exact Hw.
Qed.

Lemma run_historyOk JSON_parse es : forall w w',
  run JSON_parse es w = Some w' -> historyOk w -> historyOk w'.
Proof.
  induction es as [| [now e] es IH]; intros w w' H Hw; cbn [run] in H.
  - now injection H as <-.
  - destruct (step JSON_parse now e w) as [w1 |] eqn:E; [| discriminate].
    apply (IH w1 w' H). now apply (step_historyOk JSON_parse now e w).
Qed.

(* ---------------------------------------------------------------------- *)
(** ** One frame in one chunk *)

Lemma bufLen_onSocket f s w x : bufLen (onSocket f s w) x = bufLen w x.
Proof. reflexivity. Qed.

Lemma frames_done JSON_parse fuel s now w :
  (bufLen w s < 2)%nat -> frames JSON_parse fuel s now w = Continue w.
Proof.
  unfold bufLen. intros H. destruct fuel; cbn [frames];
    destruct (clients w !! s) as [c |]; try reflexivity.
  destruct (Nat.ltb_spec (length (Client.buf c)) 2); [reflexivity | lia].
Qed.

Lemma parseFrame_long buf f : parseFrame buf = Some f -> (2 <= length buf)%nat.
Proof.
  intros H. destruct (Nat.le_gt_cases 2 (length buf)) as [| Hs]; [assumption |].
  assert (parseFrame buf = None); [| congruence].
  apply parseFrame_None. unfold frameNeeds.
  destruct (Nat.ltb_spec (length buf) 2); lia.
Qed.

(** The first turn of the loop of the data handler, for a buffer that
    starts with a whole frame. *)
Lemma onDataChunk_first JSON_parse s chunk now w c f :
  clients w !! s = Some c ->
  parseFrame (Client.buf c ++ chunk) = Some f ->
  let fuel := length (Client.buf c ++ chunk) in
  let w1 := onClient (Client.set_buf
                        (sliceFrom (Client.buf c ++ chunk) (totalLength f))) s w in
  onDataChunk JSON_parse s chunk now w
  = if opcode f =? 0x8 then
      Return (onSocket (fun k => destroy (write (WRaw buildClose) k)) s w1)
    else if opcode f =? 0x9 then
      frames JSON_parse fuel s now (onSocket (write (WRaw buildPong)) s w1)
    else if opcode f =? 0xA then
      frames JSON_parse fuel s now (onClient (Client.set_alive true) s w1)
    else if (opcode f =? 0x1) || (opcode f =? 0x0) then
      match JSON_parse (payload f) with
      | None => frames JSON_parse fuel s now w1
      | Some parsed =>
        match onParsed s parsed now w1 with
        | Continue w2 => frames JSON_parse fuel s now w2
        | out => out
        end
      end
    else frames JSON_parse fuel s now w1.
Proof.
  intros Hc Hp fuel w1. unfold onDataChunk. rewrite Hc. cbn [frames].
  assert (Hl : clients (onClient (Client.set_buf (Client.buf c ++ chunk)) s w) !! s
               = Some (Client.set_buf (Client.buf c ++ chunk) c))
    by (unfold onClient; cbn; now rewrite lookup_alter_eq, Hc).
  rewrite Hl. cbn [Client.buf Client.set_buf].
  pose proof (parseFrame_long _ _ Hp) as Hlong.
  destruct (Nat.ltb_spec (length (Client.buf c ++ chunk)) 2); [lia |].
  rewrite Hp, onClient_twice. reflexivity.
Qed.

(** A chunk that is exactly one frame, on a connection with nothing
    buffered: what the handler does, by opcode. *)
Lemma onDataChunk_whole JSON_parse s chunk now w c f :
  clients w !! s = Some c -> Client.buf c = [] ->
  parseFrame chunk = Some f -> totalLength f = length chunk ->
  onDataChunk JSON_parse s chunk now w
  = if opcode f =? 0x8 then
      Return (onSocket (fun k => destroy (write (WRaw buildClose) k)) s w)
    else if opcode f =? 0x9 then
      Continue (onSocket (write (WRaw buildPong)) s w)
    else if opcode f =? 0xA then
      Continue (onClient (Client.set_alive true) s w)
    else if (opcode f =? 0x1) || (opcode f =? 0x0) then
      match JSON_parse (payload f) with
      | None => Continue w
      | Some parsed => onParsed s parsed now w
      end
    else Continue w.
Proof.
  intros Hc Hb Hp Hall.
  rewrite (onDataChunk_first JSON_parse s chunk now w c f Hc)
    by (now rewrite Hb). cbv zeta. rewrite Hb. cbn [app].
  assert (Hw1 : onClient (Client.set_buf (sliceFrom chunk (totalLength f))) s w = w).
  { apply (onClient_id _ s w c Hc). unfold sliceFrom.
    rewrite Hall, skipn_all. destruct c. cbn in *. now subst. }
  rewrite Hw1.
  assert (H0 : bufLen w s = 0%nat) by (unfold bufLen; now rewrite Hc, Hb).
  destruct (opcode f =? 8); [reflexivity |].
  destruct (opcode f =? 9); [apply frames_done; rewrite bufLen_onSocket; lia |].
  destruct (opcode f =? 10).
  { apply frames_done. rewrite bufLen_onClient by reflexivity. lia. }
  destruct (_ || _); [| apply frames_done; lia].
  destruct (JSON_parse (payload f)) as [parsed |]; [| apply frames_done; lia].
  destruct (onParsed s parsed now w) as [w2 | |] eqn:Ho; [| reflexivity ..].
  apply frames_done. rewrite (onParsed_buf _ _ _ _ _ Ho). lia.
Qed.

(* ---------------------------------------------------------------------- *)
(** ** Frames on the wire *)

(** X1. A frame that [parseFrame] finds at the head of a buffer is found
    unchanged, with the same consumed length, whatever bytes follow it. *)
Theorem parse_ignores_what_follows :
  forall (buf rest : Buffer) (f : Frame),
    parseFrame buf = Some f ->
    parseFrame (buf ++ rest) = Some f
    /\ sliceFrom (buf ++ rest) (totalLength f)
       = sliceFrom buf (totalLength f) ++ rest.
Proof.
  intros buf rest f Hp. split; [now apply parseFrame_app |].
  destruct (parseFrame_Some buf f Hp) as (Hle & _).
  unfold sliceFrom. rewrite skipn_app.
  replace (totalLength f - length buf)%nat with 0%nat by lia. reflexivity.
Qed.

Lemma parse_ignores_what_follows_witness :
  parseFrame (clientPong ++ [x81; x85]) = Some (mkFrame 10 [] 6)
  /\ sliceFrom (clientPong ++ [x81; x85]) 6 = sliceFrom clientPong 6 ++ [x81; x85].
Proof.
  apply (parse_ignores_what_follows clientPong [x81; x85] (mkFrame 10 [] 6)).
  vm_compute. reflexivity.
Defined.

(** X2. A frame masked as a client masks it (mask bit set, four key
    bytes, payload XOR-ed with the key, length below 65536) is parsed to
    its opcode and its clear payload, and consumed whole. *)
Theorem parse_unmasks_client_frame :
  forall (op : N) (key payload rest : Buffer),
    op < 16 -> length key = 4%nat -> N.of_nat (length payload) < 65536 ->
    parseFrame (maskedFrame op key payload ++ rest)
    = Some (mkFrame op payload (length (maskedFrame op key payload))).
Proof. exact parse_masked. Qed.

Lemma parse_unmasks_client_frame_witness :
  parseFrame (maskedFrame 1 [x37; xfa; x21; x3d] (utf8 (js "Hello")) ++ [x8a])
  = Some (mkFrame 1 (utf8 (js "Hello"))
                  (length (maskedFrame 1 [x37; xfa; x21; x3d] (utf8 (js "Hello"))))).
Proof.
  apply (parse_unmasks_client_frame 1 [x37; xfa; x21; x3d] (utf8 (js "Hello")) [x8a]);
    [reflexivity | reflexivity | vm_compute; reflexivity].
Defined.

Example masked_hello_rfc :
  maskedFrame 1 [x37; xfa; x21; x3d] (utf8 (js "Hello"))
  = [x81; x85; x37; xfa; x21; x3d; x7f; x9f; x4d; x51; x58].
Proof. vm_compute. reflexivity. Qed.

(** X3. Whenever [buildFrame] yields a frame, that frame followed by any
    bytes is parsed to opcode text and the UTF-8 payload, consuming
    exactly the frame; [buildFrame] yields none only for a payload of
    2^32 bytes or more. *)
Theorem built_frames_stream :
  forall (text : jsstring) (rest : Buffer),
    (forall frame, buildFrame text = Some frame ->
       parseFrame (frame ++ rest) = Some (mkFrame 1 (utf8 text) (length frame))
       /\ sliceFrom (frame ++ rest) (length frame) = rest)
    /\ (buildFrame text = None <-> 4294967296 <= N.of_nat (length (utf8 text))).
Proof.
  intros text rest.
  assert (Hnone : buildFrame text = None
                  <-> 4294967296 <= N.of_nat (length (utf8 text))).
  { split.
    - intros Hb. destruct (N.le_gt_cases 4294967296 (N.of_nat (length (utf8 text))))
        as [| Hlt]; [assumption |].
      destruct (buildFrame_parse text Hlt) as (b & Hs & _). congruence.
    - intros Hbig. unfold buildFrame, writeUInt32BE.
      destruct (N.ltb_spec (N.of_nat (length (utf8 text))) 126); [lia |].
      destruct (N.ltb_spec (N.of_nat (length (utf8 text))) 65536); [lia |].
      destruct (N.ltb_spec (N.of_nat (length (utf8 text))) 4294967296); [lia |].
      reflexivity. }
  split; [| exact Hnone].
  intros frame Hb.
  destruct (N.le_gt_cases 4294967296 (N.of_nat (length (utf8 text)))) as [Hbig | Hlt].
  { apply Hnone in Hbig. congruence. }
  destruct (buildFrame_parse text Hlt) as (b & Hs & Hp & _).
  assert (b = frame) by congruence. subst b.
  split; [now apply parseFrame_app |].
  unfold sliceFrom. rewrite skipn_app, skipn_all, Nat.sub_diag. reflexivity.
Qed.

Lemma built_frames_stream_witness :
  exists frame,
    buildFrame (js "hi") = Some frame
    /\ parseFrame (frame ++ [x81; x00])
       = Some (mkFrame 1 (utf8 (js "hi")) (length frame))
    /\ sliceFrom (frame ++ [x81; x00]) (length frame) = [x81; x00].
Proof.
  exists [x81; x02; x68; x69]. split; [vm_compute; reflexivity |].
  apply (proj1 (built_frames_stream (js "hi") [x81; x00])).
  vm_compute. reflexivity.
Defined.

(** X4. [parseFrame] reads the low four bits of the first byte only:
    the FIN bit and the reserved bits change nothing, so a fragment that
    announces more to come is parsed, and then handled, as a whole
    message. *)
Theorem parse_ignores_fin_and_reserved :
  forall (b b' : byte) (rest : Buffer),
    N.land (Byte.to_N b) 0x0F = N.land (Byte.to_N b') 0x0F ->
    parseFrame (b :: rest) = parseFrame (b' :: rest).
Proof.
  intros b b' rest H. unfold parseFrame.
  change (at_ (b :: rest) 0) with (Byte.to_N b).
  change (at_ (b' :: rest) 0) with (Byte.to_N b').
  change (at_ (b :: rest) 1) with (at_ (b' :: rest) 1).
  change (length (b :: rest)) with (length (b' :: rest)).
  change (readUInt16BE (b :: rest) 2) with (readUInt16BE (b' :: rest) 2).
  change (readUInt32BE (b :: rest) 6) with (readUInt32BE (b' :: rest) 6).
  rewrite H.
  destruct (_ <? 2)%nat; [reflexivity |].
  destruct (N.land _ 127 =? 126);
    [destruct (_ <? 4)%nat; [reflexivity |]
    | destruct (N.land _ 127 =? 127);
      [destruct (_ <? 10)%nat; [reflexivity |] |]];
    destruct (negb _); destruct (_ <? _); reflexivity.
Qed.

Lemma parse_ignores_fin_and_reserved_witness :
  parseFrame (x01 :: [x02; x68; x69]) = parseFrame (x81 :: [x02; x68; x69]).
Proof.
  apply (parse_ignores_fin_and_reserved x01 x81 [x02; x68; x69]).
  vm_compute. reflexivity.
Defined.

(* ---------------------------------------------------------------------- *)
(** ** Invariants of every run *)

(** X5. Whatever events the server has handled since it started, the
    registry holds at most [MAX_CLIENTS] connections. *)
Theorem registry_never_over_cap :
  forall (JSON_parse : Buffer -> option json) (es : list (Z * Event)) (w : World),
    run JSON_parse es initial = Some w ->
    (size (clients w) <= MAX_CLIENTS)%nat.
Proof.
  intros JSON_parse es w Hrun.
  exact (proj1 (run_ok JSON_parse es initial w Hrun initial_ok)).
Qed.

Lemma registry_never_over_cap_witness :
  (size (clients (default initial threeBobs)) <= MAX_CLIENTS)%nat.
Proof.
  apply (registry_never_over_cap noJson
           [(0%Z, Upgrade 1%nat (requestFor "Bob"));
            (0%Z, Upgrade 2%nat (requestFor "Bob"));
            (0%Z, Upgrade 3%nat (requestFor "Bob"))]).
  vm_compute. reflexivity.
Defined.

(** X6. Whatever events the server has handled since it started, no two
    registered connections carry the same nickname. *)
Theorem nicknames_stay_distinct :
  forall (JSON_parse : Buffer -> option json) (es : list (Z * Event)) (w : World)
         (s1 s2 : nat) (c1 c2 : Client.t),
    run JSON_parse es initial = Some w ->
    clients w !! s1 = Some c1 -> clients w !! s2 = Some c2 ->
    s1 <> s2 ->
    Client.nick c1 <> Client.nick c2.
Proof.
  intros JSON_parse es w s1 s2 c1 c2 Hrun H1 H2 Hne.
  destruct (run_ok JSON_parse es initial w Hrun initial_ok) as (_ & _ & Hd).
  exact (proj1 (Hd s1 s2 c1 c2 Hne H1 H2)).
Qed.

Lemma nicknames_stay_distinct_witness :
  Client.nick bobClient <> Client.nick (Client.mk 3 (js "Bob3") true [] 0 0).
Proof.
  apply (nicknames_stay_distinct noJson
           [(0%Z, Upgrade 1%nat (requestFor "Bob"));
            (0%Z, Upgrade 2%nat (requestFor "Bob"));
            (0%Z, Upgrade 3%nat (requestFor "Bob"))]
           (default initial threeBobs) 1%nat 3%nat).
  - vm_compute. reflexivity.
  - vm_compute. reflexivity.
  - vm_compute. reflexivity.
  - lia.
Defined.

(** X7. Whatever events the server has handled since it started, the
    identifiers of the registered connections are pairwise different and
    all below [nextId], the next identifier to be handed out. *)
Theorem identifiers_distinct_and_used :
  forall (JSON_parse : Buffer -> option json) (es : list (Z * Event)) (w : World),
    run JSON_parse es initial = Some w ->
    (forall s c, clients w !! s = Some c -> Client.id c < nextId w)
    /\ (forall s1 s2 c1 c2,
          clients w !! s1 = Some c1 -> clients w !! s2 = Some c2 ->
          s1 <> s2 -> Client.id c1 <> Client.id c2).
Proof.
  intros JSON_parse es w Hrun.
  destruct (run_ok JSON_parse es initial w Hrun initial_ok) as (_ & Hlt & Hd).
  split; [exact Hlt |].
  intros s1 s2 c1 c2 H1 H2 Hne. exact (proj2 (Hd s1 s2 c1 c2 Hne H1 H2)).
Qed.

Lemma identifiers_distinct_and_used_witness :
  (forall s c, clients bobCloses !! s = Some c -> Client.id c < nextId bobCloses)
  /\ (forall s1 s2 c1 c2,
        clients bobCloses !! s1 = Some c1 -> clients bobCloses !! s2 = Some c2 ->
        s1 <> s2 -> Client.id c1 <> Client.id c2).
Proof.
  apply (identifiers_distinct_and_used noJson
           [(0%Z, Upgrade 1%nat (requestFor "Bob"));
            (1%Z, Upgrade 2%nat (requestFor "Al"));
            (5000%Z, Close 1%nat)] bobCloses).
  vm_compute. reflexivity.
Defined.

(** X8. Whatever events the server has handled since it started, the
    history holds only join and leave notices, which carry a count, and
    chat messages whose text has between 1 and [MAX_MSG_LEN] characters:
    never a rate-limit warning, a history replay or an identity message,
    and never an empty chat text. *)
Theorem history_holds_chat_and_notices :
  forall (JSON_parse : Buffer -> option json) (es : list (Z * Event)) (w : World)
         (m : Message),
    run JSON_parse es initial = Some w ->
    m ∈ history w ->
    (exists nick text ts,
        m = Chat nick text ts /\ (1 <= length text <= MAX_MSG_LEN)%nat)
    \/ (exists text ts count, m = System text ts (Some count)).
Proof.
  intros JSON_parse es w m Hrun Hin.
  assert (Hok : historyOk w).
  { apply (run_historyOk JSON_parse es initial w Hrun). constructor. }
  unfold historyOk in Hok. rewrite List.Forall_forall in Hok.
  apply list_elem_of_In in Hin. apply Hok in Hin.
  destruct m as [nick text ts | text ts [count |] | |]; cbn in Hin;
    try contradiction; [left | right]; eauto.
Qed.

Lemma history_holds_chat_and_notices_witness :
  (exists nick text ts,
      System (js "Bob left") 5000 (Some 1%nat) = Chat nick text ts
      /\ (1 <= length text <= MAX_MSG_LEN)%nat)
  \/ (exists text ts count,
        System (js "Bob left") 5000 (Some 1%nat) = System text ts (Some count)).
Proof.
  apply (history_holds_chat_and_notices noJson
           [(0%Z, Upgrade 1%nat (requestFor "Bob"));
            (1%Z, Upgrade 2%nat (requestFor "Al"));
            (5000%Z, Close 1%nat)] bobCloses).
  - vm_compute. reflexivity.
  - vm_compute. apply list_elem_of_In. right. right. left. reflexivity.
Defined.

(* ---------------------------------------------------------------------- *)
(** ** The data handler, frame by frame *)

Lemma lookup_onClient f s w x :
  clients (onClient f s w) !! x
  = if decide (x = s) then f <$> clients w !! s else clients w !! x.
Proof.
  unfold onClient. cbn [clients set_clients]. rewrite lookup_alter.
  case_decide; case_decide; subst; congruence.
Qed.

(** X9. A close frame at the head of the buffered bytes ends the data
    handler at once: the close frame is echoed and the socket destroyed,
    the bytes after the frame stay unprocessed in the buffer, and the
    connection stays registered, with no message to anyone, until the
    socket reports its closing. *)
Theorem close_frame_ends_the_handler :
  forall (JSON_parse : Buffer -> option json) (s : nat) (chunk : Buffer)
         (now : Z) (w : World) (c : Client.t) (f : Frame),
    clients w !! s = Some c ->
    parseFrame (Client.buf c ++ chunk) = Some f ->
    opcode f = 8 ->
    exists w',
      onDataChunk JSON_parse s chunk now w = Return w'
      /\ sock w' s = destroy (write (WRaw buildClose) (sock w s))
      /\ clients w' !! s
         = Some (Client.set_buf
                   (sliceFrom (Client.buf c ++ chunk) (totalLength f)) c)
      /\ (forall x, x <> s ->
            sock w' x = sock w x /\ clients w' !! x = clients w !! x)
      /\ history w' = history w /\ nextId w' = nextId w.
Proof.
  intros JSON_parse s chunk now w c f Hc Hp Hop.
  eexists. split.
  { rewrite (onDataChunk_first JSON_parse s chunk now w c f Hc Hp).
    cbv zeta. rewrite Hop. reflexivity. }
  split; [now rewrite sock_onSocket_eq, sock_onClient |].
  split; [rewrite clients_onSocket, lookup_onClient, Hc;
          now destruct (decide (s = s)) |].
  split; [| split; reflexivity].
  intros x Hx. split.
  - rewrite sock_onSocket_ne by congruence. apply sock_onClient.
  - rewrite clients_onSocket, lookup_onClient. now destruct (decide (x = s)).
Qed.

Lemma close_frame_ends_the_handler_witness :
  exists w',
    onDataChunk noJson 1%nat ([x88; x80; x01; x02; x03; x04] ++ [x81]) 5%Z oneBob
    = Return w'
    /\ sock w' 1%nat = destroy (write (WRaw buildClose) (sock oneBob 1%nat))
    /\ clients w' !! 1%nat = Some (Client.set_buf [x81] bobClient).
Proof.
  destruct (close_frame_ends_the_handler noJson 1%nat
              ([x88; x80; x01; x02; x03; x04] ++ [x81]) 5%Z oneBob bobClient
              (mkFrame 8 [] 6)) as (w' & H1 & H2 & H3 & _).
  - vm_compute. reflexivity.
  - vm_compute. reflexivity.
  - reflexivity.
  - exists w'. split; [exact H1 |]. split; [exact H2 | exact H3].
Defined.

(** X10. A ping frame that arrives whole on a connection with nothing
    buffered is answered with a pong that carries no payload, whatever
    payload the ping carried; nothing else changes. *)
Theorem ping_frame_gets_empty_pong :
  forall (JSON_parse : Buffer -> option json) (s : nat) (chunk : Buffer)
         (now : Z) (w : World) (c : Client.t) (f : Frame),
    clients w !! s = Some c -> Client.buf c = [] ->
    listening (sock w s) = true ->
    parseFrame chunk = Some f -> totalLength f = length chunk ->
    opcode f = 9 ->
    exists w',
      step JSON_parse now (Data s chunk) w = Some w'
      /\ written (sock w' s) = written (sock w s) ++ [WRaw [x8a; x00]]
      /\ destroyed (sock w' s) = false
      /\ (forall x, x <> s -> sock w' x = sock w x)
      /\ clients w' = clients w /\ history w' = history w.
Proof.
  intros JSON_parse s chunk now w c f Hc Hb Hl Hp Hall Hop.
  exists (onSocket (write (WRaw buildPong)) s w).
  split.
  { cbn [step]. rewrite Hl.
    rewrite (onDataChunk_whole JSON_parse s chunk now w c f Hc Hb Hp Hall).
    rewrite Hop. reflexivity. }
  unfold listening in Hl. apply andb_prop in Hl as [_ Hd].
  apply negb_true_iff in Hd.
  rewrite sock_onSocket_eq. unfold write. rewrite Hd. cbn [written destroyed].
  split; [reflexivity |]. split; [reflexivity |].
  split; [| split; reflexivity].
  intros x Hx. apply sock_onSocket_ne. congruence.
Qed.

Lemma ping_frame_gets_empty_pong_witness :
  exists w',
    step noJson 5%Z
         (Data 1%nat (maskedFrame 9 [x01; x02; x03; x04] (utf8 (js "are you there"))))
         oneBob = Some w'
    /\ written (sock w' 1%nat) = written (sock oneBob 1%nat) ++ [WRaw [x8a; x00]].
Proof.
  destruct (ping_frame_gets_empty_pong noJson 1%nat
              (maskedFrame 9 [x01; x02; x03; x04] (utf8 (js "are you there")))
              5%Z oneBob bobClient
              (mkFrame 9 (utf8 (js "are you there")) 19))
    as (w' & H1 & H2 & _).
  - vm_compute. reflexivity.
  - reflexivity.
  - vm_compute. reflexivity.
  - vm_compute. reflexivity.
  - vm_compute. reflexivity.
  - reflexivity.
  - exists w'. split; [exact H1 | exact H2].
Defined.

(** X11. A pong frame that arrives whole on an open connection makes the
    connection survive the next keepalive tick, whether or not it was
    flagged alive before: the tick leaves it registered, flags it as not
    alive again and writes a ping to it. *)
Theorem pong_frame_survives_tick :
  forall (JSON_parse : Buffer -> option json) (s : nat) (chunk : Buffer)
         (t1 t2 : Z) (w : World) (c : Client.t) (f : Frame),
    clients w !! s = Some c -> Client.buf c = [] ->
    listening (sock w s) = true ->
    parseFrame chunk = Some f -> totalLength f = length chunk ->
    opcode f = 10 ->
    exists w',
      run JSON_parse [(t1, Data s chunk); (t2, Tick)] w = Some w'
      /\ clients w' !! s = Some (Client.set_alive false c)
      /\ sock w' s = write (WRaw buildPing) (sock w s)
      /\ destroyed (sock w' s) = false
      /\ history w' = history w.
Proof.
  intros JSON_parse s chunk t1 t2 w c f Hc Hb Hl Hp Hall Hop.
  exists (keepalive (onClient (Client.set_alive true) s w)).
  split.
  { cbn [run step]. rewrite Hl.
    rewrite (onDataChunk_whole JSON_parse s chunk t1 w c f Hc Hb Hp Hall).
    rewrite Hop. reflexivity. }
  unfold listening in Hl. apply andb_prop in Hl as [_ Hd].
  apply negb_true_iff in Hd.
  destruct (keepalive_spec (onClient (Client.set_alive true) s w))
    as (Hh & _ & Hx).
  specialize (Hx s). rewrite lookup_onClient, Hc in Hx.
  destruct (decide (s = s)); [| congruence]. cbn [fmap option_fmap option_map] in Hx.
  rewrite sock_onClient in Hx. unfold afterTick in Hx.
  rewrite Hd in Hx. cbn [Client.alive Client.set_alive fst snd] in Hx.
  destruct Hx as (Hx1 & Hx2).
  split; [exact Hx1 |]. split; [exact Hx2 |].
  split; [rewrite Hx2; unfold write; now rewrite Hd |]. exact Hh.
Qed.

Lemma pong_frame_survives_tick_witness :
  exists w',
    run noJson [(30005%Z, Data 1%nat clientPong); (60000%Z, Tick)]
        (keepalive oneBob) = Some w'
    /\ clients w' !! 1%nat = Some (Client.set_alive false bobClient)
    /\ destroyed (sock w' 1%nat) = false.
Proof.
  destruct (pong_frame_survives_tick noJson 1%nat clientPong 30005%Z 60000%Z
              (keepalive oneBob) (Client.set_alive false bobClient)
              (mkFrame 10 [] 6)) as (w' & H1 & H2 & _ & H4 & _).
  - vm_compute. reflexivity.
  - reflexivity.
  - vm_compute. reflexivity.
  - vm_compute. reflexivity.
  - reflexivity.
  - reflexivity.
  - exists w'. split; [exact H1 |]. split; [exact H2 | exact H4].
Defined.

Lemma onParsed_other s parsed now w :
  parsed <> JNull ->
  isStr (getProp parsed (js "type")) (js "ping") = false ->
  (isStr (getProp parsed (js "type")) (js "message") = false
   \/ forall t, getProp parsed (js "text") <> Some (JStr t)) ->
  onParsed s parsed now w = Continue w.
Proof.
  intros Hn Hping Hmsg. unfold onParsed.
  destruct (clients w !! s) as [c |]; [| now destruct parsed].
  rewrite Hping.
  destruct Hmsg as [-> | Ht].
  - now destruct parsed.
  - destruct (getProp parsed (js "text")) as [[| b | n | t | l | fl] |] eqn:E;
      try (destruct parsed; [now destruct Hn | ..];
           destruct (isStr _ (js "message")); reflexivity).
    now destruct (Ht t).
Qed.

(** X12. A frame that arrives whole on a connection with nothing
    buffered and that is a binary frame or has another opcode the server
    does not know, or is a text frame whose payload is not JSON, or
    parses to a value other than [null] that is neither a chat message
    with a string text nor a ping, leaves the whole state as it was. *)
Theorem dropped_frame_changes_nothing :
  forall (JSON_parse : Buffer -> option json) (s : nat) (chunk : Buffer)
         (now : Z) (w : World) (c : Client.t) (f : Frame),
    clients w !! s = Some c -> Client.buf c = [] ->
    parseFrame chunk = Some f -> totalLength f = length chunk ->
    dropped JSON_parse f ->
    step JSON_parse now (Data s chunk) w = Some w.
Proof.
  intros JSON_parse s chunk now w c f Hc Hb Hp Hall Hd.
  cbn [step]. destruct (listening (sock w s)); [| reflexivity].
  rewrite (onDataChunk_whole JSON_parse s chunk now w c f Hc Hb Hp Hall).
  destruct Hd as [(H8 & H9 & H10 & H1 & H0) | (Hop & Hj)].
  - apply N.eqb_neq in H8, H9, H10, H1, H0.
    now rewrite H8, H9, H10, H1, H0.
  - assert (Ht : (opcode f =? 1) || (opcode f =? 0) = true)
      by (destruct Hop as [-> | ->]; reflexivity).
    assert (H8 : (opcode f =? 8) = false) by (destruct Hop as [-> | ->]; reflexivity).
    assert (H9 : (opcode f =? 9) = false) by (destruct Hop as [-> | ->]; reflexivity).
    assert (H10 : (opcode f =? 10) = false) by (destruct Hop as [-> | ->]; reflexivity).
    rewrite H8, H9, H10, Ht.
    destruct Hj as [-> | (parsed & -> & Hn & Hping & Hmsg)]; [reflexivity |].
    now rewrite onParsed_other.
Qed.

Lemma dropped_frame_changes_nothing_witness :
  step noJson 5%Z (Data 1%nat (maskedFrame 2 [x01; x02; x03; x04] [xff; x00])) oneBob
  = Some oneBob
  /\ step noJson 5%Z (Data 1%nat
                        (maskedFrame 1 [x01; x02; x03; x04] (utf8 (js "hello"))))
          oneBob
     = Some oneBob.
Proof.
  split.
  - apply (dropped_frame_changes_nothing noJson 1%nat _ 5%Z oneBob bobClient
             (mkFrame 2 [xff; x00] 8)).
    + vm_compute. reflexivity.
    + reflexivity.
    + vm_compute. reflexivity.
    + reflexivity.
    + left. cbn. repeat split; discriminate.
  - apply (dropped_frame_changes_nothing noJson 1%nat _ 5%Z oneBob bobClient
             (mkFrame 1 (utf8 (js "hello")) 11)).
    + vm_compute. reflexivity.
    + reflexivity.
    + vm_compute. reflexivity.
    + reflexivity.
    + right. split; [now left | now left].
Defined.

(** X13. A text or continuation frame at the head of the buffered bytes
    of an open connection whose payload parses to [null] makes the data
    handler raise an exception that nothing catches: the event has no
    next state. *)
Theorem null_payload_raises :
  forall (JSON_parse : Buffer -> option json) (s : nat) (chunk : Buffer)
         (now : Z) (w : World) (c : Client.t) (f : Frame),
    clients w !! s = Some c ->
    listening (sock w s) = true ->
    parseFrame (Client.buf c ++ chunk) = Some f ->
    opcode f = 1 \/ opcode f = 0 ->
    JSON_parse (payload f) = Some JNull ->
    step JSON_parse now (Data s chunk) w = None.
Proof.
  intros JSON_parse s chunk now w c f Hc Hl Hp Hop Hj.
  cbn [step]. rewrite Hl.
  rewrite (onDataChunk_first JSON_parse s chunk now w c f Hc Hp). cbv zeta.
  rewrite Hj.
  destruct Hop as [-> | ->]; reflexivity.
Qed.

Lemma null_payload_raises_witness :
  step (jsonOf (js "null") JNull) 5%Z
       (Data 1%nat (maskedFrame 1 [x01; x02; x03; x04] (utf8 (js "null"))))
       oneBob
  = None.
Proof.
  apply (null_payload_raises (jsonOf (js "null") JNull) 1%nat _ 5%Z oneBob bobClient
           (mkFrame 1 (utf8 (js "null")) 10)).
  - vm_compute. reflexivity.
  - vm_compute. reflexivity.
  - vm_compute. reflexivity.
  - now left.
  - vm_compute. reflexivity.
Defined.

(** X14. A text frame that arrives whole and parses to an object whose
    [type] is the string ["ping"] flags the connection alive and changes
    nothing else: no reply is written, and nothing is counted against
    the rate limit. *)
Theorem json_ping_marks_alive :
  forall (JSON_parse : Buffer -> option json) (s : nat) (chunk : Buffer)
         (now : Z) (w : World) (c : Client.t) (f : Frame) (parsed : json),
    clients w !! s = Some c -> Client.buf c = [] ->
    listening (sock w s) = true ->
    parseFrame chunk = Some f -> totalLength f = length chunk ->
    opcode f = 1 \/ opcode f = 0 ->
    JSON_parse (payload f) = Some parsed ->
    getProp parsed (js "type") = Some (JStr (js "ping")) ->
    exists w',
      step JSON_parse now (Data s chunk) w = Some w'
      /\ clients w' = <[s := Client.set_alive true c]> (clients w)
      /\ sockets w' = sockets w /\ history w' = history w
      /\ nextId w' = nextId w.
Proof.
  intros JSON_parse s chunk now w c f parsed Hc Hb Hl Hp Hall Hop Hj Hty.
  exists (onClient (Client.set_alive true) s w). split.
  { cbn [step]. rewrite Hl.
    rewrite (onDataChunk_whole JSON_parse s chunk now w c f Hc Hb Hp Hall).
    rewrite Hj.
    assert (Ho : onParsed s parsed now w
                 = Continue (onClient (Client.set_alive true) s w)).
    { unfold onParsed. rewrite Hc, Hty.
      destruct parsed; try discriminate. reflexivity. }
    rewrite Ho. destruct Hop as [-> | ->]; reflexivity. }
  split; [| repeat split].
  unfold onClient. cbn [clients set_clients].
  apply map_eq. intros i. rewrite lookup_alter, lookup_insert.
  repeat case_decide; try congruence. subst i. now rewrite Hc.
Qed.

Lemma json_ping_marks_alive_witness :
  exists w',
    step (jsonOf pingText pingValue) 30005%Z
         (Data 1%nat (maskedFrame 1 [x01; x02; x03; x04] (utf8 pingText)))
         (keepalive oneBob) = Some w'
    /\ clients w' = <[1%nat := bobClient]> (clients (keepalive oneBob)).
Proof.
  destruct (json_ping_marks_alive (jsonOf pingText pingValue) 1%nat
              (maskedFrame 1 [x01; x02; x03; x04] (utf8 pingText))
              30005%Z (keepalive oneBob) (Client.set_alive false bobClient)
              (mkFrame 1 (utf8 pingText) 21) pingValue)
    as (w' & H1 & H2 & _).
  - vm_compute. reflexivity.
  - reflexivity.
  - vm_compute. reflexivity.
  - vm_compute. reflexivity.
  - reflexivity.
  - now left.
  - vm_compute. reflexivity.
  - vm_compute. reflexivity.
  - exists w'. split; [exact H1 | exact H2].
Defined.

(** X15. Two keepalive ticks with no event between them empty the
    registry and destroy every socket that was registered, whatever the
    connections were doing before; no leave message is added to the
    history, and sockets that were not registered are not touched. *)
Theorem two_silent_ticks_drop_everyone :
  forall (w : World),
    let w2 := keepalive (keepalive w) in
    clients w2 = ∅
    /\ history w2 = history w
    /\ forall x,
         if bool_decide (is_Some (clients w !! x))
         then destroyed (sock w2 x) = true
         else sock w2 x = sock w x.
Proof.
  intros w. cbv zeta.
  destruct (keepalive_spec w) as (Hh1 & _ & Hx1).
  destruct (keepalive_spec (keepalive w)) as (Hh2 & _ & Hx2).
  cbv zeta in *.
  assert (Hall : forall x,
    clients (keepalive (keepalive w)) !! x = None
    /\ if bool_decide (is_Some (clients w !! x))
       then destroyed (sock (keepalive (keepalive w)) x) = true
       else sock (keepalive (keepalive w)) x = sock w x).
  { intros x. specialize (Hx1 x). specialize (Hx2 x).
    destruct (clients w !! x) as [c |] eqn:Ec.
    - rewrite bool_decide_eq_true_2 by eauto.
      destruct Hx1 as (Hc1 & Hs1). unfold afterTick in Hc1, Hs1.
      destruct (destroyed (sock w x)) eqn:Ed.
      + cbn [fst snd] in *. rewrite Hc1 in Hx2. destruct Hx2 as (-> & ->).
        now rewrite Hs1.
      + destruct (Client.alive c); cbn [fst snd] in *; rewrite Hc1 in Hx2.
        * destruct Hx2 as (Hc2 & Hs2). unfold afterTick in Hc2, Hs2.
          rewrite Hs1 in Hc2, Hs2. unfold write in Hc2, Hs2.
          rewrite Ed in Hc2, Hs2. cbn in Hc2, Hs2. now rewrite Hs2.
        * destruct Hx2 as (-> & ->). now rewrite Hs1.
    - rewrite bool_decide_eq_false_2 by (intros [? ?]; discriminate).
      destruct Hx1 as (Hc1 & Hs1). rewrite Hc1 in Hx2.
      destruct Hx2 as (-> & ->). now split. }
  split; [| split].
  - apply map_eq. intros x. rewrite lookup_empty. apply Hall.
  - congruence.
  - intros x. apply Hall.
Qed.

(** X16. When the bytes received so far do not hold a whole frame, the
    chunk is only buffered, and the next chunk is handled exactly as if
    the two chunks had arrived as one. *)
Theorem split_chunk_same_as_whole :
  forall (JSON_parse : Buffer -> option json) (s : nat) (c1 c2 : Buffer)
         (now now' : Z) (w : World) (c : Client.t),
    clients w !! s = Some c ->
    parseFrame (Client.buf c ++ c1) = None ->
    exists w1,
      onDataChunk JSON_parse s c1 now w = Continue w1
      /\ bufOf w1 s = Some (Client.buf c ++ c1)
      /\ onDataChunk JSON_parse s c2 now' w1
         = onDataChunk JSON_parse s (c1 ++ c2) now' w.
Proof.
  intros JSON_parse s c1 c2 now now' w c Hc Hp.
  destruct (onDataChunk_incomplete JSON_parse s now w c c1 Hc Hp) as (H1 & H2).
  cbv zeta in *. eexists. split; [exact H1 |]. split; [exact H2 |].
  unfold onDataChunk.
  rewrite lookup_onClient, Hc. destruct (decide (s = s)); [| congruence].
  cbn [fmap option_fmap option_map Client.buf Client.set_buf].
  rewrite onClient_twice, <- app_assoc. reflexivity.
Qed.

Lemma split_chunk_same_as_whole_witness :
  exists w1,
    onDataChunk noJson 1%nat [x8a; x80; x01] 5%Z oneBob = Continue w1
    /\ bufOf w1 1%nat = Some [x8a; x80; x01]
    /\ onDataChunk noJson 1%nat [x02; x03; x04] 6%Z w1
       = onDataChunk noJson 1%nat clientPong 6%Z oneBob.
Proof.
  apply (split_chunk_same_as_whole noJson 1%nat [x8a; x80; x01] [x02; x03; x04]
           5%Z 6%Z oneBob bobClient).
  - vm_compute. reflexivity.
  - vm_compute. reflexivity.
Defined.

(** X17. A ping or pong frame, or a frame the handler drops, that heads
    a chunk on a connection with nothing buffered is handled, and the
    rest of the chunk is then handled exactly as if it had arrived as a
    chunk of its own. *)
Theorem control_frame_then_rest :
  forall (JSON_parse : Buffer -> option json) (s : nat) (chunk rest : Buffer)
         (now : Z) (w : World) (c : Client.t) (f : Frame),
    clients w !! s = Some c -> Client.buf c = [] ->
    parseFrame chunk = Some f -> totalLength f = length chunk ->
    opcode f = 9 \/ opcode f = 10 \/ dropped JSON_parse f ->
    exists w1,
      onDataChunk JSON_parse s chunk now w = Continue w1
      /\ onDataChunk JSON_parse s (chunk ++ rest) now w
         = onDataChunk JSON_parse s rest now w1.
Proof.
  intros JSON_parse s chunk rest now w c f Hc Hb Hp Hall Hop.
  pose proof (parseFrame_long _ _ Hp) as Hlong.
  assert (Hfirst := onDataChunk_first JSON_parse s (chunk ++ rest) now w c f Hc).
  rewrite Hb in Hfirst. cbn [app] in Hfirst.
  specialize (Hfirst (parseFrame_app _ rest _ Hp)). cbv zeta in Hfirst.
  assert (Hrest : sliceFrom (chunk ++ rest) (totalLength f) = rest).
  { unfold sliceFrom. rewrite Hall, skipn_app, skipn_all, Nat.sub_diag.
    reflexivity. }
  rewrite Hrest in Hfirst.
  assert (Hwhole := onDataChunk_whole JSON_parse s chunk now w c f Hc Hb Hp Hall).
  assert (Hfuel : forall w0,
    bufLen w0 s = length rest ->
    frames JSON_parse (length (chunk ++ rest)) s now w0
    = frames JSON_parse (S (length rest)) s now w0).
  { intros w0 Hl. apply frames_fuel; [lia |]. rewrite length_app. lia. }
  assert (Hlen : bufLen (onClient (Client.set_buf rest) s w) s = length rest).
  { unfold bufLen. rewrite lookup_onClient, Hc.
    destruct (decide (s = s)); [reflexivity | congruence]. }
  destruct Hop as [Hop | [Hop | Hd]].
  - rewrite Hop in Hfirst, Hwhole. cbn [N.eqb Pos.eqb] in Hfirst, Hwhole.
    eexists. split; [exact Hwhole |]. rewrite Hfirst.
    unfold onDataChunk. rewrite clients_onSocket, Hc, Hb. cbn [app].
    now rewrite Hfuel.
  - rewrite Hop in Hfirst, Hwhole. cbn [N.eqb Pos.eqb] in Hfirst, Hwhole.
    eexists. split; [exact Hwhole |]. rewrite Hfirst.
    unfold onDataChunk. rewrite lookup_onClient, Hc.
    destruct (decide (s = s)); [| congruence].
    cbn [fmap option_fmap option_map Client.buf Client.set_alive].
    rewrite Hb. cbn [app]. rewrite !onClient_twice.
    rewrite Hfuel; [reflexivity |].
    unfold bufLen. rewrite lookup_onClient, Hc.
    destruct (decide (s = s)); [reflexivity | congruence].
  - exists w. 
    assert (Hsame : onDataChunk JSON_parse s rest now w
                    = frames JSON_parse (length (chunk ++ rest)) s now
                        (onClient (Client.set_buf rest) s w)).
    { unfold onDataChunk. rewrite Hc, Hb. cbn [app]. now rewrite Hfuel. }
    destruct Hd as [(H8 & H9 & H10 & H1 & H0) | (Hopc & Hj)].
    + apply N.eqb_neq in H8, H9, H10, H1, H0.
      rewrite H8, H9, H10, H1, H0 in Hfirst, Hwhole. cbn [orb] in Hfirst, Hwhole.
      split; [exact Hwhole |]. now rewrite Hfirst, Hsame.
    + assert (Ht : (opcode f =? 1) || (opcode f =? 0) = true)
        by (destruct Hopc as [-> | ->]; reflexivity).
      assert (H8 : (opcode f =? 8) = false)
        by (destruct Hopc as [-> | ->]; reflexivity).
      assert (H9 : (opcode f =? 9) = false)
        by (destruct Hopc as [-> | ->]; reflexivity).
      assert (H10 : (opcode f =? 10) = false)
        by (destruct Hopc as [-> | ->]; reflexivity).
      rewrite H8, H9, H10, Ht in Hfirst, Hwhole.
      destruct Hj as [Hj | (parsed & Hj & Hn & Hping & Hmsg)];
        rewrite Hj in Hfirst, Hwhole.
      * split; [exact Hwhole |]. now rewrite Hfirst, Hsame.
      * rewrite onParsed_other in Hfirst, Hwhole by assumption.
        split; [exact Hwhole |]. now rewrite Hfirst, Hsame.
Qed.

Lemma control_frame_then_rest_witness :
  exists w1,
    onDataChunk noJson 1%nat clientPong 5%Z oneBob = Continue w1
    /\ onDataChunk noJson 1%nat (clientPong ++ [x89; x80; x01; x02; x03; x04]) 5%Z
                   oneBob
       = onDataChunk noJson 1%nat [x89; x80; x01; x02; x03; x04] 5%Z w1.
Proof.
  apply (control_frame_then_rest noJson 1%nat clientPong
           [x89; x80; x01; x02; x03; x04] 5%Z oneBob bobClient (mkFrame 10 [] 6)).
  - vm_compute. reflexivity.
  - reflexivity.
  - vm_compute. reflexivity.
  - reflexivity.
  - right. now left.
Defined.

Lemma onParsed_message s parsed text now w :
  getProp parsed (js "type") = Some (JStr (js "message")) ->
  getProp parsed (js "text") = Some (JStr text) ->
  onParsed s parsed now w = onParsed s (chatObj text) now w.
Proof.
  intros Hty Htx. unfold onParsed.
  destruct parsed; try discriminate.
  rewrite Hty, Htx. reflexivity.
Qed.

(** X18. From the wire to the room: a masked text frame that arrives
    whole on an open connection, parses to an object whose [type] is
    ["message"] and whose [text] is a string that is not blank, and is
    within the rate limit, is relayed once to every registered socket,
    the sender's included, under the sender's registered nickname, with
    the text trimmed and cut to [MAX_MSG_LEN] characters, and is added
    to the history. *)
Theorem chat_frame_relayed_to_all :
  forall (JSON_parse : Buffer -> option json) (s : nat) (key data : Buffer)
         (now : Z) (w : World) (c : Client.t) (parsed : json) (text : jsstring),
    clients w !! s = Some c -> Client.buf c = [] ->
    listening (sock w s) = true ->
    length key = 4%nat -> N.of_nat (length data) < 65536 ->
    JSON_parse data = Some parsed ->
    getProp parsed (js "type") = Some (JStr (js "message")) ->
    getProp parsed (js "text") = Some (JStr text) ->
    (Client.rateCount (rateStep now c) <= RATE_LIMIT_MSG)%nat ->
    falsy (chatText text) = false ->
    let msg := Chat (Client.nick c) (chatText text) now in
    exists w',
      step JSON_parse now (Data s (maskedFrame 1 key data)) w = Some w'
      /\ history w' = addToHistory msg (history w)
      /\ (forall x, sock w' x = if bool_decide (is_Some (clients w !! x))
                                then write (WJson msg) (sock w x) else sock w x)
      /\ written (sock w' s) = written (sock w s) ++ [WJson msg]
      /\ clients w' = <[s := rateStep now c]> (clients w).
Proof.
  intros JSON_parse s key data now w c parsed text
         Hc Hb Hl Hk Hlen Hj Hty Htx Hrate Htext msg.
  pose proof (parse_masked 1 key data [] ltac:(reflexivity) Hk Hlen) as Hp.
  rewrite app_nil_r in Hp.
  destruct (onParsed_accept s text now w c Hc Hrate)
    as (w' & Ho & Hcl & _ & Hh & Hs).
  assert (Hrel : relayed (Client.nick c) [(now, text)] = [msg]).
  { unfold relayed. cbn [flat_map snd fst app]. now rewrite Htext. }
  rewrite Hrel in Hh, Hs.
  exists w'. split.
  { cbn [step]. rewrite Hl.
    rewrite (onDataChunk_whole JSON_parse s _ now w c _ Hc Hb Hp)
      by reflexivity.
    cbn [opcode payload N.eqb Pos.eqb orb].
    rewrite Hj, (onParsed_message s parsed text now w Hty Htx), Ho.
    reflexivity. }
  split; [exact Hh |]. split; [exact Hs |]. split; [| exact Hcl].
  rewrite Hs, bool_decide_eq_true_2 by eauto.
  unfold listening in Hl. apply andb_prop in Hl as [_ Hd].
  apply negb_true_iff in Hd. cbn [deliver fold_left]. unfold write.
  now rewrite Hd.
Qed.

Lemma chat_frame_relayed_to_all_witness :
  exists w',
    step (jsonOf hiText (chatObj (js "hi"))) 5%Z
         (Data 1%nat (maskedFrame 1 [x01; x02; x03; x04] (utf8 hiText))) bobAndAl
    = Some w'
    /\ history w'
       = addToHistory (Chat (js "Bob") (js "hi") 5) (history bobAndAl)
    /\ written (sock w' 1%nat)
       = written (sock bobAndAl 1%nat) ++ [WJson (Chat (js "Bob") (js "hi") 5)].
Proof.
  destruct (chat_frame_relayed_to_all (jsonOf hiText (chatObj (js "hi"))) 1%nat
              [x01; x02; x03; x04] (utf8 hiText) 5%Z bobAndAl bobClient
              (chatObj (js "hi")) (js "hi"))
    as (w' & H1 & H2 & _ & H4 & _).
  - vm_compute. reflexivity.
  - reflexivity.
  - vm_compute. reflexivity.
  - reflexivity.
  - vm_compute. reflexivity.
  - vm_compute. reflexivity.
  - vm_compute. reflexivity.
  - vm_compute. reflexivity.
  - vm_compute. lia.
  - vm_compute. reflexivity.
  - exists w'. split; [exact H1 |]. split; [exact H2 | exact H4].
Defined.

(* ---------------------------------------------------------------------- *)
(** ** Leaving and joining *)

Lemma onClose_after s now w f :
  clients w !! s = None ->
  (forall k, written (f k) = written k) ->
  let w' := onClose s now (onSocket f s w) in
  clients w' = clients w /\ history w' = history w
  /\ forall x, written (sock w' x) = written (sock w x).
Proof.
  intros Hc Hf. cbv zeta. rewrite onClose_unregistered by exact Hc.
  do 2 (split; [reflexivity |]). intros x. rewrite sock_onSocket.
  destruct (decide (s = x)) as [<- |]; [apply Hf | reflexivity].
Qed.

(** X19. When the socket of a registered connection closes or fails, the
    connection leaves the registry and one leave message, with the count
    after removal, goes to the history and to every other registered
    socket, none to the socket itself; a second close or error event of
    that socket changes neither registry nor history and writes nothing. *)
Theorem leave_announced_once :
  forall (JSON_parse : Buffer -> option json) (s : nat) (t1 t2 : Z)
         (w : World) (c : Client.t) (e1 e2 : Event),
    clients w !! s = Some c ->
    (e1 = Close s /\ onceClose (sock w s) = true)
    \/ (e1 = SockError s /\ onceError (sock w s) = true) ->
    e2 = Close s \/ e2 = SockError s ->
    let leaveMsg := System (Client.nick c ++ js " left") t1
                           (Some (size (clients w) - 1)%nat) in
    exists w1 w2,
      step JSON_parse t1 e1 w = Some w1
      /\ clients w1 = delete s (clients w)
      /\ history w1 = addToHistory leaveMsg (history w)
      /\ (forall x, x <> s -> is_Some (clients w !! x) ->
            sock w1 x = write (WJson leaveMsg) (sock w x))
      /\ written (sock w1 s) = written (sock w s)
      /\ step JSON_parse t2 e2 w1 = Some w2
      /\ clients w2 = clients w1 /\ history w2 = history w1
      /\ forall x, written (sock w2 x) = written (sock w1 x).
Proof.
  intros JSON_parse s t1 t2 w c e1 e2 Hc He1 He2 leaveMsg.
  assert (Hfirst : forall f : Socket -> Socket,
    (forall k, written (f k) = written k) ->
    let w1 := onClose s t1 (onSocket f s (onSocket destroy s w)) in
    clients w1 = delete s (clients w)
    /\ history w1 = addToHistory leaveMsg (history w)
    /\ (forall x, x <> s -> is_Some (clients w !! x) ->
          sock w1 x = write (WJson leaveMsg) (sock w x))
    /\ written (sock w1 s) = written (sock w s)).
  { intros f Hf. cbv zeta.
    destruct (onClose_registered s t1 (onSocket f s (onSocket destroy s w)) c Hc)
      as (H1 & _ & H3 & H4). cbv zeta in *.
    split; [exact H1 |]. split; [exact H3 |]. split.
    - intros x Hx Hreg. rewrite H4.
      rewrite bool_decide_eq_true_2 by (split; assumption).
      rewrite !sock_onSocket_ne by congruence. reflexivity.
    - rewrite H4. rewrite bool_decide_eq_false_2 by (intros [_ ?]; congruence).
      rewrite sock_onSocket_eq, Hf, sock_onSocket_eq. reflexivity. }
  assert (Hsecond : forall w1, clients w1 !! s = None ->
    exists w2, step JSON_parse t2 e2 w1 = Some w2
               /\ clients w2 = clients w1 /\ history w2 = history w1
               /\ forall x, written (sock w2 x) = written (sock w1 x)).
  { intros w1 Hn.
    assert (Hd : forall x, written (sock (onSocket destroy s w1) x)
                           = written (sock w1 x)).
    { intros x. rewrite sock_onSocket.
      destruct (decide (s = x)) as [<- |]; reflexivity. }
    destruct He2 as [-> | ->]; cbn [step].
    - destruct (onceClose (sock (onSocket destroy s w1) s)); eexists;
        (split; [reflexivity |]).
      + destruct (onClose_after s t2 (onSocket destroy s w1) detachClose Hn)
          as (Ha & Hb & Hw); [reflexivity |].
        cbv zeta in *. split; [exact Ha |]. split; [exact Hb |].
        intros x. now rewrite Hw.
      + do 2 (split; [reflexivity |]). exact Hd.
    - destruct (onceError (sock (onSocket destroy s w1) s)); eexists;
        (split; [reflexivity |]).
      + destruct (onClose_after s t2 (onSocket destroy s w1) detachError Hn)
          as (Ha & Hb & Hw); [reflexivity |].
        cbv zeta in *. split; [exact Ha |]. split; [exact Hb |].
        intros x. now rewrite Hw.
      + do 2 (split; [reflexivity |]). exact Hd. }
  destruct He1 as [(-> & Hflag) | (-> & Hflag)].
  - destruct (Hfirst detachClose) as (H1 & H2 & H3 & H4); [reflexivity |].
    cbv zeta in *.
    destruct (Hsecond (onClose s t1 (onSocket detachClose s (onSocket destroy s w))))
      as (w2 & Hs & Hr).
    { rewrite H1. apply lookup_delete_eq. }
    eexists. exists w2. split.
    { cbn [step]. rewrite sock_onSocket_eq. cbn [destroy onceClose].
      rewrite Hflag. reflexivity. }
    do 4 (split; [assumption |]). split; [exact Hs | exact Hr].
  - destruct (Hfirst detachError) as (H1 & H2 & H3 & H4); [reflexivity |].
    cbv zeta in *.
    destruct (Hsecond (onClose s t1 (onSocket detachError s (onSocket destroy s w))))
      as (w2 & Hs & Hr).
    { rewrite H1. apply lookup_delete_eq. }
    eexists. exists w2. split.
    { cbn [step]. rewrite sock_onSocket_eq. cbn [destroy onceError].
      rewrite Hflag. reflexivity. }
    do 4 (split; [assumption |]). split; [exact Hs | exact Hr].
Qed.

Lemma leave_announced_once_witness :
  exists w1 w2,
    step noJson 5000%Z (SockError 1%nat) bobAndAl = Some w1
    /\ history w1
       = addToHistory (System (js "Bob left") 5000 (Some 1%nat)) (history bobAndAl)
    /\ step noJson 5001%Z (Close 1%nat) w1 = Some w2
    /\ history w2 = history w1.
Proof.
  destruct (leave_announced_once noJson 1%nat 5000%Z 5001%Z bobAndAl bobClient
              (SockError 1%nat) (Close 1%nat))
    as (w1 & w2 & H1 & _ & H3 & _ & _ & H6 & _ & H8 & _).
  - vm_compute. reflexivity.
  - right. split; [reflexivity | vm_compute; reflexivity].
  - now left.
  - exists w1, w2. split; [exact H1 |]. split; [exact H3 |].
    split; [exact H6 | exact H8].
Defined.

(** X20. [broadcast] appends the message to what has been written to
    every socket that is registered, not the excluded one and not
    destroyed, and to no other; it leaves every other part of the state,
    and the listeners of every socket, as they were. *)
Theorem broadcast_reaches_open_sockets :
  forall (obj : Message) (ex : option nat) (w : World),
    let w' := broadcast obj ex w in
    clients w' = clients w /\ history w' = history w /\ nextId w' = nextId w
    /\ forall s,
         sock w' s
         = if bool_decide (is_Some (clients w !! s))
              && negb (bool_decide (Some s = ex))
              && negb (destroyed (sock w s))
           then mkSocket false (written (sock w s) ++ [WJson obj])
                         (onData (sock w s)) (onceClose (sock w s))
                         (onceError (sock w s))
           else sock w s.
Proof.
  intros obj ex w. cbv zeta.
  destruct (broadcast_spec obj ex w) as (Hc & Hh & Hn & Hs). cbv zeta in *.
  do 3 (split; [assumption |]).
  intros s. rewrite Hs.
  destruct (bool_decide (is_Some _) && negb _); cbn [andb]; [| reflexivity].
  unfold write. now destruct (destroyed (sock w s)).
Qed.




(** X25. The [Origin] header of an upgrade request has no part in what
    the server does with the request: two requests that differ in it
    only are answered and registered alike. *)
Theorem origin_not_enforced :
  forall (s : nat) (key nick o1 o2 : option jsstring) (now : Z) (w : World),
    handleUpgrade s (mkRequest key o1 nick) now w
    = handleUpgrade s (mkRequest key o2 nick) now w.
Proof.
  intros s key nick o1 o2 now w. unfold handleUpgrade, doHandshake, rawNickOf.
  cbn [secWebSocketKey nickParam]. reflexivity.
Qed.

(* ---------------------------------------------------------------------- *)
(** ** Routing *)

Lemma dropSlashes_repeat n l : dropSlashes (repeat slash n ++ l) = dropSlashes l.
Proof. induction n as [| n IH]; [reflexivity | exact IH]. Qed.

Lemma dropSlashes_split l : exists n, l = repeat slash n ++ dropSlashes l.
Proof.
  induction l as [| c l (n & IH)]; [now exists 0%nat |].
  cbn [dropSlashes]. destruct (N.eqb_spec c slash) as [-> |].
  - exists (S n). cbn [repeat app]. now rewrite <- IH.
  - now exists 0%nat.
Qed.

Lemma rev_repeat {A} (a : A) n : rev (repeat a n) = repeat a n.
Proof.
  induction n as [| n IH]; [reflexivity |].
  cbn [repeat rev]. rewrite IH. clear IH.
  induction n as [| n IH]; [reflexivity |]. cbn [repeat app]. now rewrite IH.
Qed.

Lemma strip_split p : slashed (stripTrailingSlashes p) p.
Proof.
  destruct (dropSlashes_split (rev p)) as (n & H). exists n.
  unfold stripTrailingSlashes.
  rewrite <- (rev_involutive p) at 1. rewrite H at 1.
  rewrite rev_app_distr, rev_repeat. reflexivity.
Qed.

Lemma strip_slashed q p :
  dropSlashes (rev q) = rev q -> slashed q p -> stripTrailingSlashes p = q.
Proof.
  intros Hq (n & ->). unfold stripTrailingSlashes.
  rewrite rev_app_distr, rev_repeat, dropSlashes_repeat, Hq.
  apply rev_involutive.
Qed.

Lemma strip_iff q p :
  dropSlashes (rev q) = rev q -> stripTrailingSlashes p = q <-> slashed q p.
Proof.
  intros Hq. split; [intros <-; apply strip_split | now apply strip_slashed].
Qed.

(** X22. The HTTP handler serves the page exactly on the paths [/chat]
    and [/chat/index.html], each followed by any number of slashes: with
    status 200 and the file when it can be read, with status 500 when it
    cannot. Every other path is answered 404, among them the root and
    every path made of slashes only, although the handler tests for an
    empty path. Every answer carries the two security headers. *)
Theorem http_serves_page_on_chat_paths_only :
  forall (p : jsstring) (file : option jsstring),
    (pagePath p ->
       httpHandler p file
       = match file with
         | Some html =>
           mkResponse 200 (securityHeaders
                             ++ [(js "Content-Type", js "text/html; charset=utf-8")])
                      html
         | None => mkResponse 500 securityHeaders
                              (js "Server error: index.html not found")
         end)
    /\ (~ pagePath p ->
          httpHandler p file = mkResponse 404 securityHeaders (js "Not found"))
    /\ (forall n, ~ pagePath (repeat slash n))
    /\ firstn 2 (headers (httpHandler p file)) = securityHeaders.
Proof.
  intros p file.
  assert (Hchat : stripTrailingSlashes p = js "/chat" <-> slashed (js "/chat") p)
    by (now apply strip_iff).
  assert (Hindex : stripTrailingSlashes p = js "/chat/index.html"
                   <-> slashed (js "/chat/index.html") p)
    by (now apply strip_iff).
  split; [| split; [| split]].
  - intros Hpage. unfold httpHandler.
    assert (Hs : stripTrailingSlashes p = js "/chat"
                 \/ stripTrailingSlashes p = js "/chat/index.html")
      by (destruct Hpage; [left; now apply Hchat | right; now apply Hindex]).
    destruct Hs as [-> | ->]; reflexivity.
  - intros Hno. unfold httpHandler.
    set (q := if falsy (stripTrailingSlashes p) then js "/"
              else stripTrailingSlashes p).
    assert (Hq1 : q <> js "/chat").
    { intros E. apply Hno. left. apply Hchat. unfold q in E.
      destruct (stripTrailingSlashes p); [discriminate | exact E]. }
    assert (Hq2 : q <> js "/chat/index.html").
    { intros E. apply Hno. right. apply Hindex. unfold q in E.
      destruct (stripTrailingSlashes p); [discriminate | exact E]. }
    assert (Hq3 : q <> js "").
    { unfold q. destruct (stripTrailingSlashes p); discriminate. }
    rewrite !bool_decide_eq_false_2 by assumption. reflexivity.
  - intros n [H | H].
    + apply (strip_iff (js "/chat")) in H; [| reflexivity].
      unfold stripTrailingSlashes in H.
      rewrite rev_repeat, <- (app_nil_r (repeat slash n)) in H.
      rewrite dropSlashes_repeat in H. discriminate.
    + apply (strip_iff (js "/chat/index.html")) in H; [| reflexivity].
      unfold stripTrailingSlashes in H.
      rewrite rev_repeat, <- (app_nil_r (repeat slash n)) in H.
      rewrite dropSlashes_repeat in H. discriminate.
  - unfold httpHandler. destruct (_ || _); [destruct file |]; reflexivity.
Qed.

Lemma http_serves_page_on_chat_paths_only_witness :
  httpHandler (js "/chat//") (Some (js "<html>"))
  = mkResponse 200 (securityHeaders
                      ++ [(js "Content-Type", js "text/html; charset=utf-8")])
               (js "<html>")
  /\ httpHandler (js "/") (Some (js "<html>"))
     = mkResponse 404 securityHeaders (js "Not found").
Proof.
  destruct (http_serves_page_on_chat_paths_only (js "/chat//") (Some (js "<html>")))
    as (H1 & _).
  destruct (http_serves_page_on_chat_paths_only (js "/") (Some (js "<html>")))
    as (_ & H2 & H3 & _).
  split.
  - apply H1. left. exists 2%nat. reflexivity.
  - apply H2. exact (H3 1%nat).
Defined.

(** X23. The upgrade listener hands the request to [handleUpgrade]
    exactly when the path is [/chat/ws] followed by any number of
    slashes. On every other path the socket is destroyed without a
    response and nothing else changes: no connection is registered and
    nothing is added to the history. *)
Theorem upgrade_only_on_ws_path :
  forall (p : jsstring) (s : nat) (req : Request) (now : Z) (w : World),
    (slashed (js "/chat/ws") p ->
       onUpgrade p s req now w = handleUpgrade s req now w)
    /\ (~ slashed (js "/chat/ws") p ->
          let w' := onUpgrade p s req now w in
          destroyed (sock w' s) = true
          /\ written (sock w' s) = written (sock w s)
          /\ (forall x, x <> s -> sock w' x = sock w x)
          /\ clients w' = clients w /\ history w' = history w
          /\ nextId w' = nextId w).
Proof.
  intros p s req now w.
  assert (Hws : stripTrailingSlashes p = js "/chat/ws" <-> slashed (js "/chat/ws") p)
    by (now apply strip_iff).
  unfold onUpgrade. split.
  - intros H. apply Hws in H. now rewrite bool_decide_eq_true_2.
  - intros H. rewrite bool_decide_eq_false_2 by (now rewrite Hws).
    cbv zeta. rewrite sock_onSocket_eq.
    do 2 (split; [reflexivity |]). split; [| repeat split].
    intros x Hx. apply sock_onSocket_ne. congruence.
Qed.

Lemma upgrade_only_on_ws_path_witness :
  onUpgrade (js "/chat/ws/") 1%nat (requestFor "Bob") 0%Z initial = oneBob
  /\ clients (onUpgrade (js "/chat") 1%nat (requestFor "Bob") 0%Z initial) = ∅
  /\ destroyed (sock (onUpgrade (js "/chat") 1%nat (requestFor "Bob") 0%Z initial)
                     1%nat) = true.
Proof.
  destruct (upgrade_only_on_ws_path (js "/chat/ws/") 1%nat (requestFor "Bob") 0%Z
              initial) as (H1 & _).
  destruct (upgrade_only_on_ws_path (js "/chat") 1%nat (requestFor "Bob") 0%Z
              initial) as (_ & H2).
  split.
  - apply H1. exists 1%nat. reflexivity.
  - destruct H2 as (Hd & _ & _ & Hc & _).
    + intros (n & Hn). destruct n; discriminate.
    + split; [exact Hc | exact Hd].
Defined.

(* ---------------------------------------------------------------------- *)
(** ** The nickname policy *)

Lemma policy_white c :
  outOfPolicy c = false -> c <> space -> isWhiteSpace c = false.
Proof.
  intros Hp Hs. destruct (isWhiteSpace c) eqn:E; [| reflexivity]. exfalso.
  unfold outOfPolicy, isWordChar in Hp. unfold isWhiteSpace in E.
  unfold space in Hs. apply negb_false_iff in Hp.
  repeat (rewrite orb_true_iff in Hp || rewrite andb_true_iff in Hp
          || rewrite N.leb_le in Hp || rewrite N.eqb_eq in Hp).
  repeat (rewrite orb_true_iff in E || rewrite andb_true_iff in E
          || rewrite N.leb_le in E || rewrite N.eqb_eq in E).
  lia.
Qed.

Lemma trim_clean raw :
  raw <> [] ->
  isWhiteSpace (hd space raw) = false ->
  isWhiteSpace (List.last raw space) = false ->
  trim raw = raw.
Proof.
  intros Hne Hh Hl. unfold trim, trimEnd.
  assert (Hs : trimStart raw = raw).
  { destruct raw as [| c r]; [congruence |]. cbn in *. now rewrite Hh. }
  rewrite Hs.
  destruct (exists_last Hne) as (r & c & ->).
  rewrite last_last in Hl. rewrite rev_app_distr. cbn [rev app trimStart].
  rewrite Hl. cbn [rev]. now rewrite rev_involutive.
Qed.

Lemma filter_policy raw :
  Forall (fun c => outOfPolicy c = false) raw ->
  List.filter (fun c => negb (outOfPolicy c)) raw = raw.
Proof.
  induction 1 as [| c r Hc _ IH]; [reflexivity |].
  cbn [List.filter]. now rewrite Hc, IH.
Qed.

(** X24. A sanitized nickname holds only letters, digits, [_], [-], [.]
    and spaces; it is ["Anonymous"] when the trimmed request holds none
    of these; and a request of 1 to [MAX_NICK_LEN] such characters with
    no space first or last is returned as it is. *)
Theorem sanitizeNick_policy :
  forall (raw : jsstring),
    Forall (fun c => outOfPolicy c = false) (sanitizeNick raw)
    /\ (Forall (fun c => outOfPolicy c = true) (trim raw) ->
          sanitizeNick raw = js "Anonymous")
    /\ (cleanNick raw -> sanitizeNick raw = raw).
Proof.
  intros raw. split; [| split].
  - unfold sanitizeNick, slice0.
    set (kept := List.filter _ (trim raw)).
    assert (Hk : Forall (fun c => outOfPolicy c = false) kept).
    { apply List.Forall_forall. intros c Hc. apply List.filter_In in Hc as [_ Hc].
      now apply negb_true_iff in Hc. }
    destruct (falsy (firstn MAX_NICK_LEN kept)).
    + vm_compute. repeat constructor.
    + now apply Forall_take.
  - intros Hall. unfold sanitizeNick, slice0.
    assert (Hk : List.filter (fun c => negb (outOfPolicy c)) (trim raw) = []).
    { induction Hall as [| c r Hc _ IH]; [reflexivity |].
      cbn [List.filter]. now rewrite Hc. }
    rewrite Hk. reflexivity.
  - intros (Hlen & Hpol & Hhd & Hlast).
    assert (Hne : raw <> []) by (destruct raw; [cbn in Hlen; lia | discriminate]).
    assert (Hh : isWhiteSpace (hd space raw) = false).
    { apply policy_white; [| exact Hhd].
      destruct raw as [| c r]; [congruence |]. now inversion Hpol. }
    assert (Hl : isWhiteSpace (List.last raw space) = false).
    { apply policy_white; [| exact Hlast].
      rewrite List.Forall_forall in Hpol. apply Hpol.
      destruct (exists_last Hne) as (r & c & ->). rewrite last_last.
      apply in_or_app. right. now left. }
    unfold sanitizeNick, slice0.
    rewrite (trim_clean raw Hne Hh Hl), (filter_policy raw Hpol).
    rewrite firstn_all2 by (unfold jsstring in *; lia).
    destruct raw; [congruence | reflexivity].
Qed.

Lemma sanitizeNick_policy_witness :
  sanitizeNick (js "<*>") = js "Anonymous"
  /\ sanitizeNick (js "Jean-Luc P.") = js "Jean-Luc P.".
Proof.
  destruct (sanitizeNick_policy (js "<*>")) as (_ & H1 & _).
  destruct (sanitizeNick_policy (js "Jean-Luc P.")) as (_ & _ & H2).
  split.
  - apply H1. vm_compute. repeat constructor.
  - apply H2. unfold cleanNick. vm_compute.
    split; [lia |]. split; [repeat constructor |]. split; discriminate.
Defined.
